(** * data-castle/journal: the entry model, the search index, the record
      store and the recipient-rotation transaction

    A shallow embedding of
    - [pkg/models/entry.go]   (EntryV1, ToYaml, ParseYaml),
    - [pkg/models/index.go]   (Index and its Add / Remove / Find* methods),
    - [internal/storage/storage.go] (Storage),
    - [internal/entry/journal.go]   (Journal),
    - [internal/crypto/transaction.go] and the configuration, recipient
      and backup functions of [internal/crypto/crypto.go].

    Go maps are [gmap]s, slices are lists, [error] results are a sum type,
    and the file system is an explicit world threaded through every call. *)

From Stdlib Require Import ZArith Lia Ascii String List.
From stdpp Require Import gmap strings list fin_maps sorting.

Local Open Scope string_scope.
Local Open Scope list_scope.
Local Open Scope Z_scope.

(** ** Errors and results

    A Go [error] is either a message built by [errors.New] / [fmt.Errorf]
    or an [*os.PathError]; for the latter only whether it means "file does
    not exist" matters to the program. *)

Inductive error : Type :=
| errorString (msg : string)
| PathError (op path : string) (notExist : bool).

(** [err.Error()] *)
Definition Error (e : error) : string :=
  match e with
  | errorString msg => msg
  | PathError op path true => op +:+ " " +:+ path +:+ ": no such file or directory"
  | PathError op path false => op +:+ " " +:+ path +:+ ": input/output error"
  end.

(** [fmt.Errorf(prefix + "%w", err)] *)
Definition wrap (prefix : string) (e : error) : error :=
  errorString (prefix +:+ Error e).

(** Go's [(value, error)] pairs. *)
Inductive result (A : Type) : Type :=
| Ok (a : A)
| Err (e : error).
Arguments Ok {A} a.
Arguments Err {A} e.

(** ** Go's [time] package, for times in a fixed-offset location

    A [time.Time] is an instant (seconds and nanoseconds since the Unix
    epoch) together with a location.  The location is kept as its offset in
    seconds east of UTC; [time.UTC] is offset 0. *)

Module GoTime.

Record Time : Type := mkTime {
  unixSec : Z;      (* seconds since 1970-01-01T00:00:00Z *)
  nsec : Z;         (* nanoseconds within the second *)
  zoneOffset : Z    (* seconds east of UTC of the time's location *)
}.

(** Days since the epoch to proleptic Gregorian (year, month, day). *)
Definition civil_from_days (z : Z) : Z * Z * Z :=
  let z := z + 719468 in
  let era := z / 146097 in
  let doe := z - era * 146097 in
  let yoe := (doe - doe / 1460 + doe / 36524 - doe / 146096) / 365 in
  let y := yoe + era * 400 in
  let doy := doe - (365 * yoe + yoe / 4 - yoe / 100) in
  let mp := (5 * doy + 2) / 153 in
  let d := doy - (153 * mp + 2) / 5 + 1 in
  let m := if mp <? 10 then mp + 3 else mp - 9 in
  (if m <=? 2 then y + 1 else y, m, d).

(** (year, month, day) to days since the epoch; linear in [d], so a day
    past the end of the month rolls over as [time.Date] normalises it. *)
Definition days_from_civil (y m d : Z) : Z :=
  let y := if m <=? 2 then y - 1 else y in
  let era := y / 400 in
  let yoe := y - era * 400 in
  let doy := (153 * (if 2 <? m then m - 3 else m + 9) + 2) / 5 + d - 1 in
  let doe := yoe * 365 + yoe / 4 - yoe / 100 + doy in
  era * 146097 + doe - 719468.

(** Wall-clock seconds since the epoch in the time's own location. *)
Definition abs (t : Time) : Z := unixSec t + zoneOffset t.

(** [t.Date()] *)
Definition DateOf (t : Time) : Z * Z * Z := civil_from_days (abs t / 86400).

Definition Year (t : Time) : Z := fst (fst (DateOf t)).
Definition Month (t : Time) : Z := snd (fst (DateOf t)).
Definition Day (t : Time) : Z := snd (DateOf t).

(** [t.Clock()] *)
Definition Clock (t : Time) : Z * Z * Z :=
  let s := abs t mod 86400 in
  (s / 3600, (s mod 3600) / 60, s mod 60).

(** [time.Date(year, month, day, hour, min, sec, nsec, loc)]: out-of-range
    values are normalised. *)
Definition Date (year month day hour min sec ns offset : Z) : Time :=
  let m0 := month - 1 in
  let year := year + m0 / 12 in
  let month := m0 mod 12 + 1 in
  let days := days_from_civil year month day in
  let s := days * 86400 + hour * 3600 + min * 60 + sec + ns / 1000000000 in
  {| unixSec := s - offset; nsec := ns mod 1000000000; zoneOffset := offset |}.

(** [t.AddDate(years, months, days)] *)
Definition AddDate (years months days : Z) (t : Time) : Time :=
  let '(year, month, day) := DateOf t in
  let '(hour, min, sec) := Clock t in
  Date (year + years) (month + months) (day + days) hour min sec (nsec t)
       (zoneOffset t).

(** [t.After(u)] *)
Definition After (t u : Time) : bool :=
  (unixSec u <? unixSec t) || ((unixSec t =? unixSec u) && (nsec u <? nsec t)).

(** [t.UTC()] *)
Definition UTC (t : Time) : Time :=
  {| unixSec := unixSec t; nsec := nsec t; zoneOffset := 0 |}.

(** The zero [Time] is January 1, year 1, 00:00:00 UTC. *)
Definition zeroUnix : Z := -62135596800.
Definition zeroTime : Time := {| unixSec := zeroUnix; nsec := 0; zoneOffset := 0 |}.

(** [t.IsZero()] *)
Definition IsZero (t : Time) : bool := (unixSec t =? zeroUnix) && (nsec t =? 0).

(** *** Formatting *)

Definition digitChar (d : Z) : ascii := ascii_of_nat (48 + Z.to_nat d).

(** Decimal digits of a non-negative number, most significant first. *)
Fixpoint utoa (fuel : nat) (u : Z) (acc : string) : string :=
  match fuel with
  | O => acc
  | S fuel =>
      let acc := String (digitChar (u mod 10)) acc in
      if u / 10 =? 0 then acc else utoa fuel (u / 10) acc
  end.

Fixpoint zeros (n : nat) : string :=
  match n with O => "" | S n => String "0"%char (zeros n) end.

(** [appendInt(b, x, width)]: sign, zero padding to [width], digits. *)
Definition appendInt (x : Z) (width : nat) : string :=
  let u := Z.abs x in
  let ds := utoa (S (Z.to_nat (Z.log2 u))) u "" in
  (if x <? 0 then "-" else "") +:+ zeros (width - String.length ds) +:+ ds.

(** The chunks of a layout that the program uses. *)
Inductive chunk : Type :=
| stdLongYear                (* "2006" *)
| stdZeroMonth               (* "01"   *)
| stdZeroDay                 (* "02"   *)
| lit (s : string).

Definition formatChunk (t : Time) (c : chunk) : string :=
  match c with
  | stdLongYear => appendInt (Year t) 4
  | stdZeroMonth => appendInt (Month t) 2
  | stdZeroDay => appendInt (Day t) 2
  | lit s => s
  end.

(** [t.Format(layout)] *)
Definition Format (layout : list chunk) (t : Time) : string :=
  foldr (fun c acc => formatChunk t c +:+ acc) "" layout.

(** "2006-01-02", "2006" and "01" *)
Definition layoutDate : list chunk :=
  [stdLongYear; lit "-"; stdZeroMonth; lit "-"; stdZeroDay].
Definition layoutYear : list chunk := [stdLongYear].
Definition layoutMonth : list chunk := [stdZeroMonth].

End GoTime.

Import GoTime.

(** The [%d] verb of [fmt]. *)
Definition itoa (z : Z) : string := appendInt z 0.

(** ** The [strings] package *)

Module strings.

(** [strings.Split(s, sep)] for a one-character separator. *)
Fixpoint Split (sep : ascii) (s : string) : list string :=
  match s with
  | EmptyString => [""]
  | String c s' =>
      if Ascii.eqb c sep then "" :: Split sep s'
      else match Split sep s' with
           | [] => [String c ""]
           | x :: xs => String c x :: xs
           end
  end.

(** [strings.Join(elems, sep)] *)
Fixpoint Join (sep : string) (elems : list string) : string :=
  match elems with
  | [] => ""
  | [x] => x
  | x :: xs => x +:+ sep +:+ Join sep xs
  end.

Definition isSpace (c : ascii) : bool :=
  let n := nat_of_ascii c in
  ((9 <=? n) && (n <=? 13))%nat || (n =? 32)%nat.

Fixpoint trimLeft (s : string) : string :=
  match s with
  | String c s' => if isSpace c then trimLeft s' else s
  | EmptyString => EmptyString
  end.

(** [strings.TrimSpace(s)] on ASCII white space *)
Definition TrimSpace (s : string) : string :=
  string_of_list_ascii
    (rev (list_ascii_of_string
            (trimLeft (string_of_list_ascii
                         (rev (list_ascii_of_string (trimLeft s))))))).

End strings.

(** ** [path/filepath] on a slash-separated file system *)

Module filepath.

(** One element of the path under [Clean]; [out] is the stack of kept
    elements, innermost first. *)
Definition cleanStep (rooted : bool) (out : list string) (elem : string)
  : list string :=
  if String.eqb elem "" then out
  else if String.eqb elem "." then out
  else if String.eqb elem ".." then
    match out with
    | top :: rest => if String.eqb top ".." then ".." :: out else rest
    | [] => if rooted then [] else [".."]
    end
  else elem :: out.

(** [filepath.Clean(path)] *)
Definition Clean (path : string) : string :=
  if String.eqb path "" then "."
  else
    let rooted := String.prefix "/" path in
    let out := rev (fold_left (cleanStep rooted) (strings.Split "/"%char path) []) in
    if rooted then "/" +:+ strings.Join "/" out
    else match out with [] => "." | _ => strings.Join "/" out end.

(** [filepath.Join(elem...)]: empty elements before the first non-empty one
    are dropped, the rest is joined by slashes and cleaned. *)
Fixpoint Join (elem : list string) : string :=
  match elem with
  | [] => ""
  | e :: rest => if String.eqb e "" then Join rest else Clean (strings.Join "/" elem)
  end.

End filepath.

(** ** The external collaborators' data: bytes and YAML documents *)

Definition bytes : Type := list Byte.byte.

Module yaml.

(** A YAML value as far as the entry schema needs it. *)
Inductive Node : Type :=
| NInt (z : Z)
| NStr (s : string)
| NTime (t : Time)
| NSeq (l : list string).

(** A top-level mapping, in key order. *)
Definition Document : Type := list (string * Node).

(** The error for a value of the wrong kind at key [k]. *)
Definition TypeError (k : string) : error :=
  errorString ("yaml: unmarshal errors: cannot unmarshal field " +:+ k).

Fixpoint lookupKey (k : string) (doc : Document) : option Node :=
  match doc with
  | [] => None
  | (k', v) :: doc => if String.eqb k k' then Some v else lookupKey k doc
  end.

(** Decoding one struct field: a missing key leaves the zero value, a
    value of another kind is a type error. *)
Definition decodeInt (k : string) (doc : Document) : result Z :=
  match lookupKey k doc with
  | None => Ok 0
  | Some (NInt z) => Ok z
  | Some _ => Err (TypeError k)
  end.

Definition decodeStr (k : string) (doc : Document) : result string :=
  match lookupKey k doc with
  | None => Ok ""
  | Some (NStr s) => Ok s
  | Some _ => Err (TypeError k)
  end.

Definition decodeTime (k : string) (doc : Document) : result Time :=
  match lookupKey k doc with
  | None => Ok zeroTime
  | Some (NTime t) => Ok t
  | Some _ => Err (TypeError k)
  end.

Definition decodeSeq (k : string) (doc : Document) : result (list string) :=
  match lookupKey k doc with
  | None => Ok []
  | Some (NSeq l) => Ok l
  | Some _ => Err (TypeError k)
  end.

(** A field tagged [omitempty] is written only when its slice is
    non-empty. *)
Definition omitemptySeq (k : string) (l : list string) : Document :=
  match l with [] => [] | _ => [(k, NSeq l)] end.

(** The text layer of [gopkg.in/yaml.v3], an external library: writing a
    document out and reading a byte string back as a top-level mapping. *)
Class TextLayer : Type := {
  emit : Document -> bytes;
  parse : bytes -> result Document
}.

End yaml.

(** ** [pkg/models]: entries and the search index *)

Module models.

(** [CurrentVersion] is the latest version of the Entry model. *)
Definition CurrentVersion : Z := 1.

(** [IndexableMetadata]: the metadata fields needed for indexing. *)
Class IndexableMetadata (A : Type) : Type := {
  GetID : A -> string;
  GetDate : A -> Time;
  GetTags : A -> list string;
  GetFilePath : A -> string
}.

(** The version-agnostic metadata stored in the index. *)
Module Metadata.
Record t : Type := mk {
  Id : string;
  Date : Time;
  Tags : list string;
  FilePath : string
}.
End Metadata.

Module MetadataV1.
Record t : Type := mk {
  Version : Z;
  Id : string;
  Date : Time;
  Tags : list string;
  FilePath : string
}.
End MetadataV1.

#[export] Instance MetadataV1_indexable : IndexableMetadata MetadataV1.t := {
  GetID := MetadataV1.Id;
  GetDate := MetadataV1.Date;
  GetTags := MetadataV1.Tags;
  GetFilePath := MetadataV1.FilePath
}.

(** [EntryV1] embeds [MetadataV1] inline and adds the content. *)
Module EntryV1.
Record t : Type := mk {
  Meta : MetadataV1.t;
  Content : string
}.
Definition Version (e : t) : Z := MetadataV1.Version (Meta e).
Definition Id (e : t) : string := MetadataV1.Id (Meta e).
Definition Date (e : t) : Time := MetadataV1.Date (Meta e).
Definition Tags (e : t) : list string := MetadataV1.Tags (Meta e).
Definition FilePath (e : t) : string := MetadataV1.FilePath (Meta e).
End EntryV1.

#[export] Instance EntryV1_indexable : IndexableMetadata EntryV1.t := {
  GetID := EntryV1.Id;
  GetDate := EntryV1.Date;
  GetTags := EntryV1.Tags;
  GetFilePath := EntryV1.FilePath
}.

(** [NewEntryV1] creates a V1 entry with the version set. *)
Definition NewEntryV1 (id : string) (date : Time) (content : string)
    (tags : list string) (filepath : string) : EntryV1.t :=
  {| EntryV1.Meta :=
       {| MetadataV1.Version := 1;
          MetadataV1.Id := id;
          MetadataV1.Date := date;
          MetadataV1.Tags := tags;
          MetadataV1.FilePath := filepath |};
     EntryV1.Content := content |}.

(** The [Entry] interface; [EntryV1] is its only implementation. *)
Inductive Entry : Type :=
| V1 (e : EntryV1.t).

Definition GetContent (e : Entry) : string :=
  match e with V1 e => EntryV1.Content e end.
Definition GetVersion (e : Entry) : Z :=
  match e with V1 e => EntryV1.Version e end.

#[export] Instance Entry_indexable : IndexableMetadata Entry := {
  GetID := fun e => match e with V1 e => EntryV1.Id e end;
  GetDate := fun e => match e with V1 e => EntryV1.Date e end;
  GetTags := fun e => match e with V1 e => EntryV1.Tags e end;
  GetFilePath := fun e => match e with V1 e => EntryV1.FilePath e end
}.

(** *** YAML encoding of entries

    The struct tags give the keys: [version], [id], [date],
    [tags,omitempty], [filepath] from the inlined [MetadataV1], then
    [content]. *)

Definition encodeEntryV1 (e : EntryV1.t) : yaml.Document :=
  [("version", yaml.NInt (EntryV1.Version e));
   ("id", yaml.NStr (EntryV1.Id e));
   ("date", yaml.NTime (EntryV1.Date e))]
  ++ yaml.omitemptySeq "tags" (EntryV1.Tags e)
  ++ [("filepath", yaml.NStr (EntryV1.FilePath e));
      ("content", yaml.NStr (EntryV1.Content e))].

Definition decodeEntryV1 (doc : yaml.Document) : result EntryV1.t :=
  match yaml.decodeInt "version" doc with
  | Err e => Err e
  | Ok version =>
  match yaml.decodeStr "id" doc with
  | Err e => Err e
  | Ok id =>
  match yaml.decodeTime "date" doc with
  | Err e => Err e
  | Ok date =>
  match yaml.decodeSeq "tags" doc with
  | Err e => Err e
  | Ok tags =>
  match yaml.decodeStr "filepath" doc with
  | Err e => Err e
  | Ok filepath =>
  match yaml.decodeStr "content" doc with
  | Err e => Err e
  | Ok content =>
      Ok {| EntryV1.Meta :=
              {| MetadataV1.Version := version;
                 MetadataV1.Id := id;
                 MetadataV1.Date := date;
                 MetadataV1.Tags := tags;
                 MetadataV1.FilePath := filepath |};
            EntryV1.Content := content |}
  end end end end end end.

(** [versionDetector] is used to peek at the version field. *)
Record versionDetector : Type := { detectedVersion : Z }.

Definition decodeVersionDetector (doc : yaml.Document) : result versionDetector :=
  match yaml.decodeInt "version" doc with
  | Err e => Err e
  | Ok v => Ok {| detectedVersion := v |}
  end.

Section EntryYaml.
Context `{yaml.TextLayer}.

(** [yaml.Marshal(e)] for an [*EntryV1] *)
Definition MarshalEntryV1 (e : EntryV1.t) : bytes :=
  yaml.emit (encodeEntryV1 e).

(** [yaml.Unmarshal(content, &entry)] *)
Definition UnmarshalEntryV1 (content : bytes) : result EntryV1.t :=
  match yaml.parse content with
  | Err e => Err e
  | Ok doc => decodeEntryV1 doc
  end.

(** [yaml.Unmarshal(content, &detector)] *)
Definition UnmarshalVersionDetector (content : bytes) : result versionDetector :=
  match yaml.parse content with
  | Err e => Err e
  | Ok doc => decodeVersionDetector doc
  end.

(** [e.ToYaml()]: stamps version 1 on the entry, then marshals it.  The
    entry is returned as the receiver is left by the call. *)
Definition ToYaml (e : EntryV1.t) : EntryV1.t * result bytes :=
  let e :=
    {| EntryV1.Meta :=
         {| MetadataV1.Version := 1;
            MetadataV1.Id := EntryV1.Id e;
            MetadataV1.Date := EntryV1.Date e;
            MetadataV1.Tags := EntryV1.Tags e;
            MetadataV1.FilePath := EntryV1.FilePath e |};
       EntryV1.Content := EntryV1.Content e |} in
  (e, Ok (MarshalEntryV1 e)).

(** [ParseYaml(content)] *)
Definition ParseYaml (content : bytes) : result Entry :=
  match UnmarshalVersionDetector content with
  | Err err => Err (wrap "failed to detect version: " err)
  | Ok detector =>
      if detectedVersion detector =? 1 then
        match UnmarshalEntryV1 content with
        | Err err => Err (wrap "failed to parse YAML as V1: " err)
        | Ok entry =>
            if negb (EntryV1.Version entry =? 1) then
              Err (errorString ("failed to parse YAML as V1: invalid version: "
                                +:+ itoa (EntryV1.Version entry)))
            else if String.eqb (EntryV1.Id entry) "" then
              Err (errorString "entry ID is required")
            else if IsZero (EntryV1.Date entry) then
              Err (errorString "entry date is required")
            else Ok (V1 entry)
        end
      else
        Err (errorString ("unsupported entry version: "
                          +:+ itoa (detectedVersion detector)))
  end.

End EntryYaml.

(** *** The index *)

Definition appendUnique (slice : list string) (item : string) : list string :=
  if existsb (String.eqb item) slice then slice else slice ++ [item].

Definition removeString (slice : list string) (item : string) : list string :=
  List.filter (fun s => negb (String.eqb s item)) slice.

(** Reading a map of slices at a missing key gives the nil slice. *)
Definition bucket (m : gmap string (list string)) (k : string) : list string :=
  default [] (m !! k).

Module Index.

Record t : Type := mk {
  Version : string;
  Entries : gmap string Metadata.t;       (* ID -> metadata *)
  ByDate : gmap string (list string);     (* date -> []ID *)
  ByTag : gmap string (list string)       (* tag -> []ID *)
}.

(** [NewIndex] creates a new empty index. *)
Definition NewIndex : t :=
  {| Version := "1.0"; Entries := ∅; ByDate := ∅; ByTag := ∅ |}.

Definition dateKeyOf (d : Time) : string := Format layoutDate d.

(** [idx.Add(meta)] *)
Definition Add {A} `{IndexableMetadata A} (meta : A) (idx : t) : t :=
  let commonMeta :=
    {| Metadata.Id := GetID meta;
       Metadata.Date := GetDate meta;
       Metadata.Tags := GetTags meta;
       Metadata.FilePath := GetFilePath meta |} in
  let entries := <[Metadata.Id commonMeta := commonMeta]> (Entries idx) in
  let dateKey := dateKeyOf (Metadata.Date commonMeta) in
  let byDate :=
    <[dateKey := appendUnique (bucket (ByDate idx) dateKey)
                              (Metadata.Id commonMeta)]> (ByDate idx) in
  let byTag :=
    fold_left
      (fun byTag tag =>
         <[tag := appendUnique (bucket byTag tag) (Metadata.Id commonMeta)]>
           byTag)
      (Metadata.Tags commonMeta) (ByTag idx) in
  {| Version := Version idx; Entries := entries;
     ByDate := byDate; ByTag := byTag |}.

(** Strip [id] from one bucket and delete the bucket when it becomes
    empty. *)
Definition stripBucket (m : gmap string (list string)) (k id : string)
  : gmap string (list string) :=
  let m := <[k := removeString (bucket m k) id]> m in
  if (length (bucket m k) =? 0)%nat then delete k m else m.

(** [idx.Remove(id)] *)
Definition Remove (id : string) (idx : t) : t :=
  match Entries idx !! id with
  | None => idx
  | Some meta =>
      let entries := delete id (Entries idx) in
      let dateKey := dateKeyOf (Metadata.Date meta) in
      let byDate := stripBucket (ByDate idx) dateKey id in
      let byTag :=
        fold_left (fun byTag tag => stripBucket byTag tag id)
                  (Metadata.Tags meta) (ByTag idx) in
      {| Version := Version idx; Entries := entries;
         ByDate := byDate; ByTag := byTag |}
  end.

(** [idx.FindByDate(date)] *)
Definition FindByDate (date : Time) (idx : t) : list string :=
  bucket (ByDate idx) (dateKeyOf date).

(** The inner loop of [FindByDateRange]: append the ids not seen yet. *)
Definition collectUnseen (ids : list string)
    (acc : list string * gmap string bool) : list string * gmap string bool :=
  fold_left
    (fun '(results, seen) id =>
       if default false (seen !! id) then (results, seen)
       else (results ++ [id], <[id := true]> seen))
    ids acc.

(** The outer loop [for d := start; !d.After(end); d = d.AddDate(0, 0, 1)];
    [fuel] bounds the number of iterations. *)
Fixpoint dayLoop (fuel : nat) (idx : t) (d end_ : Time)
    (acc : list string * gmap string bool) : list string :=
  match fuel with
  | O => fst acc
  | S fuel =>
      if After d end_ then fst acc
      else
        let acc := collectUnseen (bucket (ByDate idx) (dateKeyOf d)) acc in
        dayLoop fuel idx (AddDate 0 0 1 d) end_ acc
  end.

(** Each iteration moves [d] one day forward, so the loop body runs at
    most once per whole day between [start] and [end]. *)
Definition dayLoopBound (start end_ : Time) : nat :=
  Z.to_nat ((unixSec end_ - unixSec start) / 86400 + 1).

(** [idx.FindByDateRange(start, end)] *)
Definition FindByDateRange (start end_ : Time) (idx : t) : list string :=
  dayLoop (dayLoopBound start end_) idx start end_ ([], ∅).

(** [idx.FindByTag(tag)] *)
Definition FindByTag (tag : string) (idx : t) : list string :=
  bucket (ByTag idx) tag.

(** The set of ids of a slice, as the map [id -> true] the code builds. *)
Definition markAll (ids : list string) : gmap string bool :=
  fold_left (fun m id => <[id := true]> m) ids ∅.

(** One pass of the filter loop of [FindByTags]: the ids of [results] that
    [tag] does not have are deleted. *)
Definition keepTagged (idx : t) (results : gmap string bool) (tag : string)
  : gmap string bool :=
  let tagIDs := markAll (bucket (ByTag idx) tag) in
  filter (fun kv => default false (tagIDs !! kv.1) = true) results.

(** [idx.FindByTags(tags)]: the ids that have all the tags.  The result is
    read off a Go map, whose iteration order is unspecified; the model lists
    the keys in the map's own order. *)
Definition FindByTags (tags : list string) (idx : t) : list string :=
  match tags with
  | [] => []
  | first :: rest =>
      let results := markAll (bucket (ByTag idx) first) in
      let results := fold_left (keepTagged idx) rest results in
      (map_to_list results).*1
  end.

(** [idx.GetMetadata(id)] *)
Definition GetMetadata (id : string) (idx : t) : option Metadata.t :=
  Entries idx !! id.

End Index.

End models.

(** ** The world: files, injected I/O faults, process id and output

    Directories are not tracked.  [faults n] tells whether the [n]-th system
    call of the run fails with an I/O error; a failed call leaves the files
    as they were. *)

Record World : Type := mkWorld {
  files : gmap string bytes;
  faults : nat -> bool;
  tick : nat;
  pid : Z;
  stdout : list string
}.

Definition setFiles (fs : gmap string bytes) (w : World) : World :=
  {| files := fs; faults := faults w; tick := tick w; pid := pid w;
     stdout := stdout w |}.

Module os.

(** Consume the outcome of the next system call. *)
Definition syscall (w : World) : bool * World :=
  (faults w (tick w),
   {| files := files w; faults := faults w; tick := S (tick w); pid := pid w;
      stdout := stdout w |}).

(** [os.IsNotExist(err)] *)
Definition IsNotExist (e : error) : bool :=
  match e with PathError _ _ notExist => notExist | errorString _ => false end.

(** [os.Stat(name)], keeping only the error. *)
Definition Stat (name : string) (w : World) : World * option error :=
  let '(failed, w) := syscall w in
  match files w !! name with
  | None => (w, Some (PathError "stat" name true))
  | Some _ =>
      if failed then (w, Some (PathError "stat" name false)) else (w, None)
  end.

(** [os.ReadFile(name)] *)
Definition ReadFile (name : string) (w : World) : World * result bytes :=
  let '(failed, w) := syscall w in
  match files w !! name with
  | None => (w, Err (PathError "open" name true))
  | Some data =>
      if failed then (w, Err (PathError "read" name false)) else (w, Ok data)
  end.

(** [os.WriteFile(name, data, perm)] *)
Definition WriteFile (name : string) (data : bytes) (w : World)
  : World * option error :=
  let '(failed, w) := syscall w in
  if failed then (w, Some (PathError "open" name false))
  else (setFiles (<[name := data]> (files w)) w, None).

(** [os.Remove(name)] *)
Definition Remove (name : string) (w : World) : World * option error :=
  let '(failed, w) := syscall w in
  match files w !! name with
  | None => (w, Some (PathError "remove" name true))
  | Some _ =>
      if failed then (w, Some (PathError "remove" name false))
      else (setFiles (delete name (files w)) w, None)
  end.

(** [os.MkdirAll(path, perm)] *)
Definition MkdirAll (path : string) (w : World) : World * option error :=
  let '(failed, w) := syscall w in
  if failed then (w, Some (PathError "mkdir" path false)) else (w, None).

(** [os.Getpid()] *)
Definition Getpid (w : World) : Z := pid w.

End os.

(** [fmt.Printf] to standard output. *)
Definition Printf (line : string) (w : World) : World :=
  {| files := files w; faults := faults w; tick := tick w; pid := pid w;
     stdout := stdout w ++ [line] |}.

Definition nl : string := String (ascii_of_nat 10) "".

(** [fmt.Fprintf(os.Stderr, ...)]: the standard error stream is kept beside
    the world; the write is a system call and may fail. *)
Definition Fprintf_Stderr (line : string) (st : World * list string)
  : World * list string * option error :=
  let '(w, stderr) := st in
  let '(failed, w) := os.syscall w in
  if failed then (w, stderr, Some (PathError "write" "/dev/stderr" false))
  else (w, stderr ++ [line], None).

(** ** [internal/crypto]: the SOPS configuration and encryption *)

Module crypto.

(** [CreationRule] is a single rule in .sops.yaml. *)
Record CreationRule : Type := {
  PathRegex : string;
  Age : string
}.

(** [SOPSConfig] is the .sops.yaml configuration file. *)
Record SOPSConfig : Type := {
  CreationRules : list CreationRule
}.

(** The encryption provider and the YAML form of the configuration, both
    external: parsing an age public key, encrypting marshalled YAML for a
    list of recipients, decrypting a file's bytes with the ambient keys. *)
Class Provider : Type := {
  ParseX25519Recipient : string -> option error;
  sopsEncrypt : list string -> bytes -> result bytes;
  sopsDecrypt : bytes -> result bytes;
  marshalConfig : SOPSConfig -> bytes;
  unmarshalConfig : bytes -> result SOPSConfig
}.

(** [Encryptor] handles encryption and decryption using SOPS. *)
Record Encryptor : Type := {
  journalPath : string;       (* path to the journal directory *)
  recipients : list string    (* age public keys for encryption *)
}.

Definition sopsConfigPath (journalPath : string) : string :=
  filepath.Join [journalPath; ".sops.yaml"].

Section Crypto.
Context `{Provider}.

(** [ValidateRecipient(recipient)] *)
Definition ValidateRecipient (recipient : string) : option error :=
  match ParseX25519Recipient recipient with
  | Some err => Some (wrap "invalid age public key: " err)
  | None => None
  end.

(** The validation loop of [CreateSOPSConfig]. *)
Fixpoint validateAll (recipients : list string) : option error :=
  match recipients with
  | [] => None
  | recipient :: rest =>
      match ValidateRecipient recipient with
      | Some err => Some (wrap ("recipient " +:+ recipient +:+ ": ") err)
      | None => validateAll rest
      end
  end.

(** [CreateSOPSConfig(journalPath, recipients)] *)
Definition CreateSOPSConfig (journalPath : string) (recipients : list string)
    (w : World) : World * option error :=
  if (length recipients =? 0)%nat then
    (w, Some (errorString "no recipients provided"))
  else
    match validateAll recipients with
    | Some err => (w, Some err)
    | None =>
        let config :=
          {| CreationRules :=
               [ {| PathRegex := "index\.yaml$";
                    Age := strings.Join "," recipients |};
                 {| PathRegex := "entries/.*\.yaml$";
                    Age := strings.Join "," recipients |} ] |} in
        let configPath := sopsConfigPath journalPath in
        let data := marshalConfig config in
        match os.WriteFile configPath data w with
        | (w, Some err) => (w, Some (wrap "failed to write .sops.yaml: " err))
        | (w, None) => (w, None)
        end
    end.

(** [ReadSOPSConfig(journalPath)] *)
Definition ReadSOPSConfig (journalPath : string) (w : World)
  : World * result (list string) :=
  let configPath := sopsConfigPath journalPath in
  match os.ReadFile configPath w with
  | (w, Err err) => (w, Err (wrap "failed to read .sops.yaml: " err))
  | (w, Ok data) =>
      match unmarshalConfig data with
      | Err err => (w, Err (wrap "failed to parse .sops.yaml: " err))
      | Ok config =>
          match CreationRules config with
          | [] => (w, Err (errorString "no creation rules found in .sops.yaml"))
          | rule :: _ =>
              let ageRecipients := Age rule in
              if String.eqb ageRecipients "" then
                (w, Err (errorString "no age recipients found in .sops.yaml"))
              else
                (w, Ok (map strings.TrimSpace
                            (strings.Split ","%char ageRecipients)))
          end
      end
  end.

(** The loop [for _, r := range recipients { if r == newRecipient ... }]. *)
Definition hasRecipient (recipients : list string) (recipient : string) : bool :=
  existsb (String.eqb recipient) recipients.

(** The loop that copies every recipient but [recipientToRemove]. *)
Definition withoutRecipient (recipients : list string)
    (recipientToRemove : string) : list string :=
  List.filter (fun r => negb (String.eqb r recipientToRemove)) recipients.

(** [AddRecipient(journalPath, newRecipient)] *)
Definition AddRecipient (journalPath newRecipient : string) (w : World)
  : World * option error :=
  match ReadSOPSConfig journalPath w with
  | (w, Err err) => (w, Some err)
  | (w, Ok recipients) =>
      if hasRecipient recipients newRecipient then
        (w, Some (errorString "recipient already exists"))
      else CreateSOPSConfig journalPath (recipients ++ [newRecipient]) w
  end.

(** [RemoveRecipient(journalPath, recipientToRemove)] *)
Definition RemoveRecipient (journalPath recipientToRemove : string) (w : World)
  : World * option error :=
  match ReadSOPSConfig journalPath w with
  | (w, Err err) => (w, Some err)
  | (w, Ok recipients) =>
      let found := hasRecipient recipients recipientToRemove in
      let newRecipients := withoutRecipient recipients recipientToRemove in
      if negb found then (w, Some (errorString "recipient not found"))
      else if (length newRecipients =? 0)%nat then
        (w, Some (errorString "cannot remove last recipient"))
      else CreateSOPSConfig journalPath newRecipients w
  end.

(** [PrepareAddRecipient(journalPath, newRecipient)]: validates and returns
    the new recipient list; it does not modify .sops.yaml. *)
Definition PrepareAddRecipient (journalPath newRecipient : string) (w : World)
  : World * result (list string) :=
  match ReadSOPSConfig journalPath w with
  | (w, Err err) => (w, Err err)
  | (w, Ok recipients) =>
      match ValidateRecipient newRecipient with
      | Some err => (w, Err err)
      | None =>
          if hasRecipient recipients newRecipient then
            (w, Err (errorString "recipient already exists"))
          else (w, Ok (recipients ++ [newRecipient]))
      end
  end.

(** [PrepareRemoveRecipient(journalPath, recipientToRemove)] *)
Definition PrepareRemoveRecipient (journalPath recipientToRemove : string)
    (w : World) : World * result (list string) :=
  match ReadSOPSConfig journalPath w with
  | (w, Err err) => (w, Err err)
  | (w, Ok recipients) =>
      let found := hasRecipient recipients recipientToRemove in
      let newRecipients := withoutRecipient recipients recipientToRemove in
      if negb found then (w, Err (errorString "recipient not found"))
      else if (length newRecipients =? 0)%nat then
        (w, Err (errorString "cannot remove last recipient"))
      else (w, Ok newRecipients)
  end.

(** [NewEncryptor(journalPath)] *)
Definition NewEncryptor (journalPath : string) (w : World)
  : World * result Encryptor :=
  match ReadSOPSConfig journalPath w with
  | (w, Err err) => (w, Err (wrap "failed to read SOPS config: " err))
  | (w, Ok recipients) =>
      (w, Ok {| journalPath := journalPath; recipients := recipients |})
  end.

(** [e.createKeyGroups()], keeping the recipients that form the key group. *)
Fixpoint keyGroupOf (recipients : list string) : result (list string) :=
  match recipients with
  | [] => Ok []
  | recipient :: rest =>
      match ParseX25519Recipient recipient with
      | Some err =>
          Err (wrap ("invalid age recipient " +:+ recipient +:+ ": ") err)
      | None =>
          match keyGroupOf rest with
          | Err err => Err err
          | Ok keyGroup => Ok (recipient :: keyGroup)
          end
      end
  end.

Definition createKeyGroups (e : Encryptor) : result (list string) :=
  match keyGroupOf (recipients e) with
  | Err err => Err err
  | Ok [] => Err (errorString "no valid recipients found")
  | Ok keyGroup => Ok keyGroup
  end.

(** [e.EncryptYAMLInMemory(data, filePath)], with [data] given by its
    [yaml.Marshal] output: only the encrypted result is written. *)
Definition EncryptYAMLInMemory (e : Encryptor) (yamlData : bytes)
    (filePath : string) (w : World) : World * option error :=
  match createKeyGroups e with
  | Err err => (w, Some (wrap "failed to create key groups: " err))
  | Ok keyGroups =>
      match sopsEncrypt keyGroups yamlData with
      | Err err => (w, Some (wrap "failed to encrypt tree: " err))
      | Ok encryptedData =>
          match os.WriteFile filePath encryptedData w with
          | (w, Some err) =>
              (w, Some (wrap "failed to write encrypted file: " err))
          | (w, None) => (w, None)
          end
      end
  end.

(** [e.DecryptFile(filePath)] *)
Definition DecryptFile (e : Encryptor) (filePath : string) (w : World)
  : World * result bytes :=
  match os.ReadFile filePath w with
  | (w, Err err) => (w, Err (wrap "failed to decrypt file: " err))
  | (w, Ok data) =>
      match sopsDecrypt data with
      | Err err => (w, Err (wrap "failed to decrypt file: " err))
      | Ok cleartext => (w, Ok cleartext)
      end
  end.

(** [BackupSOPSConfig(journalPath)] *)
Definition BackupSOPSConfig (journalPath : string) (w : World)
  : World * result string :=
  let configPath := sopsConfigPath journalPath in
  match os.Stat configPath w with
  | (w, Some err) => (w, Err (wrap "failed to stat .sops.yaml: " err))
  | (w, None) =>
      let timestamp := itoa (os.Getpid w) in
      let backupPath :=
        filepath.Join [journalPath; ".sops.yaml.backup." +:+ timestamp] in
      match os.ReadFile configPath w with
      | (w, Err err) => (w, Err (wrap "failed to read .sops.yaml: " err))
      | (w, Ok data) =>
          match os.WriteFile backupPath data w with
          | (w, Some err) => (w, Err (wrap "failed to write backup: " err))
          | (w, None) => (w, Ok backupPath)
          end
      end
  end.

(** [RestoreSOPSConfig(journalPath, backupPath)] *)
Definition RestoreSOPSConfig (journalPath backupPath : string) (w : World)
  : World * option error :=
  let configPath := sopsConfigPath journalPath in
  match os.Stat backupPath w with
  | (w, Some err) => (w, Some (wrap "backup file not found: " err))
  | (w, None) =>
      match os.ReadFile backupPath w with
      | (w, Err err) => (w, Some (wrap "failed to read backup: " err))
      | (w, Ok data) =>
          match os.WriteFile configPath data w with
          | (w, Some err) =>
              (w, Some (wrap "failed to restore .sops.yaml: " err))
          | (w, None) =>
              match os.Remove backupPath w with
              | (w, Some err) => (w, Some (wrap "failed to remove backup: " err))
              | (w, None) => (w, None)
              end
          end
      end
  end.

(** [RemoveBackup(backupPath)] *)
Definition RemoveBackup (backupPath : string) (w : World)
  : World * option error :=
  match os.Remove backupPath w with
  | (w, Some err) => (w, Some (wrap "failed to remove backup: " err))
  | (w, None) => (w, None)
  end.

End Crypto.

(** *** The re-encryption transaction *)

(** [FileError] tracks individual file encryption failures. *)
Module FileError.
Record t : Type := mk {
  FilePath : string;
  Error : error
}.
End FileError.

(** [ReEncryptResult] tracks the outcome of re-encryption. *)
Module ReEncryptResult.
Record t : Type := mk {
  TotalFiles : Z;
  SuccessfulFiles : Z;
  FailedFiles : list FileError.t;
  IndexSuccess : bool;
  IndexError : option error
}.
End ReEncryptResult.
Import ReEncryptResult.

(** The [%v] verb on an error that may be nil. *)
Definition showError (e : option error) : string :=
  match e with Some e => Error e | None => "<nil>" end.

(** [r.FormatErrors()] *)
Definition FormatErrors (r : ReEncryptResult.t) : string :=
  "Total files: " +:+ itoa (TotalFiles r) +:+ nl
  +:+ "Successful: " +:+ itoa (SuccessfulFiles r) +:+ nl
  +:+ "Failed: " +:+ itoa (Z.of_nat (length (FailedFiles r))) +:+ nl
  +:+ (if negb (IndexSuccess r)
       then "Index encryption: FAILED - " +:+ showError (IndexError r) +:+ nl
       else "Index encryption: SUCCESS" +:+ nl)
  +:+ (if (0 <? Z.of_nat (length (FailedFiles r)))
       then nl +:+ "Failed files:" +:+ nl
            +:+ fold_right
                  (fun fe acc =>
                     "  - " +:+ FileError.FilePath fe +:+ ": "
                     +:+ Error (FileError.Error fe) +:+ nl +:+ acc)
                  "" (FailedFiles r)
       else "").

Definition setTotalFiles (n : Z) (r : ReEncryptResult.t) : ReEncryptResult.t :=
  {| TotalFiles := n; SuccessfulFiles := SuccessfulFiles r;
     FailedFiles := FailedFiles r; IndexSuccess := IndexSuccess r;
     IndexError := IndexError r |}.

Definition setIndex (ok : bool) (err : option error) (r : ReEncryptResult.t)
  : ReEncryptResult.t :=
  {| TotalFiles := TotalFiles r; SuccessfulFiles := SuccessfulFiles r;
     FailedFiles := FailedFiles r; IndexSuccess := ok; IndexError := err |}.

(** One iteration of step 4: a failure is appended to [FailedFiles], a
    success is counted. *)
Definition reEncryptOne (reEncryptEntryFunc : string -> World -> World * option error)
    (acc : World * ReEncryptResult.t) (filePath : string)
  : World * ReEncryptResult.t :=
  let '(w, result) := acc in
  match reEncryptEntryFunc filePath w with
  | (w, Some err) =>
      (w, {| TotalFiles := TotalFiles result;
             SuccessfulFiles := SuccessfulFiles result;
             FailedFiles :=
               FailedFiles result
               ++ [ {| FileError.FilePath := filePath; FileError.Error := err |} ];
             IndexSuccess := IndexSuccess result;
             IndexError := IndexError result |})
  | (w, None) =>
      (w, {| TotalFiles := TotalFiles result;
             SuccessfulFiles := SuccessfulFiles result + 1;
             FailedFiles := FailedFiles result;
             IndexSuccess := IndexSuccess result;
             IndexError := IndexError result |})
  end.

(** Step 4: [for _, filePath := range files]. *)
Definition reEncryptEntries
    (reEncryptEntryFunc : string -> World -> World * option error)
    (files : list string) (w : World) (result : ReEncryptResult.t)
  : World * ReEncryptResult.t :=
  fold_left (reEncryptOne reEncryptEntryFunc) files (w, result).

Section Transaction.
Context `{Provider}.

(** [TransactionalReEncrypt(journalPath, newRecipients, listEntriesFunc,
    reEncryptEntryFunc, reEncryptIndexFunc)]; the callbacks act on the
    world. *)
Definition TransactionalReEncrypt
    (journalPath : string) (newRecipients : list string)
    (listEntriesFunc : World -> World * result (list string))
    (reEncryptEntryFunc : string -> World -> World * option error)
    (reEncryptIndexFunc : World -> World * option error)
    (w : World) : World * ReEncryptResult.t * option error :=
  let result :=
    {| TotalFiles := 0; SuccessfulFiles := 0; FailedFiles := [];
       IndexSuccess := false; IndexError := None |} in
  (* Step 1: create backup of .sops.yaml *)
  match BackupSOPSConfig journalPath w with
  | (w, Err err) => (w, result, Some (wrap "failed to backup .sops.yaml: " err))
  | (w, Ok backupPath) =>
  (* Step 2: update .sops.yaml with new recipients *)
  match CreateSOPSConfig journalPath newRecipients w with
  | (w, Some err) =>
      match RestoreSOPSConfig journalPath backupPath w with
      | (w, Some rerr) =>
          (w, result,
           Some (errorString ("failed to update .sops.yaml: " +:+ Error err
                              +:+ " (rollback also failed: " +:+ Error rerr
                              +:+ ")")))
      | (w, None) => (w, result, Some (wrap "failed to update .sops.yaml: " err))
      end
  | (w, None) =>
  (* Step 3: list all entry files *)
  match listEntriesFunc w with
  | (w, Err err) =>
      match RestoreSOPSConfig journalPath backupPath w with
      | (w, Some rerr) =>
          (w, result,
           Some (errorString ("failed to list entries: " +:+ Error err
                              +:+ " (rollback also failed: " +:+ Error rerr
                              +:+ ")")))
      | (w, None) => (w, result, Some (wrap "failed to list entries: " err))
      end
  | (w, Ok files) =>
      let result := setTotalFiles (Z.of_nat (length files)) result in
      (* Step 4: re-encrypt all entries, continuing through failures *)
      let '(w, result) := reEncryptEntries reEncryptEntryFunc files w result in
      (* Step 5: re-encrypt index *)
      let '(w, result) :=
        match reEncryptIndexFunc w with
        | (w, Some err) => (w, setIndex false (Some err) result)
        | (w, None) => (w, setIndex true (IndexError result) result)
        end in
      (* Step 6: check if all operations succeeded *)
      if (0 <? Z.of_nat (length (FailedFiles result)))
         || negb (IndexSuccess result)
      then
        match RestoreSOPSConfig journalPath backupPath w with
        | (w, Some err) =>
            (w, result,
             Some (errorString
                     ("re-encryption failed AND rollback failed: "
                      +:+ Error err +:+ nl +:+ "Original error: "
                      +:+ FormatErrors result)))
        | (w, None) =>
            (w, result,
             Some (errorString "re-encryption failed, rolled back .sops.yaml"))
        end
      else
        (* Step 7: success, remove backup *)
        match RemoveBackup backupPath w with
        | (w, Some err) =>
            (Printf ("Warning: failed to remove backup file " +:+ backupPath
                     +:+ ": " +:+ Error err +:+ nl) w,
             result, None)
        | (w, None) => (w, result, None)
        end
  end end end.

End Transaction.

End crypto.

(** ** [internal/storage]: encrypted files on disk *)

Module storage.
Import models.

Definition IndexFileName : string := "index.yaml".
Definition EntriesDir : string := "entries".

(** [Storage] handles file system operations using SOPS encryption. *)
Record Storage : Type := {
  basePath : string;
  encryptor : crypto.Encryptor
}.

(** The YAML form of the index, through the external YAML library. *)
Class IndexCodec : Type := {
  marshalIndex : Index.t -> bytes;
  unmarshalIndex : bytes -> result Index.t
}.

(** [s.GetEntryPath(date, id)]: the relative path for an entry file. *)
Definition GetEntryPath (s : Storage) (date : Time) (id : string) : string :=
  let year := Format layoutYear date in
  let month := Format layoutMonth date in
  let filename := id +:+ ".yaml" in
  filepath.Join [year; month; filename].

Section Storage.
Context `{yaml.TextLayer} `{crypto.Provider} `{IndexCodec}.

(** [NewStorage(basePath)] *)
Definition NewStorage (basePath : string) (w : World) : World * result Storage :=
  match crypto.NewEncryptor basePath w with
  | (w, Err err) => (w, Err (wrap "failed to create SOPS encryptor: " err))
  | (w, Ok encryptor) =>
      (w, Ok {| basePath := basePath; encryptor := encryptor |})
  end.

(** [s.Initialize()] *)
Definition Initialize (s : Storage) (w : World) : World * option error :=
  let entriesPath := filepath.Join [basePath s; EntriesDir] in
  match os.MkdirAll entriesPath w with
  | (w, Some err) => (w, Some (wrap "failed to create entries directory: " err))
  | (w, None) =>
      let sopsConfigPath := filepath.Join [basePath s; ".sops.yaml"] in
      match os.Stat sopsConfigPath w with
      | (w, Some err) =>
          if os.IsNotExist err then
            (w, Some (errorString
                        (".sops.yaml not found in " +:+ basePath s
                         +:+ " - please initialize journal with recipients first")))
          else (w, None)
      | (w, None) => (w, None)
      end
  end.

(** [yaml.Marshal(entry)] through the [Entry] interface. *)
Definition MarshalEntry (entry : Entry) : bytes :=
  match entry with V1 e => MarshalEntryV1 e end.

(** [s.SaveEntry(entry)] *)
Definition SaveEntry (s : Storage) (entry : Entry) (w : World)
  : World * option error :=
  let year := Format layoutYear (GetDate entry) in
  let month := Format layoutMonth (GetDate entry) in
  let dirPath := filepath.Join [basePath s; EntriesDir; year; month] in
  match os.MkdirAll dirPath w with
  | (w, Some err) => (w, Some (wrap "failed to create directory: " err))
  | (w, None) =>
      let filename := GetID entry +:+ ".yaml" in
      let filePath := filepath.Join [dirPath; filename] in
      match crypto.EncryptYAMLInMemory (encryptor s) (MarshalEntry entry)
                                       filePath w with
      | (w, Some err) => (w, Some (wrap "failed to encrypt and save entry: " err))
      | (w, None) => (w, None)
      end
  end.

(** [s.LoadEntry(id, relFilePath)] *)
Definition LoadEntry (s : Storage) (id relFilePath : string) (w : World)
  : World * result Entry :=
  let fullPath := filepath.Join [basePath s; EntriesDir; relFilePath] in
  match crypto.DecryptFile (encryptor s) fullPath w with
  | (w, Err err) => (w, Err (wrap "failed to decrypt entry: " err))
  | (w, Ok decryptedData) =>
      match ParseYaml decryptedData with
      | Err err => (w, Err (wrap "failed to parse entry: " err))
      | Ok entry => (w, Ok entry)
      end
  end.

(** [s.DeleteEntry(relFilePath)] *)
Definition DeleteEntry (s : Storage) (relFilePath : string) (w : World)
  : World * option error :=
  let fullPath := filepath.Join [basePath s; EntriesDir; relFilePath] in
  match os.Remove fullPath w with
  | (w, Some err) => (w, Some (wrap "failed to delete entry file: " err))
  | (w, None) => (w, None)
  end.

Definition indexPathOf (s : Storage) : string :=
  filepath.Join [basePath s; IndexFileName].

(** [s.SaveIndex(index)] *)
Definition SaveIndex (s : Storage) (index : Index.t) (w : World)
  : World * option error :=
  let indexPath := indexPathOf s in
  match crypto.EncryptYAMLInMemory (encryptor s) (marshalIndex index)
                                   indexPath w with
  | (w, Some err) => (w, Some (wrap "failed to encrypt and save index: " err))
  | (w, None) => (w, None)
  end.

(** [e.DecryptYAML(filePath, &index)] *)
Definition DecryptYAMLIndex (e : crypto.Encryptor) (filePath : string)
    (w : World) : World * result Index.t :=
  match crypto.DecryptFile e filePath w with
  | (w, Err err) => (w, Err err)
  | (w, Ok decrypted) =>
      match unmarshalIndex decrypted with
      | Err err => (w, Err (wrap "failed to unmarshal YAML: " err))
      | Ok index => (w, Ok index)
      end
  end.

(** [s.LoadIndex()] *)
Definition LoadIndex (s : Storage) (w : World) : World * result Index.t :=
  let indexPath := indexPathOf s in
  let '(w, statErr) := os.Stat indexPath w in
  if match statErr with Some err => os.IsNotExist err | None => false end then
    (* Return new empty index *)
    (w, Ok Index.NewIndex)
  else
    match DecryptYAMLIndex (encryptor s) indexPath w with
    | (w, Err err) => (w, Err (wrap "failed to decrypt and parse index: " err))
    | (w, Ok index) => (w, Ok index)
    end.

End Storage.

End storage.

(** ** [internal/config] *)

Module config.
Record Journal : Type := {
  Name : string;
  Path : string
}.
End config.

(** ** [internal/entry]: the journal *)

Module entry.
Import models.

(** [Journal] is the main entry point for journal operations. *)
Record Journal : Type := {
  config : config.Journal;
  storage : storage.Storage;
  index : Index.t
}.

Definition setIndex (index : Index.t) (j : Journal) : Journal :=
  {| config := config j; storage := storage j; index := index |}.

Section Journal.
Context `{yaml.TextLayer} `{crypto.Provider} `{storage.IndexCodec}.

(** [NewJournalFromConfig(cfg)] *)
Definition NewJournalFromConfig (cfg : config.Journal) (w : World)
  : World * result Journal :=
  match storage.NewStorage (config.Path cfg) w with
  | (w, Err err) => (w, Err (wrap "failed to create storage: " err))
  | (w, Ok store) =>
      match storage.Initialize store w with
      | (w, Some err) => (w, Err (wrap "failed to initialize storage: " err))
      | (w, None) =>
          match storage.LoadIndex store w with
          | (w, Err err) => (w, Err (wrap "failed to load index: " err))
          | (w, Ok index) =>
              (w, Ok {| config := cfg; storage := store; index := index |})
          end
      end
  end.

(** [j.Add(content, tags)]; [id] is the string of [uuid.New()] and [now]
    the value of [time.Now()] drawn by the call. *)
Definition Add (id : string) (now : Time) (content : string)
    (tags : list string) (j : Journal) (w : World)
  : World * Journal * result Entry :=
  let entry := NewEntryV1 id now content tags "" in
  let entry :=
    {| EntryV1.Meta :=
         {| MetadataV1.Version := EntryV1.Version entry;
            MetadataV1.Id := EntryV1.Id entry;
            MetadataV1.Date := EntryV1.Date entry;
            MetadataV1.Tags := EntryV1.Tags entry;
            MetadataV1.FilePath :=
              storage.GetEntryPath (storage j) (GetDate entry) (GetID entry) |};
       EntryV1.Content := EntryV1.Content entry |} in
  match storage.SaveEntry (storage j) (V1 entry) w with
  | (w, Some err) => (w, j, Err (wrap "failed to save entry: " err))
  | (w, None) =>
      let j := setIndex (Index.Add (EntryV1.Meta entry) (index j)) j in
      match storage.SaveIndex (storage j) (index j) w with
      | (w, Some err) => (w, j, Err (wrap "failed to save index: " err))
      | (w, None) => (w, j, Ok (V1 entry))
      end
  end.

(** [j.Get(id)] *)
Definition Get (id : string) (j : Journal) (w : World) : World * result Entry :=
  match Index.GetMetadata id (index j) with
  | None => (w, Err (errorString ("entry not found: " +:+ id)))
  | Some meta =>
      match storage.LoadEntry (storage j) id (Metadata.FilePath meta) w with
      | (w, Err err) => (w, Err (wrap "failed to load entry: " err))
      | (w, Ok entry) => (w, Ok entry)
      end
  end.

(** [j.Delete(id)] *)
Definition Delete (id : string) (j : Journal) (w : World)
  : World * Journal * option error :=
  match Index.GetMetadata id (index j) with
  | None => (w, j, Some (errorString ("entry not found: " +:+ id)))
  | Some meta =>
      match storage.DeleteEntry (storage j) (Metadata.FilePath meta) w with
      | (w, Some err) => (w, j, Some (wrap "failed to delete entry: " err))
      | (w, None) =>
          let j := setIndex (Index.Remove id (index j)) j in
          match storage.SaveIndex (storage j) (index j) w with
          | (w, Some err) => (w, j, Some (wrap "failed to save index: " err))
          | (w, None) => (w, j, None)
          end
      end
  end.

(** [j.Update(id, content, tags)]; the type assertion to [*EntryV1] cannot
    fail, [EntryV1] being the only implementation of [Entry]. *)
Definition Update (id : string) (content : string) (tags : list string)
    (j : Journal) (w : World) : World * Journal * result Entry :=
  match Index.GetMetadata id (index j) with
  | None => (w, j, Err (errorString ("entry not found: " +:+ id)))
  | Some meta =>
      match storage.LoadEntry (storage j) id (Metadata.FilePath meta) w with
      | (w, Err err) => (w, j, Err (wrap "failed to load entry: " err))
      | (w, Ok (V1 entryV1)) =>
          let entryV1 :=
            {| EntryV1.Meta :=
                 {| MetadataV1.Version := EntryV1.Version entryV1;
                    MetadataV1.Id := EntryV1.Id entryV1;
                    MetadataV1.Date := EntryV1.Date entryV1;
                    MetadataV1.Tags := tags;
                    MetadataV1.FilePath := EntryV1.FilePath entryV1 |};
               EntryV1.Content := content |} in
          match storage.SaveEntry (storage j) (V1 entryV1) w with
          | (w, Some err) => (w, j, Err (wrap "failed to save entry: " err))
          | (w, None) =>
              (* Update index *)
              let j := setIndex (Index.Remove id (index j)) j in
              let j := setIndex (Index.Add (EntryV1.Meta entryV1) (index j)) j in
              match storage.SaveIndex (storage j) (index j) w with
              | (w, Some err) => (w, j, Err (wrap "failed to save index: " err))
              | (w, None) => (w, j, Ok (V1 entryV1))
              end
          end
      end
  end.

(** The order [sort.Slice] is asked for: [a] may stand before [b] unless
    [b] is after [a]. *)
Definition newestFirst (a b : Metadata.t) : Prop :=
  After (Metadata.Date b) (Metadata.Date a) = false.

#[global] Instance newestFirst_dec (a b : Metadata.t)
  : Decision (newestFirst a b) :=
  bool_eq_dec (After (Metadata.Date b) (Metadata.Date a)) false.

(** [j.ListAll()]: the metadata of all entries, newest first.  The entries
    are read off a Go map and sorted by [sort.Slice], which leaves the
    order of entries of equal date unspecified; the model reads the map in
    its own order and sorts by merging. *)
Definition ListAll (j : Journal) : list Metadata.t :=
  merge_sort newestFirst (map_to_list (Index.Entries (index j))).*2.

(** One pass of the loading loops of [loadEntries] and [ListRecent]: a
    record that does not load is noted and skipped. *)
Definition loadInto (j : Journal) (id relFilePath : string)
    (acc : World * list Entry * list error)
  : World * list Entry * list error :=
  let '(w, entries, loadErrors) := acc in
  match storage.LoadEntry (storage j) id relFilePath w with
  | (w, Err err) =>
      (w, entries,
       loadErrors ++ [wrap ("failed to load entry " +:+ id +:+ ": ") err])
  | (w, Ok entry) => (w, entries ++ [entry], loadErrors)
  end.

(** Log warnings for failed entries to stderr. *)
Fixpoint warnAll (loadErrors : list error) (st : World * list string)
  : World * list string * option error :=
  match loadErrors with
  | [] => (st, None)
  | err :: rest =>
      match Fprintf_Stderr ("Warning: " +:+ Error err +:+ nl) st with
      | (st, Some ferr) => (st, Some ferr)
      | (st, None) => warnAll rest st
      end
  end.

(** The order [sort.Slice] is asked for on entries. *)
Definition newestEntryFirst (a b : Entry) : Prop :=
  After (GetDate b) (GetDate a) = false.

#[global] Instance newestEntryFirst_dec (a b : Entry)
  : Decision (newestEntryFirst a b) :=
  bool_eq_dec (After (GetDate b) (GetDate a)) false.

(** [j.loadEntries(ids)]: ids that are not indexed are passed over, the
    records that load are sorted newest first (as for [ListAll], the model
    sorts by merging). *)
Definition loadEntries (ids : list string) (j : Journal)
    (st : World * list string) : World * list string * result (list Entry) :=
  let '(w, stderr) := st in
  let '(w, entries, loadErrors) :=
    fold_left
      (fun acc id =>
         match Index.GetMetadata id (index j) with
         | None => acc
         | Some meta => loadInto j id (Metadata.FilePath meta) acc
         end)
      ids (w, [], []) in
  match warnAll loadErrors (w, stderr) with
  | (st, Some ferr) => (st, Err ferr)
  | (st, None) => (st, Ok (merge_sort newestEntryFirst entries))
  end.

(** [j.SearchByDate(date)] *)
Definition SearchByDate (date : Time) (j : Journal) (st : World * list string)
  : World * list string * result (list Entry) :=
  let ids := Index.FindByDate date (index j) in
  loadEntries ids j st.

(** [j.SearchByDateRange(start, end)] *)
Definition SearchByDateRange (start end_ : Time) (j : Journal)
    (st : World * list string) : World * list string * result (list Entry) :=
  let ids := Index.FindByDateRange start end_ (index j) in
  loadEntries ids j st.

(** [j.SearchByTag(tag)] *)
Definition SearchByTag (tag : string) (j : Journal) (st : World * list string)
  : World * list string * result (list Entry) :=
  let ids := Index.FindByTag tag (index j) in
  loadEntries ids j st.

(** [j.SearchByTags(tags)] *)
Definition SearchByTags (tags : list string) (j : Journal)
    (st : World * list string) : World * list string * result (list Entry) :=
  let ids := Index.FindByTags tags (index j) in
  loadEntries ids j st.


(** [InitializeJournal(cfg, recipients)] *)
Definition InitializeJournal (cfg : config.Journal) (recipients : list string)
    (w : World) : World * option error :=
  match os.MkdirAll (config.Path cfg) w with
  | (w, Some err) => (w, Some (wrap "failed to create journal directory: " err))
  | (w, None) =>
      match crypto.CreateSOPSConfig (config.Path cfg) recipients w with
      | (w, Some err) => (w, Some (wrap "failed to create SOPS config: " err))
      | (w, None) =>
          match storage.NewStorage (config.Path cfg) w with
          | (w, Err err) => (w, Some (wrap "failed to create storage: " err))
          | (w, Ok store) =>
              match storage.Initialize store w with
              | (w, Some err) =>
                  (w, Some (wrap "failed to initialize storage: " err))
              | (w, None) =>
                  match storage.SaveIndex store Index.NewIndex w with
                  | (w, Some err) =>
                      (w, Some (wrap "failed to save initial index: " err))
                  | (w, None) => (w, None)
                  end
              end
          end
      end
  end.

End Journal.

End entry.

(** ** A reference instance of the external collaborators

    Used to run the model on concrete stores: the YAML text layer and the
    codecs write a value as the bits of its code in stdpp's [Countable]
    enumeration, encryption is the identity, and a recipient is accepted
    when it starts with "age1". *)

Module Reference.
Import models.

Fixpoint bytesOfPositive (p : positive) : bytes :=
  match p with
  | xH => []
  | xO p => Byte.x00 :: bytesOfPositive p
  | xI p => Byte.x01 :: bytesOfPositive p
  end.

Fixpoint positiveOfBytes (b : bytes) : option positive :=
  match b with
  | [] => Some xH
  | Byte.x00 :: b => xO <$> positiveOfBytes b
  | Byte.x01 :: b => xI <$> positiveOfBytes b
  | _ => None
  end.

Definition toBytes {A} `{Countable A} (a : A) : bytes :=
  bytesOfPositive (encode a).

Definition ofBytes {A} `{Countable A} (b : bytes) : result A :=
  match positiveOfBytes b ≫= decode with
  | Some a => Ok a
  | None => Err (errorString "yaml: invalid document")
  end.

#[export] Instance Time_eq_dec : EqDecision Time.
Proof. solve_decision. Defined.

#[export] Instance Time_countable : Countable Time.
Proof.
  refine (inj_countable'
            (fun t => (unixSec t, nsec t, zoneOffset t))
            (fun '(s, n, o) => mkTime s n o) _).
  intros []; reflexivity.
Defined.

#[export] Instance Node_eq_dec : EqDecision yaml.Node.
Proof. solve_decision. Defined.

#[export] Instance Node_countable : Countable yaml.Node.
Proof.
  refine (inj_countable'
            (fun n => match n with
                      | yaml.NInt z => inl (inl z)
                      | yaml.NStr s => inl (inr s)
                      | yaml.NTime t => inr (inl t)
                      | yaml.NSeq l => inr (inr l)
                      end)
            (fun x => match x with
                      | inl (inl z) => yaml.NInt z
                      | inl (inr s) => yaml.NStr s
                      | inr (inl t) => yaml.NTime t
                      | inr (inr l) => yaml.NSeq l
                      end) _).
  intros []; reflexivity.
Defined.

#[export] Instance Metadata_eq_dec : EqDecision Metadata.t.
Proof. solve_decision. Defined.

#[export] Instance Metadata_countable : Countable Metadata.t.
Proof.
  refine (inj_countable'
            (fun m => (Metadata.Id m, Metadata.Date m, Metadata.Tags m,
                       Metadata.FilePath m))
            (fun '(i, d, t, f) => Metadata.mk i d t f) _).
  intros []; reflexivity.
Defined.

#[export] Instance Index_eq_dec : EqDecision Index.t.
Proof. solve_decision. Defined.

#[export] Instance Index_countable : Countable Index.t.
Proof.
  refine (inj_countable'
            (fun i => (Index.Version i, Index.Entries i, Index.ByDate i,
                       Index.ByTag i))
            (fun '(v, e, d, t) => Index.mk v e d t) _).
  intros []; reflexivity.
Defined.

#[export] Instance CreationRule_eq_dec : EqDecision crypto.CreationRule.
Proof. solve_decision. Defined.

#[export] Instance SOPSConfig_eq_dec : EqDecision crypto.SOPSConfig.
Proof. solve_decision. Defined.

#[export] Instance SOPSConfig_countable : Countable crypto.SOPSConfig.
Proof.
  refine (inj_countable'
            (fun c => map (fun r => (crypto.PathRegex r, crypto.Age r))
                          (crypto.CreationRules c))
            (fun l => crypto.Build_SOPSConfig
                        (map (fun '(p, a) => crypto.Build_CreationRule p a) l))
            _).
  intros [rules]; f_equal. simpl.
  induction rules as [|[] rules IH]; simpl; [reflexivity | by rewrite IH].
Defined.

#[export] Instance textLayer : yaml.TextLayer := {
  yaml.emit := toBytes;
  yaml.parse := ofBytes
}.

#[export] Instance provider : crypto.Provider := {
  crypto.ParseX25519Recipient := fun r =>
    if String.prefix "age1" r then None
    else Some (errorString "malformed recipient");
  crypto.sopsEncrypt := fun _ data => Ok data;
  crypto.sopsDecrypt := fun data => Ok data;
  crypto.marshalConfig := toBytes;
  crypto.unmarshalConfig := ofBytes
}.

#[export] Instance indexCodec : storage.IndexCodec := {
  storage.marshalIndex := toBytes;
  storage.unmarshalIndex := ofBytes
}.

End Reference.

(** * The vocabulary of the specification *)

Import models.

(** ** Times *)

(** A [Time] as Go builds them: the nanoseconds stay within the second. *)
Definition wfTime (t : Time) : Prop := 0 <= nsec t < 1000000000.

(** What [civil_from_days] relies on, for one day of a 400-year era. *)
Definition eraDayOk (doe : Z) : bool :=
  let yoe := (doe - doe / 1460 + doe / 36524 - doe / 146096) / 365 in
  let doy := doe - (365 * yoe + yoe / 4 - yoe / 100) in
  let mp := (5 * doy + 2) / 153 in
  (0 <=? yoe) && (yoe <=? 399) && (0 <=? doy) && (mp <=? 11).

(** [p] holds of the [n] numbers from [k] on. *)
Fixpoint allFrom (n : nat) (k : Z) (p : Z -> bool) : bool :=
  match n with
  | O => true
  | S n => p k && allFrom n (k + 1) p
  end.

(** ** Decoding errors *)



(** A valid record: version 1, an id, a date. *)
Definition validRecord (r : EntryV1.t) : Prop :=
  EntryV1.Version r = 1 /\ EntryV1.Id r <> "" /\ IsZero (EntryV1.Date r) = false.

(** ** The index as a grouping of its primary map *)

Definition noEmpty (m : gmap string (list string)) : Prop :=
  forall k l, m !! k = Some l -> l <> [].

(** The secondary maps are exactly the grouping of [Entries] by day and by
    tag: no stale id, no missing id, no empty bucket, no id twice. *)
Record grouped (idx : Index.t) : Prop := {
  byDate_exact : forall k id,
    id ∈ bucket (Index.ByDate idx) k <->
    exists m, Index.Entries idx !! id = Some m
              /\ Index.dateKeyOf (Metadata.Date m) = k;
  byTag_exact : forall t id,
    id ∈ bucket (Index.ByTag idx) t <->
    exists m, Index.Entries idx !! id = Some m /\ t ∈ Metadata.Tags m;
  byDate_nonempty : noEmpty (Index.ByDate idx);
  byTag_nonempty : noEmpty (Index.ByTag idx);
  byDate_nodup : forall k, NoDup (bucket (Index.ByDate idx) k);
  byTag_nodup : forall t, NoDup (bucket (Index.ByTag idx) t)
}.

Inductive op : Type :=
| OpAdd (meta : MetadataV1.t)
| OpRemove (id : string).

Definition applyOp (o : op) (idx : Index.t) : Index.t :=
  match o with
  | OpAdd meta => Index.Add meta idx
  | OpRemove id => Index.Remove id idx
  end.

(** The index after each operation of a sequence. *)
Fixpoint states (ops : list op) (idx : Index.t) : list Index.t :=
  match ops with
  | [] => []
  | o :: ops => applyOp o idx :: states ops (applyOp o idx)
  end.

(** An [Add] of an id that is indexed already keeps its day and its set of
    tags: a caller that changes them removes the entry first. *)
Definition keepsKeys (meta : MetadataV1.t) (idx : Index.t) : Prop :=
  match Index.Entries idx !! MetadataV1.Id meta with
  | None => True
  | Some old =>
      Index.dateKeyOf (Metadata.Date old) = Index.dateKeyOf (MetadataV1.Date meta)
      /\ (forall t, t ∈ Metadata.Tags old <-> t ∈ MetadataV1.Tags meta)
  end.

Fixpoint admissible (ops : list op) (idx : Index.t) : Prop :=
  match ops with
  | [] => True
  | o :: ops =>
      match o with OpAdd meta => keepsKeys meta idx | OpRemove _ => True end
      /\ admissible ops (applyOp o idx)
  end.

(** The tag loops of [Add] and [Remove]. *)
Definition addTags (id : string) (tags : list string)
    (byTag : gmap string (list string)) : gmap string (list string) :=
  fold_left
    (fun byTag tag => <[tag := appendUnique (bucket byTag tag) id]> byTag)
    tags byTag.

Definition stripTags (id : string) (tags : list string)
    (byTag : gmap string (list string)) : gmap string (list string) :=
  fold_left (fun byTag tag => Index.stripBucket byTag tag id) tags byTag.

(** ** Searching by date *)

(** The ids collected so far are exactly the ids marked as seen. *)
Definition seenExactly (acc : list string * gmap string bool) : Prop :=
  NoDup (fst acc)
  /\ forall x, default false (snd acc !! x) = true <-> x ∈ fst acc.

(** ** Record locations *)

Fixpoint noSlash (s : string) : bool :=
  match s with
  | EmptyString => true
  | String c s => negb (Ascii.eqb c "/") && noSlash s
  end.

(** A path element that [filepath.Clean] keeps as it is. *)
Definition plainElem (s : string) : bool :=
  noSlash s && negb (String.eqb s "") && negb (String.eqb s ".")
  && negb (String.eqb s "..").

Definition isHex (c : ascii) : bool :=
  let n := nat_of_ascii c in
  ((48 <=? n) && (n <=? 57) || (97 <=? n) && (n <=? 102))%nat.

(** The shape of [uuid.UUID.String()]: 8-4-4-4-12 lower-case hex digits. *)
Fixpoint matchesShape (shape : list nat) (s : string) : bool :=
  match shape with
  | [] => String.eqb s ""
  | O :: shape =>
      match shape, s with
      | [], _ => String.eqb s ""
      | _, String c s => Ascii.eqb c "-" && matchesShape shape s
      | _, EmptyString => false
      end
  | S n :: shape =>
      match s with
      | String c s => isHex c && matchesShape (n :: shape) s
      | EmptyString => false
      end
  end.

Definition isUUID (s : string) : bool := matchesShape [8; 4; 4; 4; 12]%nat s.

Definition fourDigits (y : Z) : string :=
  String (digitChar (y / 1000 mod 10))
    (String (digitChar (y / 100 mod 10))
       (String (digitChar (y / 10 mod 10))
          (String (digitChar (y mod 10)) ""))).

Definition twoDigits (m : Z) : string :=
  String (digitChar (m / 10 mod 10)) (String (digitChar (m mod 10)) "").

(** The location as the specification words it: from the UTC calendar
    year and month of the creation time. *)
Definition utcLocation (t : Time) (id : string) : string :=
  fourDigits (Year (UTC t)) +:+ "/" +:+ twoDigits (Month (UTC t)) +:+ "/"
  +:+ id +:+ ".yaml".

(** The location from the calendar year and month of the creation time in
    its own location. *)
Definition localLocation (t : Time) (id : string) : string :=
  fourDigits (Year t) +:+ "/" +:+ twoDigits (Month t) +:+ "/"
  +:+ id +:+ ".yaml".

Definition yearFormatOk (y : Z) : bool :=
  String.eqb (appendInt y 4) (fourDigits y) && plainElem (fourDigits y).
Definition monthFormatOk (m : Z) : bool :=
  String.eqb (appendInt m 2) (twoDigits m) && plainElem (twoDigits m).

(** ** The rotation transaction *)

(** The callback applied to each file of the list in turn, once: the
    outcome of each attempt and the world after the last one. *)
Fixpoint attempts (f : string -> World -> World * option error)
    (paths : list string) (w : World) : list (string * option error) * World :=
  match paths with
  | [] => ([], w)
  | p :: paths =>
      let '(w, r) := f p w in
      let '(rs, w) := attempts f paths w in
      ((p, r) :: rs, w)
  end.

(** The failed attempts, each with its error, in the order of the list. *)
Fixpoint failuresOf (outcomes : list (string * option error))
  : list crypto.FileError.t :=
  match outcomes with
  | [] => []
  | (p, Some e) :: rest => crypto.FileError.mk p e :: failuresOf rest
  | (_, None) :: rest => failuresOf rest
  end.

Fixpoint successesOf (outcomes : list (string * option error)) : Z :=
  match outcomes with
  | [] => 0
  | (_, None) :: rest => 1 + successesOf rest
  | (_, Some _) :: rest => successesOf rest
  end.

(** The result record once steps 4 and 5 are through. *)
Definition resultOf (paths : list string)
    (outcomes : list (string * option error)) (indexErr : option error)
  : crypto.ReEncryptResult.t :=
  {| crypto.ReEncryptResult.TotalFiles := Z.of_nat (length paths);
     crypto.ReEncryptResult.SuccessfulFiles := successesOf outcomes;
     crypto.ReEncryptResult.FailedFiles := failuresOf outcomes;
     crypto.ReEncryptResult.IndexSuccess :=
       match indexErr with None => true | Some _ => false end;
     crypto.ReEncryptResult.IndexError := indexErr |}.


Definition rolledBack : error :=
  errorString "re-encryption failed, rolled back .sops.yaml".

Definition rollbackFailed (e : error) (r : crypto.ReEncryptResult.t) : error :=
  errorString ("re-encryption failed AND rollback failed: " +:+ Error e +:+ nl
               +:+ "Original error: " +:+ crypto.FormatErrors r).

Definition backupWarning (backupPath : string) (e : error) : string :=
  "Warning: failed to remove backup file " +:+ backupPath +:+ ": "
  +:+ Error e +:+ nl.

(** ** Lookups and days *)

(** The metadata the index keeps of a record. *)
Definition commonMetaOf (meta : MetadataV1.t) : Metadata.t :=
  {| Metadata.Id := MetadataV1.Id meta;
     Metadata.Date := MetadataV1.Date meta;
     Metadata.Tags := MetadataV1.Tags meta;
     Metadata.FilePath := MetadataV1.FilePath meta |}.


(** ** Cleaned paths *)

(** The path that [filepath.Clean] writes for a stack of kept elements. *)
Definition rendered (rooted : bool) (st : list string) : string :=
  let out := rev st in
  if rooted then "/" +:+ strings.Join "/" out
  else match out with [] => "." | _ => strings.Join "/" out end.

(** The stacks that [filepath.Clean] builds: plain elements above the
    [..] elements that lead a relative path out of its start. *)
Inductive okStack (rooted : bool) : list string -> Prop :=
| ok_dots n : (rooted = true -> n = 0%nat) ->
              okStack rooted (replicate n "..")
| ok_push e st : plainElem e = true -> okStack rooted st ->
                 okStack rooted (e :: st).

(** The stack of [path] under [Clean]. *)
Definition stackOf (rooted : bool) (path : string) : list string :=
  fold_left (filepath.cleanStep rooted) (strings.Split "/" path) [].

(** The directory that [filepath.Join] starts from: an empty first element
    is dropped. *)
Definition baseRooted (bp : string) : bool :=
  if String.eqb bp "" then false else String.prefix "/" bp.
Definition baseStack (bp : string) : list string :=
  if String.eqb bp "" then [] else stackOf (String.prefix "/" bp) bp.

(** ** Stores that read back what they wrote *)

(** The next [n] system calls of the run succeed. *)
Definition callsOk (n : nat) (w : World) : Prop :=
  forall k, (k < n)%nat -> faults w (tick w + k)%nat = false.

(** The ambient keys decrypt what is encrypted for the recipients of the
    store. *)
Definition canDecrypt `{crypto.Provider} (s : storage.Storage) : Prop :=
  forall data c,
    crypto.sopsEncrypt (crypto.recipients (storage.encryptor s)) data = Ok c ->
    crypto.sopsDecrypt c = Ok data.

(** The YAML library reads back as the same document the text it writes
    for the record. *)
Definition yamlReadsBack `{yaml.TextLayer} (e : EntryV1.t) : Prop :=
  yaml.parse (yaml.emit (encodeEntryV1 e)) = Ok (encodeEntryV1 e).

(** The YAML library reads back the index it writes. *)
Definition indexReadsBack `{storage.IndexCodec} (idx : Index.t) : Prop :=
  storage.unmarshalIndex (storage.marshalIndex idx) = Ok idx.

(** The file of an entry, as [LoadEntry] and [DeleteEntry] resolve it from
    the relative path of [GetEntryPath]. *)
Definition entryFile (s : storage.Storage) (date : Time) (id : string)
  : string :=
  filepath.Join [storage.basePath s; storage.EntriesDir;
                 storage.GetEntryPath s date id].

(** The record that [Update] writes back. *)
Definition updated (e : EntryV1.t) (content : string) (tags : list string)
  : EntryV1.t :=
  {| EntryV1.Meta :=
       {| MetadataV1.Version := EntryV1.Version e;
          MetadataV1.Id := EntryV1.Id e;
          MetadataV1.Date := EntryV1.Date e;
          MetadataV1.Tags := tags;
          MetadataV1.FilePath := EntryV1.FilePath e |};
     EntryV1.Content := content |}.

(** A change of the journal: [Add], [Delete] or [Update], with the error
    it returns. *)
Inductive mutation : Type :=
| MAdd (id : string) (now : Time) (content : string) (tags : list string)
| MDelete (id : string)
| MUpdate (id : string) (content : string) (tags : list string).

Definition errorOf {A} (r : result A) : option error :=
  match r with Ok _ => None | Err e => Some e end.

Definition mutate `{yaml.TextLayer} `{crypto.Provider} `{storage.IndexCodec}
    (m : mutation) (j : entry.Journal) (w : World)
  : World * entry.Journal * option error :=
  match m with
  | MAdd id now content tags =>
      let '(w, j, r) := entry.Add id now content tags j w in (w, j, errorOf r)
  | MDelete id => entry.Delete id j w
  | MUpdate id content tags =>
      let '(w, j, r) := entry.Update id content tags j w in (w, j, errorOf r)
  end.

(** ** Recipient lists *)

Fixpoint noChar (sep : ascii) (s : string) : bool :=
  match s with
  | EmptyString => true
  | String c s => negb (Ascii.eqb c sep) && noChar sep s
  end.

(** A recipient that the comma-separated list of .sops.yaml gives back as
    it was written: not empty, without a comma, without white space
    around it. *)
Definition listable (r : string) : bool :=
  negb (String.eqb r "") && noChar "," r && String.eqb (strings.TrimSpace r) r.

(** The configuration that [CreateSOPSConfig] writes for a list of
    recipients. *)
Definition sopsConfigOf (recipients : list string) : crypto.SOPSConfig :=
  {| crypto.CreationRules :=
       [ {| crypto.PathRegex := "index\.yaml$";
            crypto.Age := strings.Join "," recipients |};
         {| crypto.PathRegex := "entries/.*\.yaml$";
            crypto.Age := strings.Join "," recipients |} ] |}.

(** The YAML library reads back the configuration it writes. *)
Definition configReadsBack `{crypto.Provider} (c : crypto.SOPSConfig) : Prop :=
  crypto.unmarshalConfig (crypto.marshalConfig c) = Ok c.

(** The result record before any file is attempted. *)
Definition noAttempt : crypto.ReEncryptResult.t :=
  {| crypto.ReEncryptResult.TotalFiles := 0;
     crypto.ReEncryptResult.SuccessfulFiles := 0;
     crypto.ReEncryptResult.FailedFiles := [];
     crypto.ReEncryptResult.IndexSuccess := false;
     crypto.ReEncryptResult.IndexError := None |}.

(** ** New journals and stamped records *)

(** The keys at hand decrypt what is encrypted for these recipients. *)
Definition decryptsFor `{crypto.Provider} (recipients : list string) : Prop :=
  forall data c,
    crypto.sopsEncrypt recipients data = Ok c -> crypto.sopsDecrypt c = Ok data.

(** The record with the current version stamped on it. *)
Definition stamped (e : EntryV1.t) : EntryV1.t :=
  {| EntryV1.Meta :=
       {| MetadataV1.Version := CurrentVersion;
          MetadataV1.Id := EntryV1.Id e;
          MetadataV1.Date := EntryV1.Date e;
          MetadataV1.Tags := EntryV1.Tags e;
          MetadataV1.FilePath := EntryV1.FilePath e |};
     EntryV1.Content := EntryV1.Content e |}.

(** ** Searches *)

(** What the store holds under a relative path: the outcome of
    [LoadEntry] when its read is not cut short by an I/O fault. *)
Definition stored `{yaml.TextLayer} `{crypto.Provider}
    (s : storage.Storage) (fs : gmap string bytes) (relFilePath : string)
  : result Entry :=
  let fullPath :=
    filepath.Join [storage.basePath s; storage.EntriesDir; relFilePath] in
  match fs !! fullPath with
  | None =>
      Err (wrap "failed to decrypt entry: "
             (wrap "failed to decrypt file: " (PathError "open" fullPath true)))
  | Some data =>
      match crypto.sopsDecrypt data with
      | Err err =>
          Err (wrap "failed to decrypt entry: "
                 (wrap "failed to decrypt file: " err))
      | Ok decryptedData =>
          match ParseYaml decryptedData with
          | Err err => Err (wrap "failed to parse entry: " err)
          | Ok entry => Ok entry
          end
      end
  end.

(** The entries among a list of outcomes, and the warnings for the
    others. *)
Definition loaded (outcomes : list (string * result Entry)) : list Entry :=
  omap (fun o => match snd o with Ok e => Some e | Err _ => None end) outcomes.

Definition warningOf (id : string) (err : error) : string :=
  "Warning: " +:+ Error (wrap ("failed to load entry " +:+ id +:+ ": ") err)
  +:+ nl.

Definition warnings (outcomes : list (string * result Entry)) : list string :=
  omap (fun o => match snd o with
                 | Ok _ => None
                 | Err err => Some (warningOf (fst o) err)
                 end) outcomes.

(** The errors noted for the outcomes that are no entries. *)
Definition loadErrorsOf (outcomes : list (string * result Entry))
  : list error :=
  omap (fun o => match snd o with
                 | Ok _ => None
                 | Err err =>
                     Some (wrap ("failed to load entry " +:+ fst o +:+ ": ") err)
                 end) outcomes.

(** The outcome for each of the ids that the index knows. *)
Definition outcomesOf `{yaml.TextLayer} `{crypto.Provider}
    (j : entry.Journal) (fs : gmap string bytes) (ids : list string)
  : list (string * result Entry) :=
  omap (fun id =>
          match Index.GetMetadata id (entry.index j) with
          | None => None
          | Some meta =>
              Some (id, stored (entry.storage j) fs (Metadata.FilePath meta))
          end) ids.

(** The four searches of the journal. *)
Inductive query : Type :=
| QDate (date : Time)
| QDateRange (start end_ : Time)
| QTag (tag : string)
| QTags (tags : list string).

Definition idsOf (q : query) (idx : Index.t) : list string :=
  match q with
  | QDate date => Index.FindByDate date idx
  | QDateRange start end_ => Index.FindByDateRange start end_ idx
  | QTag tag => Index.FindByTag tag idx
  | QTags tags => Index.FindByTags tags idx
  end.

Definition search `{yaml.TextLayer} `{crypto.Provider} `{storage.IndexCodec}
    (q : query) (j : entry.Journal) (st : World * list string)
  : World * list string * result (list Entry) :=
  match q with
  | QDate date => entry.SearchByDate date j st
  | QDateRange start end_ => entry.SearchByDateRange start end_ j st
  | QTag tag => entry.SearchByTag tag j st
  | QTags tags => entry.SearchByTags tags j st
  end.

(** ** Sample data *)

Module Sample.

Definition nov19 : Time := Date 2024 11 19 14 0 0 0 0.
Definition nov20 : Time := Date 2024 11 20 9 0 0 0 0.

Definition meta1 : MetadataV1.t :=
  MetadataV1.mk 1 "entry-1" nov19 ["work"; "meeting"] "2024/11/entry-1.yaml".
Definition meta2 : MetadataV1.t :=
  MetadataV1.mk 1 "entry-2" nov20 ["personal"] "2024/11/entry-2.yaml".

(** [entry-1] again, moved to the next day with another tag. *)
Definition meta1' : MetadataV1.t :=
  MetadataV1.mk 1 "entry-1" nov20 ["home"] "2024/11/entry-1.yaml".

Definition testEntry : EntryV1.t :=
  NewEntryV1 "test-id-123" (Date 2024 11 19 14 30 0 0 0)
             "This is a test entry" ["work"; "meeting"] "".

(** An open range of two days, and an index holding both entries. *)
Definition rangeStart : Time := Date 2024 11 19 14 0 0 0 0.
Definition rangeEnd : Time := Date 2024 11 20 10 0 0 0 0.
Definition index12 : Index.t :=
  Index.Add meta2 (Index.Add meta1 Index.NewIndex).

(** Six operations: a repeated add, and a removal before a changed
    re-add. *)
Definition sampleOps : list op :=
  [OpAdd meta1; OpAdd meta2; OpAdd meta1;
   OpRemove "entry-1"; OpAdd meta1'; OpRemove "entry-9"].

(** A store, a journal and a world to run the journal in. *)
Definition uuid1 : string := "3f2b8c1e-9a4d-4e6f-8b2a-1c5d7e9f0a3b".
Definition store : storage.Storage :=
  {| storage.basePath := "/journal";
     storage.encryptor :=
       {| crypto.journalPath := "/journal";
          crypto.recipients := ["age1alice"] |} |}.
Definition brokenStore : storage.Storage :=
  {| storage.basePath := "/journal";
     storage.encryptor :=
       {| crypto.journalPath := "/journal";
          crypto.recipients := ["not-a-key"] |} |}.
Definition emptyJournal (s : storage.Storage) : entry.Journal :=
  {| entry.config := {| config.Name := "test"; config.Path := "/journal" |};
     entry.storage := s;
     entry.index := Index.NewIndex |}.
Definition quietWorld : World :=
  {| files := ∅; faults := fun _ => false; tick := 0; pid := 4242;
     stdout := [] |}.
(** 2024-12-31 23:30 at five hours west of UTC. *)
Definition newYearsEve : Time := Date 2024 12 31 23 30 0 0 (-18000).
(** The journal and the world after adding one entry to the empty journal. *)
Definition afterAdd : World * entry.Journal * result Entry :=
  @entry.Add Reference.textLayer Reference.provider Reference.indexCodec
    uuid1 newYearsEve "Test entry" ["tag1"] (emptyJournal store) quietWorld.
Definition world1 : World := fst (fst afterAdd).
Definition journal1 : entry.Journal := snd (fst afterAdd).

(** A rotation of the recipients over two record files. *)
Definition recipientsConfig (recipients : list string) : crypto.SOPSConfig :=
  {| crypto.CreationRules :=
       [ {| crypto.PathRegex := "index\.yaml$";
            crypto.Age := strings.Join "," recipients |};
         {| crypto.PathRegex := "entries/.*\.yaml$";
            crypto.Age := strings.Join "," recipients |} ] |}.
(** A store with its recipient configuration, where the system calls whose
    numbers [failing] selects fail. *)
Definition configuredWorld (failing : nat -> bool) : World :=
  {| files :=
       {[ "/journal/.sops.yaml" :=
            @crypto.marshalConfig Reference.provider
              (recipientsConfig ["age1alice"]) ]};
     faults := failing; tick := 0; pid := 4242; stdout := [] |}.
Definition backupPath : string := "/journal/.sops.yaml.backup.4242".
Definition listTwo (w : World) : World * result (list string) :=
  (w, Ok ["2024/11/a.yaml"; "2024/11/b.yaml"]).
Definition failOnB (p : string) (w : World) : World * option error :=
  if String.eqb p "2024/11/b.yaml"
  then (w, Some (errorString "cannot re-encrypt"))
  else (w, None).
Definition allGood (p : string) (w : World) : World * option error := (w, None).
Definition indexGood (w : World) : World * option error := (w, None).

End Sample.

(** ** More sample data *)

Definition sampleEntry : EntryV1.t :=
  NewEntryV1 Sample.uuid1 Sample.newYearsEve "Test entry" ["tag1"]
    "2024/12/3f2b8c1e-9a4d-4e6f-8b2a-1c5d7e9f0a3b.yaml".


Definition sampleMeta : Metadata.t :=
  {| Metadata.Id := Sample.uuid1; Metadata.Date := Sample.newYearsEve;
     Metadata.Tags := ["tag1"];
     Metadata.FilePath := "2024/12/3f2b8c1e-9a4d-4e6f-8b2a-1c5d7e9f0a3b.yaml" |}.

(** A journal directory whose .sops.yaml lists two recipients. *)
Definition twoRecipients : list string := ["age1alice"; "age1bob"].
Definition twoRecipientsWorld : World :=
  fst (@crypto.CreateSOPSConfig Reference.provider "/journal" twoRecipients
         Sample.quietWorld).

(** A listing of the entry files that fails. *)
Definition listFails (w : World) : World * result (list string) :=
  (w, Err (errorString "cannot list")).

(** The configured store, after the backup of a rotation, and after the
    new recipients are written. *)
Definition quietConfigured : World := Sample.configuredWorld (fun _ => false).
Definition backedUp : World :=
  fst (crypto.BackupSOPSConfig "/journal" quietConfigured).
Definition rotated : World :=
  fst (@crypto.CreateSOPSConfig Reference.provider "/journal"
         ["age1alice"; "age1bob"] backedUp).

Definition sampleConfig : config.Journal :=
  {| config.Name := "test"; config.Path := "/journal" |}.

(** The test entry with a version that is not the current one. *)
Definition staleEntry : EntryV1.t :=
  {| EntryV1.Meta :=
       {| MetadataV1.Version := 7;
          MetadataV1.Id := "test-id-123";
          MetadataV1.Date := Date 2024 11 19 14 30 0 0 0;
          MetadataV1.Tags := ["work"; "meeting"];
          MetadataV1.FilePath := "" |};
     EntryV1.Content := "This is a test entry" |}.

(** * Properties *)

(** ** The calendar *)

Lemma allFrom_spec n k p :
  allFrom n k p = true -> forall i, k <= i < k + Z.of_nat n -> p i = true.
Proof.
  revert k. induction n as [|n IH]; simpl; intros k Hall i Hi; [lia|].
  apply andb_prop in Hall as [Hk Hrest].
  destruct (Z.eq_dec i k) as [->|Hne]; [assumption|].
  apply (IH (k + 1)); [assumption|lia].
Qed.

Lemma eraDayOk_all : allFrom (Z.to_nat 146097) 0 eraDayOk = true.
Proof. vm_compute. reflexivity. Qed.

Lemma eraDay_bounds doe :
  0 <= doe < 146097 -> eraDayOk doe = true.
Proof.
  intros Hdoe. apply (allFrom_spec _ _ _ eraDayOk_all).
  rewrite Z2Nat.id; lia.
Qed.

Lemma days_from_civil_from_days z :
  let '(y, m, d) := civil_from_days z in
  days_from_civil y m d = z /\ 1 <= m <= 12.
Proof.
  unfold civil_from_days.
  set (z' := z + 719468).
  set (era := z' / 146097).
  set (doe := z' - era * 146097).
  assert (Hdoe : 0 <= doe < 146097).
  { pose proof (Z.mod_pos_bound z' 146097 eq_refl) as Hb.
    rewrite Z.mod_eq in Hb by lia. subst doe era. lia. }
  pose proof (eraDay_bounds doe Hdoe) as Hok. unfold eraDayOk in Hok.
  set (yoe := (doe - doe / 1460 + doe / 36524 - doe / 146096) / 365) in *.
  set (doy := doe - (365 * yoe + yoe / 4 - yoe / 100)) in *.
  set (mp := (5 * doy + 2) / 153) in *.
  simpl in Hok.
  apply andb_prop in Hok as [Hok Hmp]. apply andb_prop in Hok as [Hok Hdoy].
  apply andb_prop in Hok as [Hy0 Hy1].
  apply Z.leb_le in Hmp, Hdoy, Hy0, Hy1.
  assert (Hmp0 : 0 <= mp) by (unfold mp; apply Z.div_pos; lia).
  unfold days_from_civil.
  destruct (Z.ltb_spec mp 10) as [Hlt|Hge].
  - destruct (Z.leb_spec (mp + 3) 2) as [?|_]; [lia|].
    destruct (Z.ltb_spec 2 (mp + 3)) as [_|?]; [|lia].
    replace (mp + 3 - 3) with mp by lia.
    rewrite Z.div_add, (Z.div_small yoe 400) by lia.
    replace (yoe + era * 400 - (0 + era) * 400) with yoe by lia.
    split; [|lia].
    assert (Hdoy' : doy = doe - (365 * yoe + yoe / 4 - yoe / 100)) by reflexivity.
    assert (Hdoe' : doe = z' - era * 146097) by reflexivity.
    assert (Hz' : z' = z + 719468) by reflexivity.
    clearbody doy doe z' yoe mp era. lia.
  - destruct (Z.leb_spec (mp - 9) 2) as [_|?]; [|lia].
    destruct (Z.ltb_spec 2 (mp - 9)) as [?|_]; [lia|].
    replace (mp - 9 + 9) with mp by lia.
    replace (yoe + era * 400 + 1 - 1) with (yoe + era * 400) by lia.
    rewrite Z.div_add, (Z.div_small yoe 400) by lia.
    replace (yoe + era * 400 - (0 + era) * 400) with yoe by lia.
    split; [|lia].
    assert (Hdoy' : doy = doe - (365 * yoe + yoe / 4 - yoe / 100)) by reflexivity.
    assert (Hdoe' : doe = z' - era * 146097) by reflexivity.
    assert (Hz' : z' = z + 719468) by reflexivity.
    clearbody doy doe z' yoe mp era. lia.
Qed.

Lemma days_from_civil_succ y m d :
  days_from_civil y m (d + 1) = days_from_civil y m d + 1.
Proof. unfold days_from_civil. lia. Qed.

Lemma AddDate_one_day t :
  wfTime t ->
  AddDate 0 0 1 t
  = {| unixSec := unixSec t + 86400; nsec := nsec t; zoneOffset := zoneOffset t |}.
Proof.
  intros Hwf. unfold AddDate, DateOf, Clock.
  pose proof (days_from_civil_from_days (abs t / 86400)) as Hrt.
  destruct (civil_from_days (abs t / 86400)) as [[y m] d].
  destruct Hrt as [Hrt Hm].
  unfold Date.
  replace (m + 0 - 1) with (m - 1) by lia.
  rewrite (Z.div_small (m - 1) 12) by lia.
  rewrite (Z.mod_small (m - 1) 12) by lia.
  replace (y + 0 + 0) with y by lia.
  replace (m - 1 + 1) with m by lia.
  rewrite days_from_civil_succ, Hrt.
  rewrite (Z.div_small (nsec t)), (Z.mod_small (nsec t)) by exact Hwf.
  f_equal.
  unfold abs.
  set (a := unixSec t + zoneOffset t).
  pose proof (Z.div_mod a 86400 ltac:(discriminate)).
  pose proof (Z.mod_pos_bound a 86400 eq_refl).
  set (r := a mod 86400) in *.
  pose proof (Z.div_mod r 3600 ltac:(discriminate)).
  pose proof (Z.div_mod (r mod 3600) 60 ltac:(discriminate)).
  assert (Hr60 : (r mod 3600) mod 60 = r mod 60).
  { apply Z.mod_mod_divide. exists 60. reflexivity. }
  lia.
Qed.

(** ** Decoding entries *)

Section ParseYamlFacts.
Context `{yaml.TextLayer}.


Lemma eqb_empty_false s : s <> "" -> String.eqb s "" = false.
Proof. intros Hs. apply String.eqb_neq. exact Hs. Qed.

Lemma decode_encodeEntryV1 (r : EntryV1.t) :
  decodeEntryV1 (encodeEntryV1 r) = Ok r.
Proof.
  destruct r as [[v i d t f] c].
  unfold encodeEntryV1, decodeEntryV1; simpl.
  destruct t; reflexivity.
Qed.

Lemma detect_encodeEntryV1 (r : EntryV1.t) :
  decodeVersionDetector (encodeEntryV1 r)
  = Ok {| detectedVersion := EntryV1.Version r |}.
Proof. reflexivity. Qed.


End ParseYamlFacts.

(** ** The index invariant *)

Lemma existsb_eqb_elem_of (item : string) (slice : list string) :
  existsb (String.eqb item) slice = true <-> item ∈ slice.
Proof.
  rewrite existsb_exists, list_elem_of_In. split.
  - intros (x & Hx & Heq). apply String.eqb_eq in Heq. by subst.
  - intros Hin. exists item. split; [done|apply String.eqb_refl].
Qed.

Lemma elem_of_appendUnique (slice : list string) item x :
  x ∈ appendUnique slice item <-> x ∈ slice \/ x = item.
Proof.
  unfold appendUnique.
  destruct (existsb (String.eqb item) slice) eqn:Hex.
  - apply existsb_eqb_elem_of in Hex. split; [auto|]. intros [?| ->]; done.
  - rewrite elem_of_app, list_elem_of_singleton. done.
Qed.

Lemma NoDup_appendUnique (slice : list string) item :
  NoDup slice -> NoDup (appendUnique slice item).
Proof.
  intros Hnd. unfold appendUnique.
  destruct (existsb (String.eqb item) slice) eqn:Hex; [done|].
  apply NoDup_app. split; [done|]. split; [|apply NoDup_singleton].
  intros x Hx ->%list_elem_of_singleton.
  apply existsb_eqb_elem_of in Hx. congruence.
Qed.

Lemma appendUnique_nonempty (slice : list string) item :
  appendUnique slice item <> [].
Proof.
  unfold appendUnique. destruct (existsb (String.eqb item) slice) eqn:Hex.
  - intros ->. discriminate.
  - destruct slice; discriminate.
Qed.

Lemma elem_of_removeString (slice : list string) item x :
  x ∈ removeString slice item <-> x ∈ slice /\ x <> item.
Proof.
  unfold removeString. rewrite !list_elem_of_In, filter_In.
  rewrite negb_true_iff, String.eqb_neq. done.
Qed.

Lemma NoDup_removeString (slice : list string) item :
  NoDup slice -> NoDup (removeString slice item).
Proof.
  rewrite !NoDup_ListNoDup. apply List.NoDup_filter.
Qed.

Lemma bucket_insert (m : gmap string (list string)) k l k' :
  bucket (<[k := l]> m) k' = if decide (k = k') then l else bucket m k'.
Proof. unfold bucket. rewrite lookup_insert. by case_decide. Qed.

Lemma bucket_stripBucket (m : gmap string (list string)) k id k' :
  bucket (Index.stripBucket m k id) k'
  = if decide (k = k') then removeString (bucket m k) id else bucket m k'.
Proof.
  unfold Index.stripBucket. rewrite bucket_insert.
  rewrite decide_True by done.
  destruct (Nat.eqb_spec (length (removeString (bucket m k) id)) 0) as [Hlen|Hlen].
  - unfold bucket at 1. rewrite lookup_delete, lookup_insert.
    case_decide; [|done]. simpl. symmetry. by apply nil_length_inv.
  - apply bucket_insert.
Qed.

Lemma noEmpty_stripBucket (m : gmap string (list string)) k id :
  noEmpty m -> noEmpty (Index.stripBucket m k id).
Proof.
  intros Hm k' l. unfold Index.stripBucket. rewrite bucket_insert.
  rewrite decide_True by done.
  destruct (Nat.eqb_spec (length (removeString (bucket m k) id)) 0) as [Hlen|Hlen].
  - rewrite lookup_delete. case_decide; [done|].
    rewrite lookup_insert_ne by done. apply Hm.
  - rewrite lookup_insert. case_decide.
    + intros [= <-] Hnil. by rewrite Hnil in Hlen.
    + apply Hm.
Qed.

Lemma noEmpty_insert_appendUnique (m : gmap string (list string)) k id :
  noEmpty m -> noEmpty (<[k := appendUnique (bucket m k) id]> m).
Proof.
  intros Hm k' l. rewrite lookup_insert. case_decide.
  - intros [= <-]. apply appendUnique_nonempty.
  - apply Hm.
Qed.

Lemma elem_of_addTags id tags byTag t x :
  x ∈ bucket (addTags id tags byTag) t
  <-> x ∈ bucket byTag t \/ (x = id /\ t ∈ tags).
Proof.
  revert byTag. induction tags as [|tag tags IH]; intros byTag; simpl.
  - split; [auto|]. intros [?|[_ ?%elem_of_nil]]; done.
  - fold (addTags id tags (<[tag := appendUnique (bucket byTag tag) id]> byTag)).
    rewrite IH, bucket_insert, elem_of_cons. case_decide as Ht.
    + subst t. rewrite elem_of_appendUnique. intuition auto.
    + intuition congruence.
Qed.

Lemma noEmpty_addTags id tags byTag :
  noEmpty byTag -> noEmpty (addTags id tags byTag).
Proof.
  revert byTag. induction tags as [|tag tags IH]; intros byTag Hm; simpl; [done|].
  apply IH. by apply noEmpty_insert_appendUnique.
Qed.

Lemma NoDup_addTags id tags byTag :
  (forall t, NoDup (bucket byTag t)) ->
  forall t, NoDup (bucket (addTags id tags byTag) t).
Proof.
  revert byTag. induction tags as [|tag tags IH]; intros byTag Hm; simpl; [done|].
  apply IH. intros t. rewrite bucket_insert. case_decide; [|done].
  by apply NoDup_appendUnique.
Qed.

Lemma elem_of_stripTags id tags byTag t x :
  x ∈ bucket (stripTags id tags byTag) t
  <-> x ∈ bucket byTag t /\ ~ (x = id /\ t ∈ tags).
Proof.
  revert byTag. induction tags as [|tag tags IH]; intros byTag; simpl.
  - split; [|tauto]. intros ?; split; [done|]. intros [_ ?%elem_of_nil]; done.
  - fold (stripTags id tags (Index.stripBucket byTag tag id)).
    rewrite IH, bucket_stripBucket, elem_of_cons. case_decide as Ht.
    + subst t. rewrite elem_of_removeString. intuition auto.
    + intuition congruence.
Qed.

Lemma noEmpty_stripTags id tags byTag :
  noEmpty byTag -> noEmpty (stripTags id tags byTag).
Proof.
  revert byTag. induction tags as [|tag tags IH]; intros byTag Hm; simpl; [done|].
  apply IH. by apply noEmpty_stripBucket.
Qed.

Lemma NoDup_stripTags id tags byTag :
  (forall t, NoDup (bucket byTag t)) ->
  forall t, NoDup (bucket (stripTags id tags byTag) t).
Proof.
  revert byTag. induction tags as [|tag tags IH]; intros byTag Hm; simpl; [done|].
  apply IH. intros t. rewrite bucket_stripBucket. case_decide; [|done].
  by apply NoDup_removeString.
Qed.

Lemma grouped_NewIndex : grouped Index.NewIndex.
Proof.
  split; simpl; unfold bucket; intros; rewrite ?lookup_empty in *; simpl;
    try done; try apply NoDup_nil_2.
  - split; [by intros ?%elem_of_nil|]. by intros (m & Hm & _).
  - split; [by intros ?%elem_of_nil|]. by intros (m & Hm & _).
Qed.

Lemma grouped_Add (meta : MetadataV1.t) idx :
  grouped idx -> keepsKeys meta idx -> grouped (Index.Add meta idx).
Proof.
  intros [Hd Ht Hde Hte Hdn Htn] Hkeep. unfold keepsKeys in Hkeep.
  unfold Index.Add; simpl.
  fold (addTags (MetadataV1.Id meta) (MetadataV1.Tags meta) (Index.ByTag idx)).
  split; simpl.
  - intros k id. rewrite bucket_insert. case_decide as Hk.
    + subst k. rewrite elem_of_appendUnique, Hd.
      destruct (decide (id = MetadataV1.Id meta)) as [->|Hid].
      * rewrite lookup_insert_eq. split; [|auto]. intros _. eauto.
      * rewrite lookup_insert_ne by done. intuition congruence.
    + rewrite Hd. destruct (decide (id = MetadataV1.Id meta)) as [->|Hid].
      * rewrite lookup_insert_eq. split.
        -- intros (m & Hm & Hkey). rewrite Hm in Hkeep.
           destruct Hkeep as [Hsame _]. congruence.
        -- intros (m & [= <-] & Hkey). simpl in Hkey. done.
      * rewrite lookup_insert_ne by done. done.
  - intros t id. rewrite elem_of_addTags, Ht.
    destruct (decide (id = MetadataV1.Id meta)) as [->|Hid].
    + rewrite lookup_insert_eq. split.
      * intros [(m & Hm & Hin)|[_ Hin]]; [|eauto].
        rewrite Hm in Hkeep. destruct Hkeep as [_ Hsame].
        eexists; split; [done|]. simpl. by apply Hsame.
      * intros (m & [= <-] & Hin). simpl in Hin. auto.
    + rewrite lookup_insert_ne by done. intuition congruence.
  - by apply noEmpty_insert_appendUnique.
  - by apply noEmpty_addTags.
  - intros k. rewrite bucket_insert. case_decide; [|done].
    by apply NoDup_appendUnique.
  - by apply NoDup_addTags.
Qed.

Lemma grouped_Remove id idx :
  grouped idx -> grouped (Index.Remove id idx).
Proof.
  intros Hg. unfold Index.Remove.
  destruct (Index.Entries idx !! id) as [meta|] eqn:Hmeta; [|done].
  destruct Hg as [Hd Ht Hde Hte Hdn Htn].
  fold (stripTags id (Metadata.Tags meta) (Index.ByTag idx)).
  split; simpl.
  - intros k x. rewrite bucket_stripBucket.
    destruct (decide (x = id)) as [->|Hx].
    + rewrite lookup_delete_eq. split; [|by intros (m & Hm & _)].
      case_decide as Hk.
      * rewrite elem_of_removeString. tauto.
      * rewrite Hd. intros (m & Hm & Hkey). congruence.
    + rewrite lookup_delete_ne by done. case_decide as Hk.
      * subst k. rewrite elem_of_removeString, Hd. tauto.
      * apply Hd.
  - intros t x. rewrite elem_of_stripTags, Ht.
    destruct (decide (x = id)) as [->|Hx].
    + rewrite lookup_delete_eq. split; [|by intros (m & Hm & _)].
      intros [(m & Hm & Hin) Hnot]. exfalso. apply Hnot.
      split; [done|]. congruence.
    + rewrite lookup_delete_ne by done. tauto.
  - by apply noEmpty_stripBucket.
  - by apply noEmpty_stripTags.
  - intros k. rewrite bucket_stripBucket. case_decide; [|done].
    by apply NoDup_removeString.
  - by apply NoDup_stripTags.
Qed.

Lemma grouped_states ops idx :
  grouped idx -> admissible ops idx -> Forall grouped (states ops idx).
Proof.
  revert idx. induction ops as [|o ops IH]; intros idx Hg Hadm; simpl.
  - constructor.
  - destruct Hadm as [Ho Hadm].
    assert (grouped (applyOp o idx)) as Hg'.
    { destruct o; simpl; [by apply grouped_Add|by apply grouped_Remove]. }
    constructor; [done|]. by apply IH.
Qed.

(** C2 (as amended).  Starting from the empty index, along any sequence of
    [Add] and [Remove] in which no [Add] targets an id that is indexed at
    that moment under another day or another set of tags, the index after
    each operation is grouped: [ByDate] and [ByTag] hold exactly the ids of
    [Entries] by day and by tag, with no stale id, no empty bucket and no
    id twice in a bucket. *)
Theorem index_grouped_after_each_operation (ops : list op) :
  admissible ops Index.NewIndex ->
  Forall grouped (states ops Index.NewIndex).
Proof. apply grouped_states, grouped_NewIndex. Qed.

(** ** Searching by date *)

Lemma After_irrefl d : After d d = false.
Proof.
  unfold After. rewrite !Z.ltb_irrefl, andb_false_r. reflexivity.
Qed.

Lemma wfTime_AddDate d : wfTime d -> wfTime (AddDate 0 0 1 d).
Proof. intros Hwf. rewrite AddDate_one_day by done. exact Hwf. Qed.

(** The loop leaves by its condition within [dayLoopBound] iterations: more
    fuel does not change the result. *)
Lemma dayLoop_fuel idx end_ k :
  forall n d acc,
    wfTime d -> (Index.dayLoopBound d end_ <= k)%nat -> (k <= n)%nat ->
    Index.dayLoop n idx d end_ acc = Index.dayLoop k idx d end_ acc.
Proof.
  induction k as [|k IH]; intros n d acc Hwf Hb Hn.
  - assert (Hafter : After d end_ = true).
    { unfold Index.dayLoopBound in Hb. unfold After.
      apply orb_true_iff. left. apply Z.ltb_lt.
      destruct (Z.lt_ge_cases (unixSec end_) (unixSec d)) as [|Hge]; [done|].
      exfalso.
      assert (0 <= (unixSec end_ - unixSec d) / 86400)
        by (apply Z.div_pos; lia).
      lia. }
    destruct n; simpl; [reflexivity|]. by rewrite Hafter.
  - destruct n as [|n]; [lia|]. simpl.
    destruct (After d end_) eqn:Hafter; [reflexivity|].
    apply IH; [by apply wfTime_AddDate| |lia].
    rewrite AddDate_one_day by done.
    unfold Index.dayLoopBound in *. simpl.
    replace (unixSec end_ - (unixSec d + 86400))
      with ((unixSec end_ - unixSec d) + (-1) * 86400) by lia.
    rewrite Z.div_add by lia. lia.
Qed.

Lemma seenExactly_collectUnseen ids acc :
  seenExactly acc ->
  seenExactly (Index.collectUnseen ids acc)
  /\ forall x, x ∈ fst (Index.collectUnseen ids acc) <-> x ∈ fst acc \/ x ∈ ids.
Proof.
  revert acc. unfold Index.collectUnseen.
  induction ids as [|id ids IH]; intros [results seen] Hacc; simpl.
  - split; [done|]. intros x. rewrite elem_of_nil. tauto.
  - destruct Hacc as [Hnd Hseen]; simpl in *.
    destruct (default false (seen !! id)) eqn:Hid.
    + destruct (IH (results, seen)) as [Hinv Hmem]; [by split|].
      split; [done|]. intros x. rewrite Hmem, elem_of_cons. simpl.
      apply Hseen in Hid. intuition congruence.
    + destruct (IH (results ++ [id], <[id := true]> seen)) as [Hinv Hmem].
      { split; simpl.
        - apply NoDup_app. split; [done|]. split; [|apply NoDup_singleton].
          intros x Hx ->%list_elem_of_singleton.
          apply Hseen in Hx. congruence.
        - intros x. rewrite elem_of_app, list_elem_of_singleton.
          destruct (decide (id = x)) as [->|Hne].
          + rewrite lookup_insert_eq. simpl. tauto.
          + rewrite lookup_insert_ne by done. rewrite Hseen.
            intuition congruence. }
      split; [done|]. intros x. rewrite Hmem, elem_of_cons. simpl.
      rewrite elem_of_app, list_elem_of_singleton. tauto.
Qed.

Lemma seenExactly_empty : seenExactly ([], ∅).
Proof.
  split; simpl; [apply NoDup_nil_2|].
  intros x. rewrite lookup_empty, elem_of_nil. simpl. split; [discriminate|tauto].
Qed.

(** A range of one instant is the bucket of its day, without repeats. *)
Lemma FindByDateRange_same_instant d idx :
  NoDup (Index.FindByDateRange d d idx)
  /\ forall id, id ∈ Index.FindByDateRange d d idx <-> id ∈ Index.FindByDate d idx.
Proof.
  unfold Index.FindByDateRange, Index.dayLoopBound, Index.FindByDate.
  rewrite Z.sub_diag. simpl. rewrite After_irrefl.
  destruct (seenExactly_collectUnseen
              (bucket (Index.ByDate idx) (Index.dateKeyOf d)) ([], ∅)
              seenExactly_empty) as [[Hnd _] Hmem].
  split; [done|]. intros id. rewrite Hmem, elem_of_nil. simpl. tauto.
Qed.

(** C8 (the code at the failing input).  An entry written on 2024-11-20 at
    09:00 lies between 2024-11-19 14:00 and 2024-11-20 10:00, and
    [FindByDate] finds it on the day of the end of the range; yet
    [FindByDateRange] returns the entry of 2024-11-19 only: the loop
    compares the instants, so the second step (2024-11-20 14:00) is already
    after the end and the last day of the range is never looked up, however
    many iterations the loop is allowed. *)
Theorem FindByDateRange_skips_last_day :
  After Sample.rangeStart Sample.rangeEnd = false
  /\ After Sample.nov20 Sample.rangeStart = true
  /\ After Sample.rangeEnd Sample.nov20 = true
  /\ Index.Entries Sample.index12 !! "entry-2"
     = Some (Metadata.mk "entry-2" Sample.nov20 ["personal"] "2024/11/entry-2.yaml")
  /\ Index.FindByDate Sample.rangeEnd Sample.index12 = ["entry-2"]
  /\ Index.FindByDateRange Sample.rangeStart Sample.rangeEnd Sample.index12
     = ["entry-1"]
  /\ Index.dayLoop 1000 Sample.index12 Sample.rangeStart Sample.rangeEnd ([], ∅)
     = ["entry-1"].
Proof. repeat split; vm_compute; reflexivity. Qed.

(** ** Record locations *)

Lemma yearFormatOk_all : allFrom (Z.to_nat 10000) 0 yearFormatOk = true.
Proof. vm_compute. reflexivity. Qed.

Lemma monthFormatOk_all : allFrom (Z.to_nat 100) 0 monthFormatOk = true.
Proof. vm_compute. reflexivity. Qed.

Lemma appendInt_year y :
  0 <= y <= 9999 ->
  appendInt y 4 = fourDigits y /\ plainElem (fourDigits y) = true.
Proof.
  intros Hy.
  pose proof (allFrom_spec _ _ _ yearFormatOk_all y) as Hok.
  rewrite Z2Nat.id in Hok by lia. specialize (Hok ltac:(lia)).
  apply andb_prop in Hok as [Heq Hplain]. apply String.eqb_eq in Heq. done.
Qed.

Lemma appendInt_month m :
  0 <= m <= 99 ->
  appendInt m 2 = twoDigits m /\ plainElem (twoDigits m) = true.
Proof.
  intros Hm.
  pose proof (allFrom_spec _ _ _ monthFormatOk_all m) as Hok.
  rewrite Z2Nat.id in Hok by lia. specialize (Hok ltac:(lia)).
  apply andb_prop in Hok as [Heq Hplain]. apply String.eqb_eq in Heq. done.
Qed.

Lemma Month_range t : 1 <= Month t <= 12.
Proof.
  unfold Month, DateOf.
  pose proof (days_from_civil_from_days (abs t / 86400)) as Hrt.
  destruct (civil_from_days (abs t / 86400)) as [[y m] d]. simpl. tauto.
Qed.

Lemma append_cons c (s t : string) : String c s +:+ t = String c (s +:+ t).
Proof. reflexivity. Qed.

Lemma append_empty_l (t : string) : "" +:+ t = t.
Proof. reflexivity. Qed.

Lemma append_empty_r (s : string) : s +:+ "" = s.
Proof.
  induction s as [|c s IH]; [reflexivity|]. by rewrite append_cons, IH.
Qed.

Lemma noSlash_append a b :
  noSlash (a +:+ b) = noSlash a && noSlash b.
Proof.
  induction a as [|c a IH]; [reflexivity|].
  rewrite append_cons. simpl. rewrite IH. by rewrite andb_assoc.
Qed.

Lemma Split_noSlash a :
  noSlash a = true -> strings.Split "/" a = [a].
Proof.
  induction a as [|c a IH]; simpl; [reflexivity|].
  intros [Hc Ha]%andb_prop. apply negb_true_iff in Hc. rewrite Hc.
  by rewrite IH.
Qed.

Lemma Split_noSlash_cons a rest :
  noSlash a = true ->
  strings.Split "/" (a +:+ String "/" rest) = a :: strings.Split "/" rest.
Proof.
  induction a as [|c a IH]; [reflexivity|].
  rewrite append_cons. simpl.
  intros [Hc Ha]%andb_prop. apply negb_true_iff in Hc. rewrite Hc.
  by rewrite IH.
Qed.

Lemma plainElem_cleanStep rooted out e :
  plainElem e = true -> filepath.cleanStep rooted out e = e :: out.
Proof.
  unfold plainElem, filepath.cleanStep.
  intros [[[_ H1]%andb_prop H2]%andb_prop H3]%andb_prop.
  apply negb_true_iff in H1, H2, H3. by rewrite H1, H2, H3.
Qed.

Lemma Join_three_plain y m f :
  plainElem y = true -> plainElem m = true -> plainElem f = true ->
  filepath.Join [y; m; f] = y +:+ "/" +:+ m +:+ "/" +:+ f.
Proof.
  intros Hy Hm Hf.
  pose proof Hy as [[[Hys Hy0]%andb_prop _]%andb_prop _]%andb_prop.
  pose proof Hm as [[[Hms _]%andb_prop _]%andb_prop _]%andb_prop.
  pose proof Hf as [[[Hfs _]%andb_prop _]%andb_prop _]%andb_prop.
  apply negb_true_iff in Hy0.
  unfold filepath.Join. rewrite Hy0. unfold filepath.Clean.
  change (strings.Join "/" [y; m; f])
    with (y +:+ String "/" (m +:+ String "/" f)).
  rewrite Split_noSlash_cons, Split_noSlash_cons, Split_noSlash by done.
  simpl fold_left. rewrite !plainElem_cleanStep by done.
  destruct y as [|c y]; [discriminate|].
  rewrite append_cons. cbn [String.eqb String.prefix].
  simpl in Hys. apply andb_prop in Hys as [Hc _].
  destruct (ascii_dec "/" c) as [<-|_]; [discriminate|].
  reflexivity.
Qed.

Lemma isHex_not_slash c : isHex c = true -> Ascii.eqb c "/" = false.
Proof.
  intros Hc. destruct (Ascii.eqb_spec c "/") as [->|]; [|reflexivity].
  vm_compute in Hc. discriminate.
Qed.

Lemma matchesShape_noSlash shape s :
  matchesShape shape s = true -> noSlash s = true.
Proof.
  revert shape. induction s as [|c s IH]; intros shape Hs; [reflexivity|].
  destruct shape as [|[|n] shape]; cbn [matchesShape] in Hs.
  - discriminate.
  - destruct shape as [|n' shape']; [discriminate|].
    apply andb_prop in Hs as [Hc Hs].
    apply Ascii.eqb_eq in Hc. subst c. simpl. by apply (IH (n' :: shape')).
  - apply andb_prop in Hs as [Hc Hs]. simpl.
    rewrite (isHex_not_slash _ Hc). simpl. by apply (IH (n :: shape)).
Qed.

Lemma plainElem_yaml id :
  noSlash id = true -> plainElem (id +:+ ".yaml") = true.
Proof.
  intros Hid. unfold plainElem. rewrite noSlash_append, Hid. simpl.
  destruct id as [|a [|b [|c id]]]; try reflexivity.
  - simpl. destruct (Ascii.eqb a "."); reflexivity.
  - simpl. destruct (Ascii.eqb a "."); [|reflexivity].
    destruct (Ascii.eqb b "."); reflexivity.
  - simpl. destruct (Ascii.eqb a "."); [|reflexivity].
    destruct (Ascii.eqb b "."); reflexivity.
Qed.

Lemma GetEntryPath_local s t id :
  0 <= Year t <= 9999 -> isUUID id = true ->
  storage.GetEntryPath s t id = localLocation t id.
Proof.
  intros Hy Hid. unfold storage.GetEntryPath, localLocation.
  unfold Format, layoutYear, layoutMonth. simpl.
  rewrite !append_empty_r.
  destruct (appendInt_year _ Hy) as [-> Hyp].
  pose proof (Month_range t) as Hm.
  destruct (appendInt_month (Month t) ltac:(lia)) as [-> Hmp].
  apply Join_three_plain; [done|done|].
  apply plainElem_yaml. by apply (matchesShape_noSlash [8; 4; 4; 4; 12]%nat).
Qed.

Import Reference.


(** ** The journal *)

Section JournalFacts.
Context `{yaml.TextLayer} `{crypto.Provider} `{storage.IndexCodec}.

Lemma files_syscall w : files (snd (os.syscall w)) = files w.
Proof. reflexivity. Qed.

Lemma files_Stat name w : files (fst (os.Stat name w)) = files w.
Proof.
  unfold os.Stat. simpl. destruct (files w !! name); [|reflexivity].
  destruct (faults w (tick w)); reflexivity.
Qed.

Lemma files_ReadFile name w : files (fst (os.ReadFile name w)) = files w.
Proof.
  unfold os.ReadFile. simpl. destruct (files w !! name); [|reflexivity].
  destruct (faults w (tick w)); reflexivity.
Qed.

Lemma files_MkdirAll path w : files (fst (os.MkdirAll path w)) = files w.
Proof. unfold os.MkdirAll. simpl. destruct (faults w (tick w)); reflexivity. Qed.

Lemma WriteFile_failure name data w w' err :
  os.WriteFile name data w = (w', Some err) -> files w' = files w.
Proof.
  unfold os.WriteFile. simpl. destruct (faults w (tick w)); [|discriminate].
  intros [= <- _]. reflexivity.
Qed.

Lemma EncryptYAMLInMemory_failure e data path w w' err :
  crypto.EncryptYAMLInMemory e data path w = (w', Some err) ->
  files w' = files w.
Proof.
  unfold crypto.EncryptYAMLInMemory.
  destruct (crypto.createKeyGroups e) as [keys|]; [|by intros [= <- _]].
  destruct (crypto.sopsEncrypt keys data) as [enc|]; [|by intros [= <- _]].
  destruct (os.WriteFile path enc w) as [w1 [err1|]] eqn:Hw; [|discriminate].
  intros [= <- _]. by eapply WriteFile_failure.
Qed.

(** A failed [SaveEntry] leaves every file as it was. *)
Lemma SaveEntry_failure s e w w' err :
  storage.SaveEntry s e w = (w', Some err) -> files w' = files w.
Proof.
  unfold storage.SaveEntry.
  pose proof (files_MkdirAll
                (filepath.Join [storage.basePath s; storage.EntriesDir;
                                Format layoutYear (GetDate e);
                                Format layoutMonth (GetDate e)]) w) as Hmk.
  destruct (os.MkdirAll _ w) as [w1 [err1|]]; simpl in Hmk.
  - by intros [= <- _].
  - destruct (crypto.EncryptYAMLInMemory _ _ _ w1) as [w2 [err2|]] eqn:Henc;
      [|discriminate].
    intros [= <- _]. apply EncryptYAMLInMemory_failure in Henc. congruence.
Qed.

(** C5.  When [SaveEntry] fails on the entry that [Add] builds, [Add]
    returns the wrapped error and goes no further: the journal, and with it
    the in-memory index, is the one before the call (so an id that was not
    indexed is still not indexed), and no file, the persisted index
    included, has changed. *)
Theorem Add_save_failure_leaves_index
    (id : string) (now : Time) (content : string) (tags : list string)
    (j : entry.Journal) (w w1 : World) (err : error) :
  storage.SaveEntry (entry.storage j)
    (V1 (NewEntryV1 id now content tags
           (storage.GetEntryPath (entry.storage j) now id))) w
  = (w1, Some err) ->
  let '(w', j', r) := entry.Add id now content tags j w in
  r = Err (wrap "failed to save entry: " err)
  /\ w' = w1
  /\ entry.index j' = entry.index j
  /\ (Index.GetMetadata id (entry.index j) = None ->
      Index.GetMetadata id (entry.index j') = None)
  /\ files w' !! storage.indexPathOf (entry.storage j)
     = files w !! storage.indexPathOf (entry.storage j)
  /\ files w' = files w.
Proof.
  intros Hsave. pose proof (SaveEntry_failure _ _ _ _ _ Hsave) as Hfiles.
  unfold entry.Add.
  match goal with
  | |- context [storage.SaveEntry ?s ?e w] =>
      change (storage.SaveEntry s e w)
        with (storage.SaveEntry (entry.storage j)
                (V1 (NewEntryV1 id now content tags
                       (storage.GetEntryPath (entry.storage j) now id))) w)
  end.
  rewrite Hsave. repeat split; try done. by rewrite Hfiles.
Qed.

(** [Add] files the entry under the path that [GetEntryPath] gives. *)
Lemma Add_FilePath id now content tags j w w' j' e :
  entry.Add id now content tags j w = (w', j', Ok e) ->
  GetFilePath e = storage.GetEntryPath (entry.storage j) now id
  /\ GetID e = id /\ GetDate e = now.
Proof.
  unfold entry.Add.
  destruct (storage.SaveEntry _ _ w) as [w1 [err|]]; [discriminate|].
  destruct (storage.SaveIndex _ _ w1) as [w2 [err|]]; [discriminate|].
  intros [= _ _ <-]. repeat split.
Qed.

(** C9 (as amended).  The stored relative location of a record that [Add]
    creates at time [now] with the UUID string [id] is [year/month/id.yaml],
    with the four-digit year and the zero-padded two-digit month of [now]
    on the calendar of [now]'s own location. *)
Theorem Add_location_from_local_calendar
    (id : string) (now : Time) (content : string) (tags : list string)
    (j j' : entry.Journal) (w w' : World) (e : Entry) :
  isUUID id = true ->
  0 <= Year now <= 9999 ->
  entry.Add id now content tags j w = (w', j', Ok e) ->
  GetFilePath e = localLocation now id.
Proof.
  intros Hid Hy Hadd.
  destruct (Add_FilePath _ _ _ _ _ _ _ _ _ Hadd) as (-> & _ & _).
  by apply GetEntryPath_local.
Qed.

(** [Get] and [Delete] look the id up in the primary map as it is given. *)
Lemma Get_unindexed id j w :
  Index.Entries (entry.index j) !! id = None ->
  entry.Get id j w = (w, Err (errorString ("entry not found: " +:+ id)))
  /\ entry.Delete id j w
     = (w, j, Some (errorString ("entry not found: " +:+ id))).
Proof.
  intros Hid. unfold entry.Get, entry.Delete, Index.GetMetadata.
  by rewrite Hid.
Qed.


End JournalFacts.

(** ** The rotation transaction *)

Import crypto.ReEncryptResult.

Lemma attempts_paths f paths w :
  map fst (fst (attempts f paths w)) = paths.
Proof.
  revert w. induction paths as [|p paths IH]; intros w; simpl; [reflexivity|].
  destruct (f p w) as [w1 r]. specialize (IH w1).
  destruct (attempts f paths w1) as [rs w2]. simpl in *. by rewrite IH.
Qed.

Lemma successes_failures outcomes :
  successesOf outcomes
  = Z.of_nat (length outcomes) - Z.of_nat (length (failuresOf outcomes)).
Proof.
  induction outcomes as [|[p [e|]] rest IH]; simpl length; simpl successesOf;
    lia.
Qed.

Lemma length_attempts f paths w :
  length (fst (attempts f paths w)) = length paths.
Proof. by rewrite <- (attempts_paths f paths w) at 2; rewrite length_map. Qed.

(** Step 4 is the attempts, in order, their failures appended and their
    successes counted. *)
Lemma reEncryptEntries_attempts f paths w r :
  crypto.reEncryptEntries f paths w r
  = (snd (attempts f paths w),
     {| TotalFiles := TotalFiles r;
        SuccessfulFiles := SuccessfulFiles r + successesOf (fst (attempts f paths w));
        FailedFiles := FailedFiles r ++ failuresOf (fst (attempts f paths w));
        IndexSuccess := IndexSuccess r;
        IndexError := IndexError r |}).
Proof.
  unfold crypto.reEncryptEntries. revert w r.
  induction paths as [|p paths IH]; intros w r; simpl.
  - destruct r; simpl. by rewrite Z.add_0_r, app_nil_r.
  - destruct (f p w) as [w1 [e|]]; rewrite IH;
      destruct (attempts f paths w1) as [rs w2]; simpl.
    + by rewrite <- app_assoc.
    + f_equal. f_equal. lia.
Qed.

Lemma elem_of_failuresOf outcomes p e :
  crypto.FileError.mk p e ∈ failuresOf outcomes <-> (p, Some e) ∈ outcomes.
Proof.
  induction outcomes as [|[p' [e'|]] rest IH]; simpl.
  - by rewrite !elem_of_nil.
  - rewrite !elem_of_cons, IH. split; intros [Heq|?]; auto; left; congruence.
  - rewrite elem_of_cons, IH. split; [auto|]. intros [?|?]; [congruence|done].
Qed.


Lemma Stat_ok name w w' :
  os.Stat name w = (w', None) -> files w' = files w.
Proof.
  unfold os.Stat. simpl. destruct (files w !! name); [|discriminate].
  destruct (faults w (tick w)); [discriminate|]. by intros [= <-].
Qed.

Lemma ReadFile_ok name w w' data :
  os.ReadFile name w = (w', Ok data) ->
  files w' = files w /\ files w !! name = Some data.
Proof.
  unfold os.ReadFile. simpl.
  destruct (files w !! name) as [d|]; [|discriminate].
  destruct (faults w (tick w)); [discriminate|]. by intros [= <- <-].
Qed.

Lemma WriteFile_ok name data w w' :
  os.WriteFile name data w = (w', None) ->
  files w' = <[name := data]> (files w).
Proof.
  unfold os.WriteFile. simpl.
  destruct (faults w (tick w)); [discriminate|]. by intros [= <-].
Qed.

Lemma Remove_ok name w w' :
  os.Remove name w = (w', None) -> files w' = delete name (files w).
Proof.
  unfold os.Remove. simpl. destruct (files w !! name); [|discriminate].
  destruct (faults w (tick w)); [discriminate|]. by intros [= <-].
Qed.


Section TransactionFacts.
Context `{crypto.Provider}.

Lemma BackupSOPSConfig_ok journalPath w w1 bp :
  crypto.BackupSOPSConfig journalPath w = (w1, Ok bp) ->
  exists content,
    files w !! crypto.sopsConfigPath journalPath = Some content
    /\ files w1 = <[bp := content]> (files w).
Proof.
  unfold crypto.BackupSOPSConfig.
  destruct (os.Stat _ w) as [wa [e|]] eqn:Hst; [discriminate|].
  apply Stat_ok in Hst.
  destruct (os.ReadFile _ wa) as [wb [content|]] eqn:Hrd; [|discriminate].
  apply ReadFile_ok in Hrd as [Hwb Hcontent].
  destruct (os.WriteFile _ content wb) as [wc [e|]] eqn:Hwr; [discriminate|].
  apply WriteFile_ok in Hwr. intros Heq.
  exists content. split; [congruence|].
  match type of Hwr with
  | files _ = <[?k := _]> _ => replace bp with k by congruence
  end.
  replace w1 with wc by congruence. congruence.
Qed.

Lemma CreateSOPSConfig_ok journalPath recipients w w' :
  crypto.CreateSOPSConfig journalPath recipients w = (w', None) ->
  exists data,
    files w' = <[crypto.sopsConfigPath journalPath := data]> (files w).
Proof.
  unfold crypto.CreateSOPSConfig.
  destruct (length recipients =? 0)%nat; [discriminate|].
  destruct (crypto.validateAll recipients); [discriminate|].
  destruct (os.WriteFile _ _ w) as [wa [e|]] eqn:Hwr; [discriminate|].
  apply WriteFile_ok in Hwr. intros [= <-]. by eexists.
Qed.

Lemma RestoreSOPSConfig_ok journalPath bp w w' :
  crypto.RestoreSOPSConfig journalPath bp w = (w', None) ->
  exists content,
    files w !! bp = Some content
    /\ files w'
       = delete bp (<[crypto.sopsConfigPath journalPath := content]> (files w)).
Proof.
  unfold crypto.RestoreSOPSConfig.
  destruct (os.Stat _ w) as [wa [e|]] eqn:Hst; [discriminate|].
  apply Stat_ok in Hst.
  destruct (os.ReadFile _ wa) as [wb [content|]] eqn:Hrd; [|discriminate].
  apply ReadFile_ok in Hrd as [Hwb Hcontent].
  destruct (os.WriteFile _ content wb) as [wc [e|]] eqn:Hwr; [discriminate|].
  apply WriteFile_ok in Hwr.
  destruct (os.Remove _ wc) as [wd [e|]] eqn:Hrm; [discriminate|].
  apply Remove_ok in Hrm. intros [= <-].
  exists content. split; congruence.
Qed.



Variables (jp : string) (newRecipients : list string).
Variable listEntriesFunc : World -> World * result (list string).
Variable reEncryptEntryFunc : string -> World -> World * option error.
Variable reEncryptIndexFunc : World -> World * option error.

(** Steps 6 and 7 on the world and the result that steps 4 and 5 leave. *)
Lemma TransactionalReEncrypt_steps w w1 bp w2 w3 paths :
  crypto.BackupSOPSConfig jp w = (w1, Ok bp) ->
  crypto.CreateSOPSConfig jp newRecipients w1 = (w2, None) ->
  listEntriesFunc w2 = (w3, Ok paths) ->
  let outcomes := fst (attempts reEncryptEntryFunc paths w3) in
  let w4 := snd (attempts reEncryptEntryFunc paths w3) in
  let w5 := fst (reEncryptIndexFunc w4) in
  let r5 := resultOf paths outcomes (snd (reEncryptIndexFunc w4)) in
  crypto.TransactionalReEncrypt jp newRecipients listEntriesFunc
    reEncryptEntryFunc reEncryptIndexFunc w
  = if (0 <? Z.of_nat (length (FailedFiles r5))) || negb (IndexSuccess r5)
    then
      match crypto.RestoreSOPSConfig jp bp w5 with
      | (w', Some e) => (w', r5, Some (rollbackFailed e r5))
      | (w', None) => (w', r5, Some rolledBack)
      end
    else
      match crypto.RemoveBackup bp w5 with
      | (w', Some e) => (Printf (backupWarning bp e) w', r5, None)
      | (w', None) => (w', r5, None)
      end.
Proof.
  intros Hb Hc Hl. simpl.
  unfold crypto.TransactionalReEncrypt. rewrite Hb, Hc, Hl.
  rewrite reEncryptEntries_attempts. simpl.
  destruct (reEncryptIndexFunc (snd (attempts reEncryptEntryFunc paths w3)))
    as [w5 [ie|]]; reflexivity.
Qed.

(** C7.  Once the files are listed, step 4 calls the re-encryption callback
    on every file of the list once, in order, whether or not earlier ones
    failed, and the index step starts from the world the last attempt
    left; the result has [TotalFiles] the length of the list, in
    [FailedFiles] exactly the attempts that failed, each path with its
    error, and [SuccessfulFiles] the total minus the number of failures. *)
Theorem TransactionalReEncrypt_attempts_every_file w w1 bp w2 w3 paths :
  crypto.BackupSOPSConfig jp w = (w1, Ok bp) ->
  crypto.CreateSOPSConfig jp newRecipients w1 = (w2, None) ->
  listEntriesFunc w2 = (w3, Ok paths) ->
  let outcomes := fst (attempts reEncryptEntryFunc paths w3) in
  let res :=
    snd (fst (crypto.TransactionalReEncrypt jp newRecipients listEntriesFunc
                reEncryptEntryFunc reEncryptIndexFunc w)) in
  map fst outcomes = paths
  /\ crypto.reEncryptEntries reEncryptEntryFunc paths w3
       (resultOf paths [] None)
     = (snd (attempts reEncryptEntryFunc paths w3), resultOf paths outcomes None)
  /\ TotalFiles res = Z.of_nat (length paths)
  /\ FailedFiles res = failuresOf outcomes
  /\ (forall p e, crypto.FileError.mk p e ∈ FailedFiles res
                  <-> (p, Some e) ∈ outcomes)
  /\ SuccessfulFiles res = TotalFiles res - Z.of_nat (length (FailedFiles res))
  /\ IndexError res
     = snd (reEncryptIndexFunc (snd (attempts reEncryptEntryFunc paths w3))).
Proof.
  intros Hb Hc Hl outcomes res.
  assert (Hres : res = resultOf paths outcomes
                         (snd (reEncryptIndexFunc
                                 (snd (attempts reEncryptEntryFunc paths w3))))).
  { unfold res. rewrite (TransactionalReEncrypt_steps _ _ _ _ _ _ Hb Hc Hl).
    destruct (_ || _).
    - by destruct (crypto.RestoreSOPSConfig _ _ _) as [? [?|]].
    - by destruct (crypto.RemoveBackup _ _) as [? [?|]]. }
  split; [apply attempts_paths|].
  split; [by rewrite reEncryptEntries_attempts|].
  rewrite Hres. simpl. repeat split; try done.
  - apply elem_of_failuresOf.
  - apply elem_of_failuresOf.
  - rewrite successes_failures. unfold outcomes. by rewrite length_attempts.
Qed.


End TransactionFacts.

(** * More properties of the code *)

(** ** Looking up what was added *)

(** X1.  [Add] then look up: after [idx.Add(meta)] the id resolves to the
    metadata of [meta], [FindByDate] of its date and [FindByTag] of each of
    its tags return the id, and nothing that was found before is lost:
    the other ids keep their metadata and every bucket keeps its ids. *)
Theorem Add_then_find (meta : MetadataV1.t) (idx : Index.t) :
  Index.GetMetadata (MetadataV1.Id meta) (Index.Add meta idx)
  = Some (commonMetaOf meta)
  /\ MetadataV1.Id meta
     ∈ Index.FindByDate (MetadataV1.Date meta) (Index.Add meta idx)
  /\ (forall t, t ∈ MetadataV1.Tags meta ->
                MetadataV1.Id meta ∈ Index.FindByTag t (Index.Add meta idx))
  /\ (forall id, id <> MetadataV1.Id meta ->
        Index.GetMetadata id (Index.Add meta idx) = Index.GetMetadata id idx)
  /\ (forall d id, id ∈ Index.FindByDate d idx ->
                   id ∈ Index.FindByDate d (Index.Add meta idx))
  /\ (forall t id, id ∈ Index.FindByTag t idx ->
                   id ∈ Index.FindByTag t (Index.Add meta idx)).
Proof.
  unfold Index.GetMetadata, Index.FindByDate, Index.FindByTag, Index.Add.
  simpl. fold (addTags (MetadataV1.Id meta) (MetadataV1.Tags meta) (Index.ByTag idx)).
  repeat split.
  - by rewrite lookup_insert_eq.
  - rewrite bucket_insert, decide_True by done.
    apply elem_of_appendUnique. by right.
  - intros t Ht. apply elem_of_addTags. by right.
  - intros id Hne. by rewrite lookup_insert_ne.
  - intros d id Hin. rewrite bucket_insert. case_decide as Hk; [|done].
    apply elem_of_appendUnique. left. by rewrite Hk.
  - intros t id Hin. apply elem_of_addTags. by left.
Qed.

(** ** Removing *)

Lemma Remove_absent id idx :
  Index.Entries idx !! id = None -> Index.Remove id idx = idx.
Proof. intros Hnone. unfold Index.Remove. by rewrite Hnone. Qed.

Lemma Entries_Remove id idx id' :
  Index.Entries (Index.Remove id idx) !! id'
  = if decide (id = id') then None else Index.Entries idx !! id'.
Proof.
  unfold Index.Remove.
  destruct (Index.Entries idx !! id) as [meta|] eqn:Hid; simpl.
  - case_decide as Hk; [subst; apply lookup_delete_eq|by apply lookup_delete_ne].
  - case_decide as Hk; [by subst|done].
Qed.

(** X2.  On an index whose secondary maps group its entries, [Remove]
    leaves no trace of the id: no metadata, no day and no tag returns it
    any more; every other id keeps its metadata and is found under exactly
    the days and tags it was found under before. *)
Theorem Remove_leaves_no_trace id idx :
  grouped idx ->
  Index.GetMetadata id (Index.Remove id idx) = None
  /\ (forall d, id ∉ Index.FindByDate d (Index.Remove id idx))
  /\ (forall t, id ∉ Index.FindByTag t (Index.Remove id idx))
  /\ (forall id', id' <> id ->
        Index.GetMetadata id' (Index.Remove id idx) = Index.GetMetadata id' idx
        /\ (forall d, id' ∈ Index.FindByDate d (Index.Remove id idx)
                      <-> id' ∈ Index.FindByDate d idx)
        /\ (forall t, id' ∈ Index.FindByTag t (Index.Remove id idx)
                      <-> id' ∈ Index.FindByTag t idx)).
Proof.
  intros Hg. pose proof (grouped_Remove id idx Hg) as Hg'.
  unfold Index.GetMetadata, Index.FindByDate, Index.FindByTag.
  assert (Hnone : Index.Entries (Index.Remove id idx) !! id = None).
  { by rewrite Entries_Remove, decide_True. }
  split; [done|]. split; [|split].
  - intros d Hin. apply (byDate_exact _ Hg') in Hin as (m & Hm & _). congruence.
  - intros t Hin. apply (byTag_exact _ Hg') in Hin as (m & Hm & _). congruence.
  - intros id' Hne.
    assert (Hsame : Index.Entries (Index.Remove id idx) !! id'
                    = Index.Entries idx !! id').
    { by rewrite Entries_Remove, decide_False. }
    split; [done|]. split.
    + intros d. rewrite (byDate_exact _ Hg'), (byDate_exact _ Hg).
      by rewrite Hsame.
    + intros t. rewrite (byTag_exact _ Hg'), (byTag_exact _ Hg).
      by rewrite Hsame.
Qed.

(** ** Add and Remove cancel *)

Lemma appendUnique_fresh (slice : list string) id :
  id ∉ slice -> appendUnique slice id = slice ++ [id].
Proof.
  intros Hnin. unfold appendUnique.
  destruct (existsb (String.eqb id) slice) eqn:Hex; [|done].
  by apply existsb_eqb_elem_of in Hex.
Qed.

Lemma removeString_fresh (slice : list string) id :
  id ∉ slice -> removeString slice id = slice.
Proof.
  unfold removeString. induction slice as [|x l IH]; intros Hnin; [done|].
  simpl. apply not_elem_of_cons in Hnin as [Hne Hnin].
  destruct (String.eqb x id) eqn:Hx.
  - apply String.eqb_eq in Hx. congruence.
  - simpl. by rewrite IH.
Qed.

Lemma removeString_app_fresh (slice : list string) id :
  id ∉ slice -> removeString (slice ++ [id]) id = slice.
Proof.
  intros Hnin. unfold removeString. rewrite List.filter_app. simpl.
  rewrite String.eqb_refl. simpl. rewrite app_nil_r.
  by apply removeString_fresh.
Qed.

Lemma lookup_stripBucket (m : gmap string (list string)) k id k' :
  Index.stripBucket m k id !! k'
  = if decide (k = k') then
      match removeString (bucket m k) id with [] => None | l => Some l end
    else m !! k'.
Proof.
  unfold Index.stripBucket. rewrite bucket_insert, decide_True by done.
  destruct (removeString (bucket m k) id) as [|x l] eqn:Hl; simpl.
  - case_decide as Hk.
    + subst. by rewrite lookup_delete_eq.
    + by rewrite lookup_delete_ne, lookup_insert_ne.
  - case_decide as Hk.
    + subst. by rewrite lookup_insert_eq.
    + by rewrite lookup_insert_ne.
Qed.

Lemma bucket_lookup (m : gmap string (list string)) k :
  noEmpty m ->
  m !! k = match bucket m k with [] => None | l => Some l end.
Proof.
  intros Hne. unfold bucket.
  destruct (m !! k) as [l|] eqn:Hk; simpl; [|done].
  destruct l; [by apply Hne in Hk|done].
Qed.

Lemma stripBucket_insert_fresh (m : gmap string (list string)) k id :
  noEmpty m -> id ∉ bucket m k ->
  Index.stripBucket (<[k := appendUnique (bucket m k) id]> m) k id = m.
Proof.
  intros Hne Hnin. apply map_eq. intros k'.
  rewrite lookup_stripBucket, bucket_insert.
  rewrite (decide_True (P := k = k)) by done.
  rewrite appendUnique_fresh, removeString_app_fresh by done.
  case_decide as Hk.
  - subst. symmetry. by apply bucket_lookup.
  - by rewrite lookup_insert_ne.
Qed.

Lemma appendUnique_idem (slice : list string) id :
  appendUnique (appendUnique slice id) id = appendUnique slice id.
Proof.
  unfold appendUnique at 1.
  destruct (existsb _ _) eqn:Hex; [done|].
  assert (id ∈ appendUnique slice id) as Hin%existsb_eqb_elem_of
    by (apply elem_of_appendUnique; by right).
  congruence.
Qed.

Lemma removeString_idem (slice : list string) id :
  removeString (removeString slice id) id = removeString slice id.
Proof.
  apply removeString_fresh. rewrite elem_of_removeString. tauto.
Qed.

Lemma lookup_addTags id tags :
  forall byTag t,
    addTags id tags byTag !! t
    = if decide (t ∈ tags) then Some (appendUnique (bucket byTag t) id)
      else byTag !! t.
Proof.
  unfold addTags. induction tags as [|a tags IH]; intros byTag t; cbn [fold_left].
  - rewrite decide_False; [done|apply not_elem_of_nil].
  - rewrite IH. rewrite bucket_insert.
    destruct (decide (a = t)) as [->|Hne].
    + rewrite (decide_True (P := t ∈ t :: tags)) by apply list_elem_of_here.
      case_decide; [by rewrite appendUnique_idem|by rewrite lookup_insert_eq].
    + rewrite lookup_insert_ne by done.
      case_decide as Hin.
      * rewrite decide_True; [done|by apply list_elem_of_further].
      * rewrite decide_False; [done|].
        intros [?|?]%elem_of_cons; congruence.
Qed.

Lemma lookup_stripTags id tags :
  forall byTag t,
    stripTags id tags byTag !! t
    = if decide (t ∈ tags) then
        match removeString (bucket byTag t) id with [] => None | l => Some l end
      else byTag !! t.
Proof.
  unfold stripTags. induction tags as [|a tags IH]; intros byTag t; cbn [fold_left].
  - rewrite decide_False; [done|apply not_elem_of_nil].
  - rewrite IH. rewrite bucket_stripBucket, lookup_stripBucket.
    destruct (decide (a = t)) as [->|Hne].
    + rewrite (decide_True (P := t ∈ t :: tags)) by apply list_elem_of_here.
      case_decide; [by rewrite removeString_idem|done].
    + case_decide as Hin.
      * rewrite decide_True; [done|by apply list_elem_of_further].
      * rewrite decide_False; [done|].
        intros [?|?]%elem_of_cons; congruence.
Qed.

Lemma stripTags_addTags_fresh id tags byTag :
  noEmpty byTag -> (forall t, id ∉ bucket byTag t) ->
  stripTags id tags (addTags id tags byTag) = byTag.
Proof.
  intros Hne Hnin. apply map_eq. intros t.
  rewrite lookup_stripTags. case_decide as Hin.
  - unfold bucket at 1. rewrite lookup_addTags, decide_True by done. simpl.
    rewrite appendUnique_fresh, removeString_app_fresh by done.
    symmetry. by apply bucket_lookup.
  - by rewrite lookup_addTags, decide_False.
Qed.

(** X3.  [Remove] undoes [Add]: on a grouped index that does not hold the
    id, adding a record and removing its id again gives back the very same
    index, the buckets that the removal empties being deleted. *)
Theorem Remove_Add_cancel (meta : MetadataV1.t) (idx : Index.t) :
  grouped idx ->
  Index.GetMetadata (MetadataV1.Id meta) idx = None ->
  Index.Remove (MetadataV1.Id meta) (Index.Add meta idx) = idx.
Proof.
  intros Hg Hnone. unfold Index.GetMetadata in Hnone.
  assert (HnoDate : forall k, MetadataV1.Id meta ∉ bucket (Index.ByDate idx) k).
  { intros k Hin. apply (byDate_exact _ Hg) in Hin as (m & Hm & _). congruence. }
  assert (HnoTag : forall t, MetadataV1.Id meta ∉ bucket (Index.ByTag idx) t).
  { intros t Hin. apply (byTag_exact _ Hg) in Hin as (m & Hm & _). congruence. }
  unfold Index.Remove, Index.Add. simpl. rewrite lookup_insert_eq. simpl.
  fold (addTags (MetadataV1.Id meta) (MetadataV1.Tags meta) (Index.ByTag idx)).
  fold (stripTags (MetadataV1.Id meta) (MetadataV1.Tags meta)
          (addTags (MetadataV1.Id meta) (MetadataV1.Tags meta) (Index.ByTag idx))).
  rewrite stripTags_addTags_fresh by (done || apply Hg).
  rewrite stripBucket_insert_fresh by (done || apply Hg).
  rewrite delete_insert_id by done.
  by destruct idx.
Qed.

(** ** Searching by several tags *)

Lemma lookup_markAll_gen (ids : list string) :
  forall (m : gmap string bool) x,
    fold_left (fun m id => <[id := true]> m) ids m !! x
    = if decide (x ∈ ids) then Some true else m !! x.
Proof.
  induction ids as [|a ids IH]; intros m x; cbn [fold_left].
  - rewrite decide_False; [done|apply not_elem_of_nil].
  - rewrite IH. case_decide as Hin.
    + rewrite decide_True; [done|by apply list_elem_of_further].
    + destruct (decide (a = x)) as [->|Hne].
      * rewrite lookup_insert_eq, decide_True; [done|apply list_elem_of_here].
      * rewrite lookup_insert_ne by done. rewrite decide_False; [done|].
        intros [?|?]%elem_of_cons; congruence.
Qed.

Lemma lookup_markAll ids x :
  Index.markAll ids !! x = if decide (x ∈ ids) then Some true else None.
Proof. unfold Index.markAll. by rewrite lookup_markAll_gen, lookup_empty. Qed.

Lemma lookup_keepTagged idx results tag x :
  Index.keepTagged idx results tag !! x
  = if decide (x ∈ bucket (Index.ByTag idx) tag) then results !! x else None.
Proof.
  unfold Index.keepTagged.
  destruct (results !! x) as [b|] eqn:Hx.
  - case_decide as Hin.
    + apply map_lookup_filter_Some. split; [done|]. simpl.
      by rewrite lookup_markAll, decide_True.
    + apply map_lookup_filter_None. right. intros b' Hb'. simpl.
      by rewrite lookup_markAll, decide_False.
  - assert (filter (fun kv : string * bool =>
              default false (Index.markAll (bucket (Index.ByTag idx) tag) !! kv.1) = true)
              results !! x = None) as ->.
    { apply map_lookup_filter_None. by left. }
    by case_decide.
Qed.

Lemma lookup_fold_keepTagged idx rest :
  forall results x,
    fold_left (Index.keepTagged idx) rest results !! x
    = if decide (Forall (fun t => x ∈ bucket (Index.ByTag idx) t) rest)
      then results !! x else None.
Proof.
  induction rest as [|a rest IH]; intros results x; cbn [fold_left].
  - by rewrite decide_True.
  - rewrite IH, lookup_keepTagged.
    destruct (decide (Forall (fun t => x ∈ bucket (Index.ByTag idx) t) rest))
      as [Hall|Hnall].
    + case_decide as Hin.
      * rewrite decide_True; [done|by constructor].
      * rewrite decide_False; [done|]. by intros [? ?]%Forall_cons.
    + rewrite decide_False; [done|]. by intros [? ?]%Forall_cons.
Qed.

(** X4.  [FindByTags] is the conjunction of its tags: it returns nothing
    for no tags, and otherwise exactly the ids that [FindByTag] returns for
    every one of the tags, each id once. *)
Theorem FindByTags_all_tags (tags : list string) (idx : Index.t) :
  NoDup (Index.FindByTags tags idx)
  /\ forall id,
       id ∈ Index.FindByTags tags idx
       <-> tags <> [] /\ forall t, t ∈ tags -> id ∈ Index.FindByTag t idx.
Proof.
  unfold Index.FindByTags, Index.FindByTag.
  destruct tags as [|first rest].
  - split; [apply NoDup_nil_2|]. intros id. rewrite elem_of_nil. tauto.
  - split; [apply NoDup_fst_map_to_list|].
    intros id. rewrite list_elem_of_fmap.
    split.
    + intros ([k b] & -> & Hin). simpl.
      apply elem_of_map_to_list in Hin.
      rewrite lookup_fold_keepTagged in Hin.
      case_decide as Hall; [|done].
      rewrite lookup_markAll in Hin. case_decide as Hfirst; [|done].
      split; [done|]. intros t [->|Ht]%elem_of_cons; [done|].
      by eapply Forall_forall in Hall.
    + intros [_ Hall]. exists (id, true). split; [done|].
      apply elem_of_map_to_list.
      rewrite lookup_fold_keepTagged, decide_True.
      * rewrite lookup_markAll, decide_True; [done|].
        apply Hall, list_elem_of_here.
      * apply Forall_forall. intros t Ht. by apply Hall, list_elem_of_further.
Qed.

(** ** Searching by a range of dates *)






(** ** Listing the entries *)

Lemma newestFirst_total : Total entry.newestFirst.
Proof.
  intros a b. unfold entry.newestFirst, After.
  rewrite !orb_false_iff, !andb_false_iff, !Z.ltb_ge, !Z.eqb_neq. lia.
Qed.

Lemma newestFirst_trans : Transitive entry.newestFirst.
Proof.
  intros a b c. unfold entry.newestFirst, After.
  rewrite !orb_false_iff, !andb_false_iff, !Z.ltb_ge, !Z.eqb_neq. lia.
Qed.

(** X6.  [ListAll] returns the metadata of every indexed entry, each entry
    once, ordered so that no entry is followed by an entry of a later
    date. *)
Theorem ListAll_newest_first (j : entry.Journal) :
  StronglySorted entry.newestFirst (entry.ListAll j)
  /\ (forall meta,
        meta ∈ entry.ListAll j
        <-> exists id, Index.GetMetadata id (entry.index j) = Some meta)
  /\ length (entry.ListAll j) = size (Index.Entries (entry.index j)).
Proof.
  unfold entry.ListAll, Index.GetMetadata.
  split; [|split].
  - apply (@StronglySorted_merge_sort _ entry.newestFirst _
             newestFirst_trans newestFirst_total).
  - intros meta. rewrite merge_sort_Permutation, list_elem_of_fmap.
    split.
    + intros ([id m] & -> & Hin). exists id. by apply elem_of_map_to_list.
    + intros (id & Hid). exists (id, meta). split; [done|].
      by apply elem_of_map_to_list.
  - rewrite merge_sort_Permutation, length_fmap. apply length_map_to_list.
Qed.

(** ** Paths *)

Lemma slash_append (s : string) : "/" +:+ s = String "/" s.
Proof. reflexivity. Qed.

Lemma append_assoc (a b c : string) : (a +:+ b) +:+ c = a +:+ (b +:+ c).
Proof.
  induction a as [|x a IH]; [reflexivity|]. by rewrite !append_cons, IH.
Qed.

Lemma Split_nonempty sep s : strings.Split sep s <> [].
Proof.
  destruct s as [|c s]; simpl; [done|].
  destruct (Ascii.eqb c sep); [done|]. by destruct (strings.Split sep s).
Qed.

Lemma Split_app_slash a b :
  strings.Split "/" (a +:+ String "/" b)
  = strings.Split "/" a ++ strings.Split "/" b.
Proof.
  induction a as [|c a IH]; [reflexivity|].
  rewrite append_cons. simpl. rewrite IH.
  destruct (Ascii.eqb c "/"); [done|].
  pose proof (Split_nonempty "/"%char a) as Hne.
  by destruct (strings.Split "/" a).
Qed.

Lemma Split_all_noSlash s :
  Forall (fun e => noSlash e = true) (strings.Split "/" s).
Proof.
  induction s as [|c s IH]; simpl; [by repeat constructor|].
  destruct (Ascii.eqb c "/") eqn:Hc; [by constructor|].
  destruct (strings.Split "/" s) as [|x xs]; [by repeat constructor; simpl; rewrite Hc|].
  apply Forall_cons in IH as [Hx Hxs]. constructor; [|done].
  simpl. by rewrite Hc, Hx.
Qed.

Lemma Split_Join_noSlash l :
  l <> [] -> Forall (fun e => noSlash e = true) l ->
  strings.Split "/" (strings.Join "/" l) = l.
Proof.
  induction l as [|x l IH]; [done|]. intros _ [Hx Hl]%Forall_cons.
  destruct l as [|y l]; [by apply Split_noSlash|].
  change (strings.Join "/" (x :: y :: l))
    with (x +:+ String "/" (strings.Join "/" (y :: l))).
  rewrite Split_noSlash_cons by done. by rewrite IH.
Qed.

Lemma plainElem_noSlash e : plainElem e = true -> noSlash e = true.
Proof.
  unfold plainElem. by intros [[[? _]%andb_prop _]%andb_prop _]%andb_prop.
Qed.

Lemma plainElem_not_dotdot e : plainElem e = true -> String.eqb e ".." = false.
Proof.
  unfold plainElem. intros [_ H]%andb_prop. by apply negb_true_iff in H.
Qed.

Lemma okStack_nil rooted : okStack rooted [].
Proof. by apply (ok_dots rooted 0). Qed.

Lemma okStack_step rooted st e :
  noSlash e = true -> okStack rooted st ->
  okStack rooted (filepath.cleanStep rooted st e).
Proof.
  intros He Hst. unfold filepath.cleanStep.
  destruct (String.eqb e "") eqn:H0; [done|].
  destruct (String.eqb e ".") eqn:H1; [done|].
  destruct (String.eqb e "..") eqn:H2.
  - destruct Hst as [n Hn|e' st' He' Hst'].
    + destruct n as [|n]; simpl.
      * destruct rooted; [apply okStack_nil|].
        by apply (ok_dots false 1).
      * apply (ok_dots rooted (S (S n))). intros Hr. by specialize (Hn Hr).
    + by rewrite (plainElem_not_dotdot e').
  - apply ok_push; [|done]. unfold plainElem. by rewrite He, H0, H1, H2.
Qed.

Lemma okStack_fold rooted l :
  Forall (fun e => noSlash e = true) l ->
  forall st, okStack rooted st ->
             okStack rooted (fold_left (filepath.cleanStep rooted) l st).
Proof.
  induction 1 as [|e l He Hl IH]; intros st Hst; [done|].
  simpl. apply IH. by apply okStack_step.
Qed.

Lemma fold_dots n :
  forall k,
    fold_left (filepath.cleanStep false) (replicate n "..") (replicate k "..")
    = replicate (n + k) "..".
Proof.
  induction n as [|n IH]; intros k; [done|].
  replace (S n + k)%nat with (n + S k)%nat by lia. rewrite <- IH.
  cbn [replicate fold_left]. f_equal. by destruct k.
Qed.

Lemma rev_replicate {A} n (x : A) : rev (replicate n x) = replicate n x.
Proof.
  induction n as [|n IH]; [done|]. simpl. rewrite IH.
  clear IH. induction n as [|n IH]; [done|]. simpl. by rewrite IH.
Qed.

Lemma okStack_refold rooted st :
  okStack rooted st ->
  fold_left (filepath.cleanStep rooted) (rev st) [] = st.
Proof.
  induction 1 as [n Hn|e st He Hst IH].
  - rewrite rev_replicate. destruct rooted.
    + by rewrite Hn.
    + pose proof (fold_dots n 0) as Hfold. rewrite Nat.add_0_r in Hfold.
      exact Hfold.
  - simpl. rewrite fold_left_app, IH. simpl. by apply plainElem_cleanStep.
Qed.

Lemma okStack_noSlash rooted st :
  okStack rooted st -> Forall (fun e => noSlash e = true) st.
Proof.
  induction 1 as [n Hn|e st He Hst IH].
  - apply Forall_forall. by intros x [-> _]%elem_of_replicate.
  - constructor; [by apply plainElem_noSlash|done].
Qed.

Lemma okStack_not_empty rooted st :
  okStack rooted st -> Forall (fun e => e <> "") st.
Proof.
  induction 1 as [n Hn|e st He Hst IH].
  - apply Forall_forall. by intros x [-> _]%elem_of_replicate.
  - constructor; [|done]. intros ->. done.
Qed.

Lemma fold_Split_rendered rooted st :
  okStack rooted st ->
  fold_left (filepath.cleanStep rooted)
            (strings.Split "/" (rendered rooted st)) []
  = st.
Proof.
  intros Hst. pose proof (okStack_refold rooted st Hst) as Hre.
  assert (Hns : Forall (fun e => noSlash e = true) (rev st)).
  { apply Forall_forall. intros x Hx%list_elem_of_In%in_rev%list_elem_of_In.
    pose proof (okStack_noSlash rooted st Hst) as Hall.
    by eapply Forall_forall in Hall. }
  unfold rendered. destruct rooted.
  - rewrite slash_append.
    change (strings.Split "/" (String "/" (strings.Join "/" (rev st))))
      with ("" :: strings.Split "/" (strings.Join "/" (rev st))).
    destruct (rev st) as [|x l] eqn:Hrev.
    + simpl. simpl in Hre. done.
    + rewrite Split_Join_noSlash by done. simpl. exact Hre.
  - destruct (rev st) as [|x l] eqn:Hrev.
    + simpl. simpl in Hre. done.
    + rewrite Split_Join_noSlash by done. exact Hre.
Qed.

Lemma prefix_slash_cons c s :
  String.prefix "/" (String c s) = Ascii.eqb c "/".
Proof.
  cbn [String.prefix]. destruct (ascii_dec "/" c) as [<-|Hne].
  - by destruct s.
  - symmetry. apply Ascii.eqb_neq. congruence.
Qed.

Lemma prefix_append p q :
  p <> "" -> String.prefix "/" (p +:+ q) = String.prefix "/" p.
Proof.
  destruct p as [|c p]; [done|]. intros _.
  by rewrite append_cons, !prefix_slash_cons.
Qed.

Lemma Join_head x l :
  strings.Join "/" (x :: l) = x \/ exists r, strings.Join "/" (x :: l) = x +:+ String "/" r.
Proof.
  destruct l as [|y l]; [by left|]. right. by eexists.
Qed.

Lemma prefix_rendered rooted st q :
  okStack rooted st ->
  String.prefix "/" (rendered rooted st +:+ q) = rooted.
Proof.
  intros Hst. unfold rendered. destruct rooted.
  - by rewrite slash_append, append_cons, prefix_slash_cons.
  - destruct (rev st) as [|x l] eqn:Hrev.
    + by rewrite append_cons, prefix_slash_cons.
    + assert (Hx : x ∈ st).
      { apply list_elem_of_In, in_rev. rewrite Hrev. by left. }
      pose proof (okStack_noSlash _ _ Hst) as Hns.
      pose proof (okStack_not_empty _ _ Hst) as Hne.
      eapply Forall_forall in Hns; [|exact Hx].
      eapply Forall_forall in Hne; [|exact Hx].
      destruct x as [|c x]; [done|].
      simpl in Hns. apply andb_prop in Hns as [Hc _].
      apply negb_true_iff in Hc.
      destruct (Join_head (String c x) l) as [->|[r ->]];
        by rewrite !append_cons, prefix_slash_cons.
Qed.

Lemma append_not_empty (p q : string) c : p +:+ String c q <> "".
Proof. by destruct p. Qed.

Lemma Clean_rendered p :
  p <> "" ->
  filepath.Clean p
  = rendered (String.prefix "/" p)
      (fold_left (filepath.cleanStep (String.prefix "/" p))
                 (strings.Split "/" p) []).
Proof.
  intros Hp. unfold filepath.Clean, rendered.
  destruct (String.eqb p "") eqn:Heq; [by apply String.eqb_eq in Heq|].
  done.
Qed.

(** Cleaning a directory before a path is appended to it changes nothing of
    the cleaned whole. *)
Lemma Clean_Clean_slash p q :
  p <> "" ->
  filepath.Clean (filepath.Clean p +:+ String "/" q)
  = filepath.Clean (p +:+ String "/" q).
Proof.
  intros Hp.
  set (r := String.prefix "/" p).
  set (st := fold_left (filepath.cleanStep r) (strings.Split "/" p) []).
  assert (Hst : okStack r st).
  { apply okStack_fold; [apply Split_all_noSlash|apply okStack_nil]. }
  rewrite (Clean_rendered p) by done. fold r st.
  rewrite !Clean_rendered by apply append_not_empty.
  rewrite prefix_rendered by done.
  rewrite prefix_append by done. fold r.
  rewrite !Split_app_slash, !fold_left_app.
  rewrite fold_Split_rendered by done. done.
Qed.

Lemma Clean_not_empty p : filepath.Clean p <> "".
Proof.
  destruct (decide (p = "")) as [->|Hp]; [done|].
  rewrite Clean_rendered by done.
  set (r := String.prefix "/" p).
  set (st := fold_left (filepath.cleanStep r) (strings.Split "/" p) []).
  assert (Hst : okStack r st).
  { apply okStack_fold; [apply Split_all_noSlash|apply okStack_nil]. }
  intros Hempty.
  pose proof (prefix_rendered r st "x" Hst) as Hpre.
  rewrite Hempty in Hpre. simpl in Hpre.
  destruct r; [done|].
  unfold rendered in Hempty. destruct (rev st) as [|x l] eqn:Hrev; [done|].
  assert (Hx : x ∈ st).
  { apply list_elem_of_In, in_rev. rewrite Hrev. by left. }
  pose proof (okStack_not_empty _ _ Hst) as Hne.
  eapply Forall_forall in Hne; [|exact Hx].
  destruct (Join_head x l) as [Heq|[r' Heq]]; rewrite Heq in Hempty.
  - done.
  - by apply append_not_empty in Hempty.
Qed.

(** The file [SaveEntry] writes is the file that [LoadEntry] and
    [DeleteEntry] resolve from the relative path of [GetEntryPath]. *)
Lemma entry_paths_agree (bp y m f : string) :
  plainElem y = true -> plainElem m = true -> plainElem f = true ->
  filepath.Join [filepath.Join [bp; "entries"; y; m]; f]
  = filepath.Join [bp; "entries"; filepath.Join [y; m; f]].
Proof.
  intros Hy Hm Hf. rewrite (Join_three_plain y m f) by done.
  assert (Hstep : forall p,
            p <> "" ->
            filepath.Join [filepath.Clean p; f]
            = filepath.Clean (p +:+ String "/" f)).
  { intros p Hp. unfold filepath.Join.
    destruct (String.eqb (filepath.Clean p) "") eqn:Heq.
    - apply String.eqb_eq in Heq. by apply Clean_not_empty in Heq.
    - change (strings.Join "/" [filepath.Clean p; f])
        with (filepath.Clean p +:+ String "/" f).
      by apply Clean_Clean_slash. }
  destruct (String.eqb bp "") eqn:Hbp.
  - apply String.eqb_eq in Hbp. subst bp.
    change (filepath.Join [""; "entries"; y; m])
      with (filepath.Clean ("entries" +:+ String "/" (y +:+ String "/" m))).
    change (filepath.Join [""; "entries"; y +:+ "/" +:+ m +:+ "/" +:+ f])
      with (filepath.Clean
              ("entries" +:+ String "/" (y +:+ "/" +:+ m +:+ "/" +:+ f))).
    rewrite Hstep by done. f_equal.
    by repeat first [rewrite append_assoc | rewrite append_cons
                    | rewrite append_empty_l].
  - assert (Hj4 : filepath.Join [bp; "entries"; y; m]
                  = filepath.Clean
                      (bp +:+ String "/" ("entries" +:+ String "/" (y +:+ String "/" m)))).
    { unfold filepath.Join. by rewrite Hbp. }
    assert (Hj3 : filepath.Join [bp; "entries"; y +:+ "/" +:+ m +:+ "/" +:+ f]
                  = filepath.Clean
                      (bp +:+ String "/"
                         ("entries" +:+ String "/" (y +:+ "/" +:+ m +:+ "/" +:+ f)))).
    { unfold filepath.Join. by rewrite Hbp. }
    rewrite Hj4, Hj3, Hstep by apply append_not_empty. f_equal.
    by repeat first [rewrite append_assoc | rewrite append_cons
                    | rewrite append_empty_l].
Qed.

Lemma okStack_stackOf rooted p : okStack rooted (stackOf rooted p).
Proof. apply okStack_fold; [apply Split_all_noSlash|apply okStack_nil]. Qed.

Lemma okStack_baseStack bp : okStack (baseRooted bp) (baseStack bp).
Proof.
  unfold baseRooted, baseStack. destruct (String.eqb bp "").
  - apply okStack_nil.
  - apply okStack_stackOf.
Qed.

Lemma fold_plain rooted fs :
  Forall (fun f => plainElem f = true) fs ->
  forall st, fold_left (filepath.cleanStep rooted) fs st = rev fs ++ st.
Proof.
  induction 1 as [|f fs Hf Hfs IH]; intros st; [done|].
  simpl. rewrite plainElem_cleanStep by done. rewrite IH.
  by rewrite <- app_assoc.
Qed.

Lemma okStack_plain rooted fs st :
  Forall (fun f => plainElem f = true) fs -> okStack rooted st ->
  okStack rooted (fs ++ st).
Proof.
  induction 1 as [|f fs Hf Hfs IH]; intros Hst; [done|].
  simpl. apply ok_push; [done|]. by apply IH.
Qed.

Lemma rendered_inj rooted st1 st2 :
  okStack rooted st1 -> okStack rooted st2 ->
  rendered rooted st1 = rendered rooted st2 -> st1 = st2.
Proof.
  intros H1 H2 Heq.
  rewrite <- (fold_Split_rendered rooted st1 H1).
  rewrite <- (fold_Split_rendered rooted st2 H2).
  by rewrite Heq.
Qed.

Lemma Join_not_empty x l : x <> "" -> strings.Join "/" (x :: l) <> "".
Proof.
  intros Hx. destruct (Join_head x l) as [->|[r ->]]; [done|].
  apply append_not_empty.
Qed.

(** A directory joined with plain elements: the elements are pushed onto
    the stack of the directory. *)
Lemma Join_under bp fs :
  fs <> [] -> Forall (fun f => plainElem f = true) fs ->
  filepath.Join (bp :: fs)
  = rendered (baseRooted bp) (rev fs ++ baseStack bp).
Proof.
  intros Hne Hfs.
  assert (Hns : Forall (fun e => noSlash e = true) fs).
  { eapply Forall_impl; [exact Hfs|]. apply plainElem_noSlash. }
  unfold baseRooted, baseStack. cbn [filepath.Join].
  destruct (String.eqb bp "") eqn:Hbp.
  - destruct fs as [|f fs]; [done|].
    apply Forall_cons in Hfs as [Hf Hfs].
    assert (Hf0 : f <> "") by (intros ->; done).
    cbn [filepath.Join]. rewrite (eqb_empty_false f Hf0).
    rewrite Clean_rendered by (by apply Join_not_empty).
    assert (Hpre : String.prefix "/" (strings.Join "/" (f :: fs)) = false).
    { destruct f as [|c f]; [done|].
      apply plainElem_noSlash in Hf. simpl in Hf.
      apply andb_prop in Hf as [Hc _]. apply negb_true_iff in Hc.
      destruct (Join_head (String c f) fs) as [->|[r ->]];
        by rewrite ?append_cons, prefix_slash_cons. }
    rewrite Hpre, Split_Join_noSlash by done.
    rewrite fold_plain by (by constructor). done.
  - assert (Hbp0 : bp <> "") by (by apply String.eqb_neq).
    destruct fs as [|f fs]; [done|].
    change (strings.Join "/" (bp :: f :: fs))
      with (bp +:+ String "/" (strings.Join "/" (f :: fs))).
    rewrite Clean_rendered by apply append_not_empty.
    rewrite prefix_append by done.
    rewrite Split_app_slash, fold_left_app.
    rewrite Split_Join_noSlash by done.
    by rewrite fold_plain.
Qed.

Lemma Join_entry_file bp y m f :
  plainElem y = true -> plainElem m = true -> plainElem f = true ->
  filepath.Join [bp; "entries"; filepath.Join [y; m; f]]
  = filepath.Join [bp; "entries"; y; m; f].
Proof.
  intros Hy Hm Hf. rewrite (Join_three_plain y m f) by done.
  cbn [filepath.Join]. destruct (String.eqb bp ""); reflexivity.
Qed.

(** The index file is not the file of any entry. *)
Lemma index_entry_paths_differ bp y m f :
  plainElem y = true -> plainElem m = true -> plainElem f = true ->
  filepath.Join [bp; "index.yaml"]
  <> filepath.Join [bp; "entries"; filepath.Join [y; m; f]].
Proof.
  intros Hy Hm Hf. rewrite Join_entry_file by done.
  rewrite (Join_under bp ["index.yaml"]) by (done || by repeat constructor).
  rewrite (Join_under bp ["entries"; y; m; f])
    by (done || by repeat constructor).
  intros Heq. apply rendered_inj in Heq.
  - apply (f_equal length) in Heq. simpl in Heq. lia.
  - apply okStack_plain; [by repeat constructor|apply okStack_baseStack].
  - apply okStack_plain; [by repeat constructor|apply okStack_baseStack].
Qed.

(** ** Files written and read back *)

Section StorageFacts.
Context `{yaml.TextLayer} `{crypto.Provider} `{storage.IndexCodec}.

Lemma keyGroupOf_ok rs kg : crypto.keyGroupOf rs = Ok kg -> kg = rs.
Proof.
  revert kg. induction rs as [|r rs IH]; intros kg; simpl.
  - by intros [= <-].
  - destruct (crypto.ParseX25519Recipient r); [done|].
    destruct (crypto.keyGroupOf rs) as [kg'|]; [|done].
    intros [= <-]. by rewrite (IH kg').
Qed.

Lemma createKeyGroups_ok e kg :
  crypto.createKeyGroups e = Ok kg -> kg = crypto.recipients e.
Proof.
  unfold crypto.createKeyGroups.
  destruct (crypto.keyGroupOf (crypto.recipients e)) as [kg'|] eqn:Hkg; [|done].
  apply keyGroupOf_ok in Hkg. subst kg'.
  destruct (crypto.recipients e); [done|]. by intros [= <-].
Qed.

Lemma EncryptYAMLInMemory_ok e data path w w' :
  crypto.EncryptYAMLInMemory e data path w = (w', None) ->
  exists c, crypto.sopsEncrypt (crypto.recipients e) data = Ok c
            /\ files w' = <[path := c]> (files w).
Proof.
  unfold crypto.EncryptYAMLInMemory.
  destruct (crypto.createKeyGroups e) as [kg|] eqn:Hkg; [|done].
  apply createKeyGroups_ok in Hkg. subst kg.
  destruct (crypto.sopsEncrypt _ data) as [c|]; [|done].
  destruct (os.WriteFile path c w) as [w1 [err|]] eqn:Hw; [done|].
  intros [= <-]. exists c. split; [done|]. by apply WriteFile_ok in Hw.
Qed.

Lemma SaveEntry_ok s e w w' :
  storage.SaveEntry s e w = (w', None) ->
  exists c,
    crypto.sopsEncrypt (crypto.recipients (storage.encryptor s))
                       (storage.MarshalEntry e) = Ok c
    /\ files w'
       = <[filepath.Join
             [filepath.Join [storage.basePath s; storage.EntriesDir;
                             Format layoutYear (GetDate e);
                             Format layoutMonth (GetDate e)];
              GetID e +:+ ".yaml"] := c]> (files w).
Proof.
  unfold storage.SaveEntry.
  pose proof (files_MkdirAll
                (filepath.Join [storage.basePath s; storage.EntriesDir;
                                Format layoutYear (GetDate e);
                                Format layoutMonth (GetDate e)]) w) as Hmk.
  destruct (os.MkdirAll _ w) as [w1 [err|]]; [done|]. simpl in Hmk.
  destruct (crypto.EncryptYAMLInMemory _ _ _ w1) as [w2 [err|]] eqn:He; [done|].
  intros [= <-]. apply EncryptYAMLInMemory_ok in He as (c & Hc & Hf).
  exists c. split; [done|]. by rewrite Hf, Hmk.
Qed.

Lemma SaveIndex_ok s idx w w' :
  storage.SaveIndex s idx w = (w', None) ->
  exists c,
    crypto.sopsEncrypt (crypto.recipients (storage.encryptor s))
                       (storage.marshalIndex idx) = Ok c
    /\ files w' = <[storage.indexPathOf s := c]> (files w).
Proof.
  unfold storage.SaveIndex.
  destruct (crypto.EncryptYAMLInMemory _ _ _ w) as [w2 [err|]] eqn:He; [done|].
  intros [= <-]. by apply EncryptYAMLInMemory_ok in He.
Qed.

Lemma callsOk_next n w : callsOk (S n) w -> faults w (tick w) = false.
Proof. intros Hok. rewrite <- (Nat.add_0_r (tick w)). apply Hok. lia. Qed.

Lemma callsOk_syscall n w : callsOk (S n) w -> callsOk n (snd (os.syscall w)).
Proof.
  intros Hok k Hk. simpl.
  replace (S (tick w + k))%nat with (tick w + S k)%nat by lia.
  apply Hok. lia.
Qed.

Lemma ReadFile_present name w data n :
  files w !! name = Some data -> callsOk (S n) w ->
  os.ReadFile name w = (snd (os.syscall w), Ok data).
Proof.
  intros Hf Hok. unfold os.ReadFile, os.syscall. simpl.
  by rewrite Hf, (callsOk_next n w Hok).
Qed.

Lemma Stat_present name w data n :
  files w !! name = Some data -> callsOk (S n) w ->
  os.Stat name w = (snd (os.syscall w), None).
Proof.
  intros Hf Hok. unfold os.Stat, os.syscall. simpl.
  by rewrite Hf, (callsOk_next n w Hok).
Qed.

Lemma DecryptFile_present e path w c data n :
  files w !! path = Some c -> callsOk (S n) w ->
  crypto.sopsDecrypt c = Ok data ->
  crypto.DecryptFile e path w = (snd (os.syscall w), Ok data).
Proof.
  intros Hf Hok Hd. unfold crypto.DecryptFile.
  by rewrite (ReadFile_present path w c n Hf Hok), Hd.
Qed.

Lemma ParseYaml_Marshal (r : EntryV1.t) :
  validRecord r -> yamlReadsBack r ->
  ParseYaml (MarshalEntryV1 r) = Ok (V1 r).
Proof.
  intros (Hv & Hid & Hdate) Hparse. unfold yamlReadsBack in Hparse.
  unfold ParseYaml, UnmarshalVersionDetector, UnmarshalEntryV1, MarshalEntryV1.
  rewrite Hparse, detect_encodeEntryV1, decode_encodeEntryV1. simpl.
  rewrite Hv. simpl. rewrite (eqb_empty_false _ Hid), Hdate. reflexivity.
Qed.

Lemma Format_plain date :
  0 <= Year date <= 9999 ->
  plainElem (Format layoutYear date) = true
  /\ plainElem (Format layoutMonth date) = true.
Proof.
  intros Hy. unfold Format, layoutYear, layoutMonth. simpl.
  rewrite !append_empty_r.
  destruct (appendInt_year _ Hy) as [-> Hyp].
  pose proof (Month_range date) as Hm.
  destruct (appendInt_month (Month date) ltac:(lia)) as [-> Hmp].
  done.
Qed.

Lemma SaveEntry_file s date id :
  0 <= Year date <= 9999 -> noSlash id = true ->
  filepath.Join
    [filepath.Join [storage.basePath s; storage.EntriesDir;
                    Format layoutYear date; Format layoutMonth date];
     id +:+ ".yaml"]
  = entryFile s date id.
Proof.
  intros Hy Hid. destruct (Format_plain date Hy) as [Hyp Hmp].
  unfold entryFile, storage.GetEntryPath, storage.EntriesDir.
  apply entry_paths_agree; [done|done|by apply plainElem_yaml].
Qed.

Lemma index_not_entryFile s date id :
  0 <= Year date <= 9999 -> noSlash id = true ->
  storage.indexPathOf s <> entryFile s date id.
Proof.
  intros Hy Hid. destruct (Format_plain date Hy) as [Hyp Hmp].
  unfold entryFile, storage.GetEntryPath, storage.indexPathOf,
    storage.EntriesDir, storage.IndexFileName.
  apply index_entry_paths_differ; [done|done|by apply plainElem_yaml].
Qed.

Lemma SaveEntry_saved s (e : EntryV1.t) w w1 :
  storage.SaveEntry s (V1 e) w = (w1, None) ->
  0 <= Year (EntryV1.Date e) <= 9999 -> noSlash (EntryV1.Id e) = true ->
  exists c,
    crypto.sopsEncrypt (crypto.recipients (storage.encryptor s))
                       (MarshalEntryV1 e) = Ok c
    /\ files w1 = <[entryFile s (EntryV1.Date e) (EntryV1.Id e) := c]> (files w).
Proof.
  intros Hsave Hy Hid.
  apply SaveEntry_ok in Hsave as (c & Hc & Hfiles).
  pose proof (SaveEntry_file s (EntryV1.Date e) (EntryV1.Id e) Hy Hid) as Hpath.
  exists c. split; [exact Hc|]. rewrite <- Hpath. exact Hfiles.
Qed.

Lemma LoadEntry_saved s (e : EntryV1.t) w c :
  validRecord e -> yamlReadsBack e ->
  files w !! entryFile s (EntryV1.Date e) (EntryV1.Id e) = Some c ->
  crypto.sopsDecrypt c = Ok (MarshalEntryV1 e) ->
  callsOk 1 w ->
  storage.LoadEntry s (EntryV1.Id e)
    (storage.GetEntryPath s (EntryV1.Date e) (EntryV1.Id e)) w
  = (snd (os.syscall w), Ok (V1 e)).
Proof.
  intros Hvalid Hyaml Hfile Hdec Hok.
  unfold storage.LoadEntry. fold (entryFile s (EntryV1.Date e) (EntryV1.Id e)).
  rewrite (DecryptFile_present _ _ w c (MarshalEntryV1 e) 0 Hfile Hok Hdec).
  by rewrite ParseYaml_Marshal.
Qed.

Lemma LoadIndex_saved s idx w c :
  indexReadsBack idx ->
  files w !! storage.indexPathOf s = Some c ->
  crypto.sopsDecrypt c = Ok (storage.marshalIndex idx) ->
  callsOk 2 w ->
  storage.LoadIndex s w = (snd (os.syscall (snd (os.syscall w))), Ok idx).
Proof.
  intros Hidx Hfile Hdec Hok. unfold storage.LoadIndex.
  rewrite (Stat_present _ w c 1 Hfile Hok).
  unfold storage.DecryptYAMLIndex.
  rewrite (DecryptFile_present _ _ (snd (os.syscall w)) c
             (storage.marshalIndex idx) 0 Hfile (callsOk_syscall 1 w Hok) Hdec).
  by rewrite Hidx.
Qed.

(** X7.  What [SaveEntry] writes, [LoadEntry] reads back: after a
    successful save of a valid record whose id has no slash, loading the
    id from the relative path of [GetEntryPath] returns the record, in any
    later state in which the file is as it was written and the read does
    not fail, provided the keys at hand decrypt for the store's recipients
    and the YAML library reads back its text. *)
Theorem SaveEntry_LoadEntry_roundtrip
    (s : storage.Storage) (e : EntryV1.t) (w w1 w2 : World) :
  validRecord e ->
  noSlash (EntryV1.Id e) = true ->
  0 <= Year (EntryV1.Date e) <= 9999 ->
  yamlReadsBack e ->
  canDecrypt s ->
  storage.SaveEntry s (V1 e) w = (w1, None) ->
  files w2 !! entryFile s (EntryV1.Date e) (EntryV1.Id e)
  = files w1 !! entryFile s (EntryV1.Date e) (EntryV1.Id e) ->
  callsOk 1 w2 ->
  exists w3,
    storage.LoadEntry s (EntryV1.Id e)
      (storage.GetEntryPath s (EntryV1.Date e) (EntryV1.Id e)) w2
    = (w3, Ok (V1 e))
    /\ files w3 = files w2.
Proof.
  intros Hvalid Hid Hy Hyaml Hdec Hsave Hsame Hok.
  apply SaveEntry_saved in Hsave as (c & Hc & Hfiles); [|done|done].
  rewrite Hfiles, lookup_insert_eq in Hsame.
  exists (snd (os.syscall w2)). split; [|done].
  apply (LoadEntry_saved s e w2 c); try done. by apply Hdec.
Qed.


(** ** The journal on its store *)

Lemma isUUID_not_empty id : isUUID id = true -> id <> "".
Proof. by intros Hid ->. Qed.

Lemma GetMetadata_Add (meta : MetadataV1.t) idx id :
  Index.GetMetadata id (Index.Add meta idx)
  = if decide (MetadataV1.Id meta = id) then Some (commonMetaOf meta)
    else Index.GetMetadata id idx.
Proof.
  unfold Index.GetMetadata, Index.Add. simpl. case_decide as Hid.
  - subst id. apply lookup_insert_eq.
  - by apply lookup_insert_ne.
Qed.

Lemma Add_ok id now content tags j w w' j' e :
  entry.Add id now content tags j w = (w', j', Ok e) ->
  let r := NewEntryV1 id now content tags
             (storage.GetEntryPath (entry.storage j) now id) in
  e = V1 r
  /\ j' = entry.setIndex (Index.Add (EntryV1.Meta r) (entry.index j)) j
  /\ exists w1,
       storage.SaveEntry (entry.storage j) (V1 r) w = (w1, None)
       /\ storage.SaveIndex (entry.storage j) (entry.index j') w1 = (w', None).
Proof.
  unfold entry.Add. cbn zeta.
  change ({| EntryV1.Meta := _; EntryV1.Content := _ |})
    with (NewEntryV1 id now content tags
            (storage.GetEntryPath (entry.storage j) now id)).
  destruct (storage.SaveEntry _ _ w) as [w1 [err|]] eqn:Hsave; [done|].
  destruct (storage.SaveIndex _ _ w1) as [w2 [err|]] eqn:Hidx; [done|].
  intros [= <- <- <-]. split; [done|]. split; [done|]. by exists w1.
Qed.

(** X9.  What [Add] stores, [Get] returns: after a successful [Add] the
    entry carries the given id, time, content and tags, version 1 and the
    relative path of [GetEntryPath], and [Get] of the id on the new journal
    returns the same entry, provided the read does not fail, the keys at
    hand decrypt for the store's recipients and the YAML library reads
    back its text. *)
Theorem Add_then_Get
    (id : string) (now : Time) (content : string) (tags : list string)
    (j j1 : entry.Journal) (w w1 : World) (e : Entry) :
  isUUID id = true ->
  0 <= Year now <= 9999 ->
  IsZero now = false ->
  yamlReadsBack (NewEntryV1 id now content tags
                   (storage.GetEntryPath (entry.storage j) now id)) ->
  canDecrypt (entry.storage j) ->
  entry.Add id now content tags j w = (w1, j1, Ok e) ->
  callsOk 1 w1 ->
  e = V1 (NewEntryV1 id now content tags
            (storage.GetEntryPath (entry.storage j) now id))
  /\ exists w2, entry.Get id j1 w1 = (w2, Ok e) /\ files w2 = files w1.
Proof.
  intros Hid Hy Hz Hyaml Hdec Hadd Hok.
  apply Add_ok in Hadd as (-> & -> & w0 & Hsave & Hidx).
  split; [done|].
  set (r := NewEntryV1 id now content tags
              (storage.GetEntryPath (entry.storage j) now id)) in *.
  pose proof (matchesShape_noSlash _ _ Hid) as Hns.
  assert (Hvalid : validRecord r).
  { split; [done|]. split; [by apply isUUID_not_empty|done]. }
  apply SaveIndex_ok in Hidx as (c & _ & Hfiles).
  apply SaveEntry_saved in Hsave as (ce & Hce & Hfiles0); [|done|done].
  assert (Hfile : files w1 !! entryFile (entry.storage j) now id = Some ce).
  { rewrite Hfiles, lookup_insert_ne by (by apply index_not_entryFile).
    change (entryFile (entry.storage j) now id)
      with (entryFile (entry.storage j) (EntryV1.Date r) (EntryV1.Id r)).
    by rewrite Hfiles0, lookup_insert_eq. }
  exists (snd (os.syscall w1)). split; [|done].
  assert (Hload' :
    storage.LoadEntry (entry.storage j) id
      (storage.GetEntryPath (entry.storage j) now id) w1
    = (snd (os.syscall w1), Ok (V1 r))).
  { apply (LoadEntry_saved (entry.storage j) r w1 ce); try done.
    by apply Hdec. }
  assert (Hlook :
    Index.GetMetadata id
      (entry.index (entry.setIndex
                      (Index.Add (EntryV1.Meta r) (entry.index j)) j))
    = Some {| Metadata.Id := id; Metadata.Date := now; Metadata.Tags := tags;
              Metadata.FilePath :=
                storage.GetEntryPath (entry.storage j) now id |}).
  { unfold Index.GetMetadata, Index.Add. simpl. apply lookup_insert_eq. }
  unfold entry.Get. rewrite Hlook.
  cbn [Metadata.FilePath entry.storage entry.setIndex].
  by rewrite Hload'.
Qed.


(** X11.  A successful [Delete] removes the entry from the index in memory
    and its file from disk, and writes the shrunk index: the files are
    those before the call without the entry file and with the index file
    holding the encryption of the new index; a later [Get] of the id
    answers that the entry is not found. *)
Theorem Delete_removes_entry
    (id : string) (j : entry.Journal) (w w1 w2 : World) (meta : Metadata.t) :
  Index.GetMetadata id (entry.index j) = Some meta ->
  storage.DeleteEntry (entry.storage j) (Metadata.FilePath meta) w
  = (w1, None) ->
  storage.SaveIndex (entry.storage j) (Index.Remove id (entry.index j)) w1
  = (w2, None) ->
  let '(w', j', r) := entry.Delete id j w in
  r = None
  /\ w' = w2
  /\ entry.index j' = Index.Remove id (entry.index j)
  /\ Index.GetMetadata id (entry.index j') = None
  /\ (exists c,
        crypto.sopsEncrypt
          (crypto.recipients (storage.encryptor (entry.storage j)))
          (storage.marshalIndex (entry.index j')) = Ok c
        /\ files w'
           = <[storage.indexPathOf (entry.storage j) := c]>
               (delete (filepath.Join [storage.basePath (entry.storage j);
                                       storage.EntriesDir;
                                       Metadata.FilePath meta])
                       (files w)))
  /\ entry.Get id j' w'
     = (w', Err (errorString ("entry not found: " +:+ id))).
Proof.
  intros Hmeta Hdel Hidx. unfold entry.Delete. rewrite Hmeta, Hdel.
  cbn [entry.setIndex entry.storage entry.index]. rewrite Hidx.
  assert (Hnone : Index.GetMetadata id (Index.Remove id (entry.index j)) = None).
  { unfold Index.GetMetadata. by rewrite Entries_Remove, decide_True. }
  split; [done|]. split; [done|]. split; [done|]. split; [done|]. split.
  - apply SaveIndex_ok in Hidx as (c & Hc & Hfiles).
    exists c. split; [done|]. rewrite Hfiles. f_equal.
    unfold storage.DeleteEntry in Hdel.
    destruct (os.Remove _ w) as [w3 [e3|]] eqn:Hrm; [done|].
    injection Hdel as <-. by apply Remove_ok in Hrm.
  - unfold entry.Get, entry.setIndex. cbn [entry.index]. by rewrite Hnone.
Qed.

(** X12.  An entry whose file is missing cannot be deleted: [Delete]
    fails on the removal of the file and leaves the journal and the files
    as they were, so the index keeps the entry. *)
Theorem Delete_missing_file_keeps_entry
    (id : string) (j : entry.Journal) (w : World) (meta : Metadata.t) :
  Index.GetMetadata id (entry.index j) = Some meta ->
  files w !! filepath.Join [storage.basePath (entry.storage j);
                            storage.EntriesDir; Metadata.FilePath meta]
  = None ->
  let '(w', j', r) := entry.Delete id j w in
  r = Some (wrap "failed to delete entry: "
              (wrap "failed to delete entry file: "
                 (PathError "remove"
                    (filepath.Join [storage.basePath (entry.storage j);
                                    storage.EntriesDir;
                                    Metadata.FilePath meta]) true)))
  /\ j' = j
  /\ files w' = files w
  /\ Index.GetMetadata id (entry.index j') = Some meta.
Proof.
  intros Hmeta Hnone. unfold entry.Delete. rewrite Hmeta.
  unfold storage.DeleteEntry.
  set (p := filepath.Join [storage.basePath (entry.storage j);
                           storage.EntriesDir; Metadata.FilePath meta]) in *.
  unfold os.Remove, os.syscall. cbn [files]. rewrite Hnone. done.
Qed.

(** X13.  [Update] replaces the content and the tags: on success the
    returned entry has the new content and tags and is otherwise the
    stored one; when the stored record carries the id asked for and the
    index groups its entries, the new index still does, the entry is found
    under exactly its new tags, and the other entries are untouched. *)
Theorem Update_replaces_tags
    (id content : string) (tags : list string)
    (j j1 : entry.Journal) (w w1 : World) (e : EntryV1.t) :
  grouped (entry.index j) ->
  entry.Update id content tags j w = (w1, j1, Ok (V1 e)) ->
  EntryV1.Id e = id ->
  EntryV1.Content e = content
  /\ EntryV1.Tags e = tags
  /\ (exists meta old w0,
        Index.GetMetadata id (entry.index j) = Some meta
        /\ storage.LoadEntry (entry.storage j) id (Metadata.FilePath meta) w
           = (w0, Ok (V1 old))
        /\ e = updated old content tags)
  /\ grouped (entry.index j1)
  /\ (forall t, id ∈ Index.FindByTag t (entry.index j1) <-> t ∈ tags)
  /\ (forall id', id' <> id ->
        Index.GetMetadata id' (entry.index j1)
        = Index.GetMetadata id' (entry.index j)).
Proof.
  intros Hg Hupd Hide. unfold entry.Update in Hupd.
  destruct (Index.GetMetadata id (entry.index j)) as [meta|] eqn:Hmeta; [|done].
  destruct (storage.LoadEntry _ id _ w) as [w0 [[old]|err]] eqn:Hload; [|done].
  fold (updated old content tags) in Hupd.
  destruct (storage.SaveEntry _ _ w0) as [w2 [err|]] eqn:Hsave; [done|].
  cbn [entry.setIndex entry.storage entry.index] in Hupd.
  destruct (storage.SaveIndex _ _ w2) as [w3 [err|]] eqn:Hidx; [done|].
  injection Hupd as Hw Hj He.
  set (new := EntryV1.Meta (updated old content tags)).
  assert (Hidx1 : entry.index j1
                  = Index.Add new (Index.Remove id (entry.index j)))
    by (by rewrite <- Hj).
  subst e. clear Hj. rewrite Hidx1.
  split; [done|]. split; [done|].
  split; [by exists meta, old, w0|].
  assert (Hnew : MetadataV1.Id new = id) by exact Hide.
  assert (Hg' : grouped (Index.Add new (Index.Remove id (entry.index j)))).
  { apply grouped_Add; [by apply grouped_Remove|].
    unfold keepsKeys. rewrite Hnew.
    by rewrite Entries_Remove, decide_True. }
  split; [done|]. split.
  - intros t. unfold Index.FindByTag. rewrite (byTag_exact _ Hg').
    fold (Index.GetMetadata id (Index.Add new (Index.Remove id (entry.index j)))).
    rewrite GetMetadata_Add, decide_True by done. split.
    + by intros (m & [= <-] & Ht).
    + intros Ht. by eexists.
  - intros id' Hne. rewrite GetMetadata_Add, decide_False by congruence.
    unfold Index.GetMetadata. by rewrite Entries_Remove, decide_False.
Qed.

(** X14.  Every successful change keeps the index file in step with the
    journal: after an [Add], a [Delete] or an [Update] that returns no
    error, loading the index from the store gives the index the journal
    holds in memory, provided the two system calls of the load do not
    fail, the keys at hand decrypt for the store's recipients and the
    YAML library reads back the index it wrote. *)
Theorem mutations_persist_index
    (m : mutation) (j j1 : entry.Journal) (w w1 : World) :
  canDecrypt (entry.storage j) ->
  indexReadsBack (entry.index j1) ->
  mutate m j w = (w1, j1, None) ->
  callsOk 2 w1 ->
  entry.storage j1 = entry.storage j
  /\ exists w2, storage.LoadIndex (entry.storage j1) w1
                = (w2, Ok (entry.index j1))
                /\ files w2 = files w1.
Proof.
  intros Hdec Hrb Hmut Hok.
  assert (Hsaved : entry.storage j1 = entry.storage j
                   /\ exists w0, storage.SaveIndex (entry.storage j)
                                   (entry.index j1) w0 = (w1, None)).
  { destruct m as [id now content tags|id|id content tags]; simpl in Hmut.
    - destruct (entry.Add id now content tags j w) as [[w' j'] [e|err]] eqn:Hadd;
        [|done].
      injection Hmut as <- <-.
      apply Add_ok in Hadd as (_ & Hj & w0 & _ & Hidx).
      split; [by rewrite Hj|by exists w0].
    - unfold entry.Delete in Hmut.
      destruct (Index.GetMetadata id (entry.index j)); [|done].
      destruct (storage.DeleteEntry _ _ w) as [w0 [err|]]; [done|].
      cbn [entry.setIndex entry.storage entry.index] in Hmut.
      destruct (storage.SaveIndex _ _ w0) as [w2 [err|]] eqn:Hidx; [done|].
      injection Hmut as <- <-. split; [done|by exists w0].
    - unfold entry.Update in Hmut.
      destruct (Index.GetMetadata id (entry.index j)); [|done].
      destruct (storage.LoadEntry _ id _ w) as [w0 [[old]|err]]; [|done].
      destruct (storage.SaveEntry _ _ w0) as [w2 [err|]]; [done|].
      cbn [entry.setIndex entry.storage entry.index] in Hmut.
      destruct (storage.SaveIndex _ _ w2) as [w3 [err|]] eqn:Hidx; [done|].
      injection Hmut as <- <-. split; [done|by exists w2]. }
  destruct Hsaved as [Hst (w0 & Hidx)]. split; [done|]. rewrite Hst.
  apply SaveIndex_ok in Hidx as (c & Hc & Hfiles).
  exists (snd (os.syscall (snd (os.syscall w1)))). split; [|done].
  apply (LoadIndex_saved (entry.storage j) (entry.index j1) w1 c);
    [done| |by apply Hdec|done].
  by rewrite Hfiles, lookup_insert_eq.
Qed.

End StorageFacts.

(** ** The list of recipients in .sops.yaml *)

Lemma Split_noChar sep a :
  noChar sep a = true -> strings.Split sep a = [a].
Proof.
  induction a as [|c a IH]; simpl; [reflexivity|].
  intros [Hc Ha]%andb_prop. apply negb_true_iff in Hc. rewrite Hc.
  by rewrite IH.
Qed.

Lemma Split_noChar_cons sep a rest :
  noChar sep a = true ->
  strings.Split sep (a +:+ String sep rest) = a :: strings.Split sep rest.
Proof.
  induction a as [|c a IH].
  - intros _. rewrite append_empty_l. simpl. by rewrite Ascii.eqb_refl.
  - rewrite append_cons. simpl.
    intros [Hc Ha]%andb_prop. apply negb_true_iff in Hc. rewrite Hc.
    by rewrite IH.
Qed.

Lemma Split_Join_noChar sep l :
  l <> [] -> Forall (fun e => noChar sep e = true) l ->
  strings.Split sep (strings.Join (String sep "") l) = l.
Proof.
  induction l as [|x l IH]; [done|]. intros _ [Hx Hl]%Forall_cons.
  destruct l as [|y l]; [by apply Split_noChar|].
  change (strings.Join (String sep "") (x :: y :: l))
    with (x +:+ String sep (strings.Join (String sep "") (y :: l))).
  rewrite Split_noChar_cons by done. by rewrite IH.
Qed.

Lemma Join_sep_not_empty sep x l :
  x <> "" -> strings.Join sep (x :: l) <> "".
Proof.
  intros Hx. destruct l as [|y l]; [done|].
  change (strings.Join sep (x :: y :: l))
    with (x +:+ (sep +:+ strings.Join sep (y :: l))).
  destruct x; [done|]. by rewrite append_cons.
Qed.

Lemma listable_spec r :
  listable r = true ->
  r <> "" /\ noChar "," r = true /\ strings.TrimSpace r = r.
Proof.
  unfold listable. intros [[H0 H1]%andb_prop H2]%andb_prop.
  apply negb_true_iff, String.eqb_neq in H0. by apply String.eqb_eq in H2.
Qed.

Lemma TrimSpace_Split_Join rs :
  rs <> [] -> Forall (fun r => listable r = true) rs ->
  map strings.TrimSpace (strings.Split "," (strings.Join "," rs)) = rs.
Proof.
  intros Hne Hall.
  rewrite (Split_Join_noChar ","%char) by
    (done || (eapply Forall_impl; [exact Hall|]; intros r Hr;
              by apply listable_spec in Hr as (_ & ? & _))).
  clear Hne. induction Hall as [|r rs Hr Hrs IH]; [done|].
  simpl. rewrite IH. f_equal. by apply listable_spec in Hr as (_ & _ & ?).
Qed.

Section RecipientFacts.
Context `{crypto.Provider}.

Lemma CreateSOPSConfig_writes jp rs w w' :
  crypto.CreateSOPSConfig jp rs w = (w', None) ->
  rs <> []
  /\ crypto.validateAll rs = None
  /\ files w'
     = <[crypto.sopsConfigPath jp := crypto.marshalConfig (sopsConfigOf rs)]>
         (files w).
Proof.
  unfold crypto.CreateSOPSConfig.
  destruct rs as [|r rs]; [done|]. cbn [length Nat.eqb].
  destruct (crypto.validateAll (r :: rs)) as [err|]; [done|].
  destruct (os.WriteFile _ _ w) as [w1 [err|]] eqn:Hw; [done|].
  intros [= <-]. apply WriteFile_ok in Hw. done.
Qed.

Lemma CreateSOPSConfig_refused jp rs w w' err :
  crypto.CreateSOPSConfig jp rs w = (w', Some err) -> files w' = files w.
Proof.
  unfold crypto.CreateSOPSConfig.
  destruct (length rs =? 0)%nat; [by intros [= <- _]|].
  destruct (crypto.validateAll rs) as [e|]; [by intros [= <- _]|].
  destruct (os.WriteFile _ _ w) as [w1 [e|]] eqn:Hw; [|done].
  intros [= <- _]. by apply WriteFile_failure in Hw.
Qed.

Lemma ReadSOPSConfig_files jp w :
  files (fst (crypto.ReadSOPSConfig jp w)) = files w.
Proof.
  unfold crypto.ReadSOPSConfig.
  pose proof (files_ReadFile (crypto.sopsConfigPath jp) w) as Hr.
  destruct (os.ReadFile _ w) as [w1 [data|err]]; simpl in Hr; [|done].
  destruct (crypto.unmarshalConfig data) as [config|]; [|done].
  destruct (crypto.CreationRules config) as [|rule rules]; [done|].
  by destruct (String.eqb (crypto.Age rule) "").
Qed.

Lemma ReadSOPSConfig_present jp rs w n :
  files w !! crypto.sopsConfigPath jp
  = Some (crypto.marshalConfig (sopsConfigOf rs)) ->
  configReadsBack (sopsConfigOf rs) ->
  rs <> [] -> Forall (fun r => listable r = true) rs ->
  callsOk (S n) w ->
  crypto.ReadSOPSConfig jp w = (snd (os.syscall w), Ok rs).
Proof.
  intros Hf Hrb Hne Hall Hok. unfold crypto.ReadSOPSConfig.
  rewrite (ReadFile_present _ w _ n Hf Hok), Hrb.
  cbn [sopsConfigOf crypto.CreationRules crypto.Age].
  destruct rs as [|r rs]; [done|].
  assert (Hr : r <> "").
  { apply Forall_cons in Hall as [Hr _]. by apply listable_spec in Hr as [? _]. }
  rewrite (eqb_empty_false _ (Join_sep_not_empty "," r rs Hr)).
  by rewrite TrimSpace_Split_Join.
Qed.

(** X15.  The recipients that [CreateSOPSConfig] writes, [ReadSOPSConfig]
    reads back: after a successful write of a list of recipients that are
    not empty and hold no comma and no surrounding white space, reading
    the configuration returns the same list in the same order, in any
    later state in which .sops.yaml is as it was written and the read does
    not fail, provided the YAML library reads back the configuration. *)
Theorem CreateSOPSConfig_ReadSOPSConfig_roundtrip
    (jp : string) (rs : list string) (w w1 w2 : World) :
  Forall (fun r => listable r = true) rs ->
  configReadsBack (sopsConfigOf rs) ->
  crypto.CreateSOPSConfig jp rs w = (w1, None) ->
  files w2 !! crypto.sopsConfigPath jp = files w1 !! crypto.sopsConfigPath jp ->
  callsOk 1 w2 ->
  exists w3, crypto.ReadSOPSConfig jp w2 = (w3, Ok rs) /\ files w3 = files w2.
Proof.
  intros Hall Hrb Hcreate Hsame Hok.
  apply CreateSOPSConfig_writes in Hcreate as (Hne & _ & Hfiles).
  rewrite Hfiles, lookup_insert_eq in Hsame.
  exists (snd (os.syscall w2)). split; [|done].
  by apply (ReadSOPSConfig_present jp rs w2 0).
Qed.

Lemma hasRecipient_elem_of rs r :
  crypto.hasRecipient rs r = true <-> r ∈ rs.
Proof. apply existsb_eqb_elem_of. Qed.

Lemma elem_of_withoutRecipient rs r x :
  x ∈ crypto.withoutRecipient rs r <-> x ∈ rs /\ x <> r.
Proof. apply elem_of_removeString. Qed.

(** X16.  A successful [RemoveRecipient] takes exactly the given recipient
    out of the list: the recipient was listed, the configuration written
    lists the former recipients without it, in their order, and at least
    one is left; reading the configuration afterwards returns that list. *)
Theorem RemoveRecipient_removes
    (jp r : string) (rs : list string) (w w0 w1 : World) :
  crypto.ReadSOPSConfig jp w = (w0, Ok rs) ->
  crypto.RemoveRecipient jp r w = (w1, None) ->
  Forall (fun r => listable r = true) rs ->
  configReadsBack (sopsConfigOf (crypto.withoutRecipient rs r)) ->
  callsOk 1 w1 ->
  r ∈ rs
  /\ crypto.withoutRecipient rs r <> []
  /\ (forall x, x ∈ crypto.withoutRecipient rs r <-> x ∈ rs /\ x <> r)
  /\ files w1
     = <[crypto.sopsConfigPath jp
         := crypto.marshalConfig (sopsConfigOf (crypto.withoutRecipient rs r))]>
         (files w)
  /\ exists w2,
       crypto.ReadSOPSConfig jp w1 = (w2, Ok (crypto.withoutRecipient rs r))
       /\ files w2 = files w1.
Proof.
  intros Hread Hrm Hall Hrb Hok.
  pose proof (ReadSOPSConfig_files jp w) as Hf0. rewrite Hread in Hf0.
  simpl in Hf0.
  unfold crypto.RemoveRecipient in Hrm. rewrite Hread in Hrm.
  destruct (crypto.hasRecipient rs r) eqn:Hhas; [|done]. simpl in Hrm.
  apply hasRecipient_elem_of in Hhas.
  destruct (length (crypto.withoutRecipient rs r) =? 0)%nat; [done|].
  pose proof (CreateSOPSConfig_writes _ _ _ _ Hrm) as (Hne & _ & Hfiles).
  split; [done|]. split; [done|].
  split; [intros x; apply elem_of_withoutRecipient|].
  split; [by rewrite Hfiles, Hf0|].
  exists (snd (os.syscall w1)). split; [|done].
  apply (ReadSOPSConfig_present jp _ w1 0); [|done|done| |done].
  - by rewrite Hfiles, Hf0, lookup_insert_eq.
  - apply Forall_forall. intros x [Hx _]%elem_of_withoutRecipient.
    by eapply Forall_forall in Hall.
Qed.

(** X17.  A successful [AddRecipient] appends the new recipient: it was
    not listed before, the configuration written lists the former
    recipients followed by the new one, and reading the configuration
    afterwards returns that list. *)
Theorem AddRecipient_appends
    (jp r : string) (rs : list string) (w w0 w1 : World) :
  crypto.ReadSOPSConfig jp w = (w0, Ok rs) ->
  crypto.AddRecipient jp r w = (w1, None) ->
  Forall (fun r => listable r = true) (rs ++ [r]) ->
  configReadsBack (sopsConfigOf (rs ++ [r])) ->
  callsOk 1 w1 ->
  (r ∉ rs)
  /\ crypto.ValidateRecipient r = None
  /\ files w1
     = <[crypto.sopsConfigPath jp
         := crypto.marshalConfig (sopsConfigOf (rs ++ [r]))]> (files w)
  /\ exists w2,
       crypto.ReadSOPSConfig jp w1 = (w2, Ok (rs ++ [r]))
       /\ files w2 = files w1.
Proof.
  intros Hread Hadd Hall Hrb Hok.
  pose proof (ReadSOPSConfig_files jp w) as Hf0. rewrite Hread in Hf0.
  simpl in Hf0.
  unfold crypto.AddRecipient in Hadd. rewrite Hread in Hadd.
  destruct (crypto.hasRecipient rs r) eqn:Hhas; [done|].
  assert (Hnin : ~ r ∈ rs).
  { intros Hin%hasRecipient_elem_of. congruence. }
  pose proof (CreateSOPSConfig_writes _ _ _ _ Hadd) as (Hne & Hval & Hfiles).
  split; [done|]. split.
  - clear -Hval. induction rs as [|x rs IH]; simpl in Hval.
    + by destruct (crypto.ValidateRecipient r).
    + destruct (crypto.ValidateRecipient x); [done|]. by apply IH.
  - split; [by rewrite Hfiles, Hf0|].
    exists (snd (os.syscall w1)). split; [|done].
    apply (ReadSOPSConfig_present jp _ w1 0); [|done|done|done|done].
    by rewrite Hfiles, Hf0, lookup_insert_eq.
Qed.


(** X19.  [PrepareAddRecipient] and [PrepareRemoveRecipient] only read:
    they leave every file as it was, and the list they return is the one
    the direct operation writes, that is, [AddRecipient] and
    [RemoveRecipient] are [CreateSOPSConfig] of the prepared list. *)
Theorem Prepare_then_Create (jp r : string) (w : World) :
  files (fst (crypto.PrepareAddRecipient jp r w)) = files w
  /\ files (fst (crypto.PrepareRemoveRecipient jp r w)) = files w
  /\ (forall w0 l,
        crypto.PrepareAddRecipient jp r w = (w0, Ok l) ->
        crypto.AddRecipient jp r w = crypto.CreateSOPSConfig jp l w0)
  /\ (forall w0 l,
        crypto.PrepareRemoveRecipient jp r w = (w0, Ok l) ->
        crypto.RemoveRecipient jp r w = crypto.CreateSOPSConfig jp l w0).
Proof.
  pose proof (ReadSOPSConfig_files jp w) as Hf0.
  unfold crypto.PrepareAddRecipient, crypto.PrepareRemoveRecipient,
    crypto.AddRecipient, crypto.RemoveRecipient.
  destruct (crypto.ReadSOPSConfig jp w) as [w0 [rs|err]]; simpl in Hf0.
  - split; [|split; [|split]].
    + destruct (crypto.ValidateRecipient r); [done|].
      by destruct (crypto.hasRecipient rs r).
    + destruct (crypto.hasRecipient rs r); simpl; [|done].
      by destruct (length (crypto.withoutRecipient rs r) =? 0)%nat.
    + intros w1 l. destruct (crypto.ValidateRecipient r); [done|].
      destruct (crypto.hasRecipient rs r); [done|]. by intros [= <- <-].
    + intros w1 l. destruct (crypto.hasRecipient rs r); simpl; [|done].
      destruct (length (crypto.withoutRecipient rs r) =? 0)%nat; [done|].
      by intros [= <- <-].
  - done.
Qed.

End RecipientFacts.

(** ** The transaction before any file is attempted *)

Section EarlyFailures.
Context `{crypto.Provider}.
Variable jp : string.
Variable newRecipients : list string.
Variable listEntriesFunc : World -> World * result (list string).
Variable reEncryptEntryFunc : string -> World -> World * option error.
Variable reEncryptIndexFunc : World -> World * option error.

(** X20.  A list of recipients that [CreateSOPSConfig] does not accept
    (empty, or with an invalid key, or not written) stops the transaction
    before any file is attempted: with the backup restored, the call
    returns "failed to update .sops.yaml: ..." and the empty result, the
    configuration is the one before the call, the backup is gone, and no
    other file differs from before. *)
Theorem TransactionalReEncrypt_rejects_recipients
    (w w1 w2 w3 : World) (bp : string) (err : error) :
  crypto.BackupSOPSConfig jp w = (w1, Ok bp) ->
  crypto.CreateSOPSConfig jp newRecipients w1 = (w2, Some err) ->
  bp <> crypto.sopsConfigPath jp ->
  crypto.RestoreSOPSConfig jp bp w2 = (w3, None) ->
  crypto.TransactionalReEncrypt jp newRecipients listEntriesFunc
    reEncryptEntryFunc reEncryptIndexFunc w
  = (w3, noAttempt, Some (wrap "failed to update .sops.yaml: " err))
  /\ files w3 !! crypto.sopsConfigPath jp = files w !! crypto.sopsConfigPath jp
  /\ files w3 !! bp = None
  /\ forall p, p <> bp -> files w3 !! p = files w !! p.
Proof.
  intros Hb Hc Hne Hr.
  split.
  { unfold crypto.TransactionalReEncrypt. by rewrite Hb, Hc, Hr. }
  apply BackupSOPSConfig_ok in Hb as (content & Hcfg & Hf1).
  apply CreateSOPSConfig_refused in Hc.
  apply RestoreSOPSConfig_ok in Hr as (content' & Hbp & Hf3).
  rewrite Hc, Hf1, lookup_insert_eq in Hbp. injection Hbp as <-.
  rewrite Hf3, Hc, Hf1.
  split; [|split].
  - rewrite lookup_delete_ne, lookup_insert_eq by done. by rewrite Hcfg.
  - apply lookup_delete_eq.
  - intros p Hp. rewrite lookup_delete_ne by done.
    destruct (decide (p = crypto.sopsConfigPath jp)) as [->|Hpc].
    + rewrite lookup_insert_eq. by rewrite Hcfg.
    + by rewrite !lookup_insert_ne.
Qed.

(** X21.  A failed listing of the entry files rolls the new recipients
    back: when the configuration has been rewritten and the listing fails
    without touching the backup, the call restores the backup and returns
    "failed to list entries: ..." and the empty result; the configuration
    is the one before the call and the backup is gone. *)
Theorem TransactionalReEncrypt_listing_failure
    (w w1 w2 w3 w4 : World) (bp : string) (lerr : error) :
  crypto.BackupSOPSConfig jp w = (w1, Ok bp) ->
  crypto.CreateSOPSConfig jp newRecipients w1 = (w2, None) ->
  listEntriesFunc w2 = (w3, Err lerr) ->
  bp <> crypto.sopsConfigPath jp ->
  files w3 !! bp = files w2 !! bp ->
  crypto.RestoreSOPSConfig jp bp w3 = (w4, None) ->
  crypto.TransactionalReEncrypt jp newRecipients listEntriesFunc
    reEncryptEntryFunc reEncryptIndexFunc w
  = (w4, noAttempt, Some (wrap "failed to list entries: " lerr))
  /\ files w4 !! crypto.sopsConfigPath jp = files w !! crypto.sopsConfigPath jp
  /\ files w4 !! bp = None.
Proof.
  intros Hb Hc Hl Hne Hframe Hr.
  split.
  { unfold crypto.TransactionalReEncrypt. by rewrite Hb, Hc, Hl, Hr. }
  apply BackupSOPSConfig_ok in Hb as (content & Hcfg & Hf1).
  apply CreateSOPSConfig_ok in Hc as (data & Hf2).
  apply RestoreSOPSConfig_ok in Hr as (content' & Hbp & Hf4).
  rewrite Hframe, Hf2, lookup_insert_ne, Hf1, lookup_insert_eq in Hbp
    by congruence.
  injection Hbp as <-. rewrite Hf4.
  split.
  - rewrite lookup_delete_ne, lookup_insert_eq by done. by rewrite Hcfg.
  - apply lookup_delete_eq.
Qed.

End EarlyFailures.

(** ** A new journal *)

Lemma plainElem_sops : plainElem ".sops.yaml" = true.
Proof. reflexivity. Qed.

Lemma index_not_config bp :
  filepath.Join [bp; "index.yaml"] <> filepath.Join [bp; ".sops.yaml"].
Proof.
  rewrite (Join_under bp ["index.yaml"]) by (done || by repeat constructor).
  rewrite (Join_under bp [".sops.yaml"]) by (done || by repeat constructor).
  intros Heq. apply rendered_inj in Heq.
  - simpl in Heq. by injection Heq.
  - apply okStack_plain; [by repeat constructor|apply okStack_baseStack].
  - apply okStack_plain; [by repeat constructor|apply okStack_baseStack].
Qed.

Section NewJournal.
Context `{yaml.TextLayer} `{crypto.Provider} `{storage.IndexCodec}.

Lemma MkdirAll_ok_next path w n :
  callsOk (S n) w -> os.MkdirAll path w = (snd (os.syscall w), None).
Proof.
  intros Hok. unfold os.MkdirAll, os.syscall. simpl.
  by rewrite (callsOk_next n w Hok).
Qed.

Lemma ReadSOPSConfig_written jp rs w w' rs' :
  files w !! crypto.sopsConfigPath jp
  = Some (crypto.marshalConfig (sopsConfigOf rs)) ->
  configReadsBack (sopsConfigOf rs) ->
  Forall (fun r => listable r = true) rs ->
  crypto.ReadSOPSConfig jp w = (w', Ok rs') ->
  rs' = rs.
Proof.
  intros Hf Hrb Hall. unfold crypto.ReadSOPSConfig.
  destruct (os.ReadFile _ w) as [w1 [data|err]] eqn:Hread; [|done].
  apply ReadFile_ok in Hread as [_ Hdata]. rewrite Hf in Hdata.
  injection Hdata as <-. rewrite Hrb.
  cbn [sopsConfigOf crypto.CreationRules crypto.Age].
  destruct (String.eqb (strings.Join "," rs) "") eqn:Hempty; [done|].
  intros [= _ <-].
  destruct rs as [|r rs]; [by simpl in Hempty|].
  by apply TrimSpace_Split_Join.
Qed.

(** X22.  A journal that [InitializeJournal] has set up opens empty: after
    a successful initialisation with recipients that are not empty and
    hold no comma and no surrounding white space, [NewJournalFromConfig]
    of the same configuration succeeds, its index is the empty index, it
    lists no entry, and its store encrypts for the given recipients,
    provided the five system calls of the opening do not fail, the keys
    at hand decrypt for these recipients and the YAML library reads back
    the configuration and the empty index. *)
Theorem InitializeJournal_opens_empty
    (cfg : config.Journal) (rs : list string) (w w1 : World) :
  Forall (fun r => listable r = true) rs ->
  configReadsBack (sopsConfigOf rs) ->
  indexReadsBack Index.NewIndex ->
  decryptsFor rs ->
  entry.InitializeJournal cfg rs w = (w1, None) ->
  callsOk 5 w1 ->
  exists w2 j,
    entry.NewJournalFromConfig cfg w1 = (w2, Ok j)
    /\ entry.index j = Index.NewIndex
    /\ entry.ListAll j = []
    /\ storage.basePath (entry.storage j) = config.Path cfg
    /\ crypto.recipients (storage.encryptor (entry.storage j)) = rs
    /\ files w2 = files w1.
Proof.
  intros Hall Hrb Hirb Hdec Hinit Hok.
  unfold entry.InitializeJournal in Hinit.
  pose proof (files_MkdirAll (config.Path cfg) w) as Hmk.
  destruct (os.MkdirAll (config.Path cfg) w) as [wa [err|]]; [done|].
  simpl in Hmk.
  destruct (crypto.CreateSOPSConfig (config.Path cfg) rs wa)
    as [wb [err|]] eqn:Hcreate; [done|].
  apply CreateSOPSConfig_writes in Hcreate as (Hne & _ & Hfb).
  unfold storage.NewStorage, crypto.NewEncryptor in Hinit.
  destruct (crypto.ReadSOPSConfig (config.Path cfg) wb)
    as [wc [rs'|err]] eqn:Hread; [|done].
  pose proof (ReadSOPSConfig_files (config.Path cfg) wb) as Hfc.
  rewrite Hread in Hfc. simpl in Hfc.
  apply ReadSOPSConfig_written with (rs := rs) in Hread;
    [|by rewrite Hfb, lookup_insert_eq|done|done].
  subst rs'.
  set (store := {| storage.basePath := config.Path cfg;
                   storage.encryptor :=
                     {| crypto.journalPath := config.Path cfg;
                        crypto.recipients := rs |} |}) in *.
  destruct (storage.Initialize store wc) as [wd [err|]] eqn:Hini; [done|].
  assert (Hfd : files wd = files wc).
  { unfold storage.Initialize in Hini.
    pose proof (files_MkdirAll
                  (filepath.Join [storage.basePath store; storage.EntriesDir])
                  wc) as Hm.
    destruct (os.MkdirAll _ wc) as [wm [e|]]; [done|]. simpl in Hm.
    pose proof (files_Stat
                  (filepath.Join [storage.basePath store; ".sops.yaml"]) wm)
      as Hs.
    destruct (os.Stat _ wm) as [ws [e|]]; simpl in Hs.
    - destruct (os.IsNotExist e); [done|].
      injection Hini as <-. by rewrite Hs, Hm.
    - injection Hini as <-. by rewrite Hs, Hm. }
  destruct (storage.SaveIndex store Index.NewIndex wd)
    as [we [err|]] eqn:Hsave; [done|].
  injection Hinit as <-.
  apply SaveIndex_ok in Hsave as (c & Hc & Hfe).
  assert (Hcfgfile :
    files we !! crypto.sopsConfigPath (config.Path cfg)
    = Some (crypto.marshalConfig (sopsConfigOf rs))).
  { rewrite Hfe, lookup_insert_ne by apply index_not_config.
    by rewrite Hfd, Hfc, Hfb, lookup_insert_eq. }
  assert (Hidxfile : files we !! storage.indexPathOf store = Some c).
  { by rewrite Hfe, lookup_insert_eq. }
  set (s1 := snd (os.syscall we)).
  set (s2 := snd (os.syscall s1)).
  set (s3 := snd (os.syscall s2)).
  assert (Hok1 : callsOk 4 s1) by (by apply callsOk_syscall).
  assert (Hok2 : callsOk 3 s2) by (by apply callsOk_syscall).
  assert (Hok3 : callsOk 2 s3) by (by apply callsOk_syscall).
  exists (snd (os.syscall (snd (os.syscall s3)))),
         {| entry.config := cfg; entry.storage := store;
            entry.index := Index.NewIndex |}.
  split; [|by repeat split].
  unfold entry.NewJournalFromConfig, storage.NewStorage, crypto.NewEncryptor.
  rewrite (ReadSOPSConfig_present (config.Path cfg) rs we 4 Hcfgfile Hrb Hne
             Hall Hok).
  fold s1. fold store.
  unfold storage.Initialize.
  rewrite (MkdirAll_ok_next _ s1 3 Hok1). fold s2.
  change (filepath.Join [storage.basePath store; ".sops.yaml"])
    with (crypto.sopsConfigPath (config.Path cfg)).
  rewrite (Stat_present _ s2 (crypto.marshalConfig (sopsConfigOf rs)) 2
             Hcfgfile Hok2).
  fold s3.
  rewrite (LoadIndex_saved store Index.NewIndex s3 c Hirb Hidxfile
             (Hdec _ _ Hc) Hok3).
  done.
Qed.

End NewJournal.

(** ** Opening a directory that is no journal *)

Section Opening.
Context `{yaml.TextLayer} `{crypto.Provider} `{storage.IndexCodec}.

(** X23.  A directory without .sops.yaml does not open: whatever the
    system calls do, [NewJournalFromConfig] fails on reading the
    configuration, with the not-exist error of the file wrapped by each
    layer, and leaves the files as they were. *)
Theorem NewJournalFromConfig_uninitialised (cfg : config.Journal) (w : World) :
  files w !! crypto.sopsConfigPath (config.Path cfg) = None ->
  exists w',
    entry.NewJournalFromConfig cfg w
    = (w', Err (wrap "failed to create storage: "
                  (wrap "failed to create SOPS encryptor: "
                     (wrap "failed to read SOPS config: "
                        (wrap "failed to read .sops.yaml: "
                           (PathError "open"
                              (crypto.sopsConfigPath (config.Path cfg))
                              true))))))
    /\ files w' = files w
    /\ os.IsNotExist (PathError "open"
                        (crypto.sopsConfigPath (config.Path cfg)) true)
       = true.
Proof.
  intros Hnone. exists (snd (os.syscall w)).
  unfold entry.NewJournalFromConfig, storage.NewStorage, crypto.NewEncryptor,
    crypto.ReadSOPSConfig, os.ReadFile.
  destruct (os.syscall w) as [failed w1] eqn:Hsys.
  assert (Hw1 : files w1 = files w).
  { unfold os.syscall in Hsys. by injection Hsys as _ <-. }
  cbn [snd]. rewrite Hw1, Hnone. done.
Qed.

End Opening.

(** ** The version written by ToYaml *)

Section Stamping.
Context `{yaml.TextLayer}.

(** X24.  [ToYaml] writes the current version whatever version the record
    carries: the receiver is left with version 1 and its other fields
    unchanged, and for a record with an id and a date the text decodes to
    that stamped record, provided the YAML library reads back its text. *)
Theorem ToYaml_stamps_version (e : EntryV1.t) :
  EntryV1.Id e <> "" ->
  IsZero (EntryV1.Date e) = false ->
  yamlReadsBack (stamped e) ->
  fst (ToYaml e) = stamped e
  /\ EntryV1.Version (fst (ToYaml e)) = 1
  /\ exists data,
       snd (ToYaml e) = Ok data /\ ParseYaml data = Ok (V1 (stamped e)).
Proof.
  intros Hid Hdate Hyaml.
  split; [done|]. split; [done|].
  exists (MarshalEntryV1 (stamped e)). split; [done|].
  unfold ParseYaml, UnmarshalVersionDetector, UnmarshalEntryV1, MarshalEntryV1.
  unfold yamlReadsBack in Hyaml.
  rewrite Hyaml, detect_encodeEntryV1, decode_encodeEntryV1.
  cbn [detectedVersion stamped EntryV1.Version EntryV1.Meta
       MetadataV1.Version CurrentVersion].
  change (EntryV1.Id (stamped e)) with (EntryV1.Id e).
  change (EntryV1.Date (stamped e)) with (EntryV1.Date e).
  by rewrite (eqb_empty_false _ Hid), Hdate.
Qed.

End Stamping.

(** ** Searching and listing the recent entries *)

Lemma newestEntryFirst_total : Total entry.newestEntryFirst.
Proof.
  intros a b. unfold entry.newestEntryFirst, After.
  rewrite !orb_false_iff, !andb_false_iff, !Z.ltb_ge, !Z.eqb_neq. lia.
Qed.

Lemma newestEntryFirst_trans : Transitive entry.newestEntryFirst.
Proof.
  intros a b c. unfold entry.newestEntryFirst, After.
  rewrite !orb_false_iff, !andb_false_iff, !Z.ltb_ge, !Z.eqb_neq. lia.
Qed.

Lemma callsOk_weaken n m w : (m <= n)%nat -> callsOk n w -> callsOk m w.
Proof. intros Hle Hok k Hk. apply Hok. lia. Qed.

Lemma length_omap_le {A B} (f : A -> option B) (l : list A) :
  (length (omap f l) <= length l)%nat.
Proof.
  induction l as [|a l IH]; [done|]. cbn [omap list_omap].
  destruct (f a); simpl; lia.
Qed.

Section SearchFacts.
Context `{yaml.TextLayer} `{crypto.Provider} `{storage.IndexCodec}.

Lemma LoadEntry_stored s id rel w n :
  callsOk (S n) w ->
  storage.LoadEntry s id rel w = (snd (os.syscall w), stored s (files w) rel).
Proof.
  intros Hok. unfold storage.LoadEntry, stored, crypto.DecryptFile, os.ReadFile.
  unfold os.syscall. cbn [snd files].
  rewrite (callsOk_next n w Hok).
  set (p := filepath.Join [storage.basePath s; storage.EntriesDir; rel]).
  destruct (files w !! p) as [data|]; [|done].
  destruct (crypto.sopsDecrypt data) as [clear|err]; [|done].
  by destruct (ParseYaml clear).
Qed.

Lemma loadInto_stored j id rel w es errs n :
  callsOk (S n) w ->
  entry.loadInto j id rel (w, es, errs)
  = (snd (os.syscall w),
     es ++ loaded [(id, stored (entry.storage j) (files w) rel)],
     errs ++ match stored (entry.storage j) (files w) rel with
             | Ok _ => []
             | Err err => [wrap ("failed to load entry " +:+ id +:+ ": ") err]
             end).
Proof.
  intros Hok. unfold entry.loadInto.
  rewrite (LoadEntry_stored _ id rel w n Hok).
  destruct (stored (entry.storage j) (files w) rel); simpl.
  - by rewrite app_nil_r.
  - by rewrite app_nil_r.
Qed.

Lemma warnAll_ok errs :
  forall w stderr,
    callsOk (length errs) w ->
    exists w',
      entry.warnAll errs (w, stderr)
      = (w', stderr ++ map (fun err => "Warning: " +:+ Error err +:+ nl) errs,
         None)
      /\ files w' = files w.
Proof.
  induction errs as [|err errs IH]; intros w stderr Hok.
  - exists w. simpl. by rewrite app_nil_r.
  - cbn [entry.warnAll]. unfold Fprintf_Stderr.
    assert (Hnext : faults w (tick w) = false) by (by eapply callsOk_next).
    unfold os.syscall. rewrite Hnext.
    destruct (IH (snd (os.syscall w))
                 (stderr ++ ["Warning: " +:+ Error err +:+ nl]))
      as (w' & Hw & Hf); [by apply callsOk_syscall|].
    exists w'. unfold os.syscall in Hw. cbn [snd] in Hw. rewrite Hw.
    split; [|done]. by rewrite <- app_assoc.
Qed.

Lemma warnings_loadErrorsOf os :
  map (fun err => "Warning: " +:+ Error err +:+ nl) (loadErrorsOf os)
  = warnings os.
Proof.
  induction os as [|[id [e|err]] os IH]; simpl; [done|done|].
  by rewrite IH.
Qed.

Lemma length_loadErrorsOf os : (length (loadErrorsOf os) <= length os)%nat.
Proof. apply length_omap_le. Qed.

Lemma length_outcomesOf j fs ids :
  (length (outcomesOf j fs ids) <= length ids)%nat.
Proof. apply length_omap_le. Qed.

Lemma load_loop j ids :
  forall w es errs m,
    callsOk (length ids + m) w ->
    exists w',
      fold_left
        (fun acc id =>
           match Index.GetMetadata id (entry.index j) with
           | None => acc
           | Some meta => entry.loadInto j id (Metadata.FilePath meta) acc
           end) ids (w, es, errs)
      = (w', es ++ loaded (outcomesOf j (files w) ids),
         errs ++ loadErrorsOf (outcomesOf j (files w) ids))
      /\ files w' = files w /\ callsOk m w'.
Proof.
  induction ids as [|id ids IH]; intros w es errs m Hok.
  - exists w. simpl. rewrite !app_nil_r. done.
  - cbn [fold_left]. unfold outcomesOf. cbn [omap list_omap].
    fold (outcomesOf j (files w) ids).
    destruct (Index.GetMetadata id (entry.index j)) as [meta|] eqn:Hmeta.
    + rewrite (loadInto_stored j id _ w es errs (length ids + m) Hok).
      destruct (IH (snd (os.syscall w))
                   (es ++ loaded [(id, stored (entry.storage j) (files w)
                                         (Metadata.FilePath meta))])
                   (errs ++ match stored (entry.storage j) (files w)
                                    (Metadata.FilePath meta) with
                            | Ok _ => []
                            | Err err =>
                                [wrap ("failed to load entry " +:+ id +:+ ": ")
                                   err]
                            end) m)
        as (w' & Hfold & Hf & Hok'); [by apply callsOk_syscall|].
      exists w'. rewrite Hfold. split; [|done].
      cbn [snd os.syscall files].
      destruct (stored (entry.storage j) (files w) (Metadata.FilePath meta));
        simpl; by rewrite <- !app_assoc.
    + apply IH. eapply callsOk_weaken; [|exact Hok]. simpl. lia.
Qed.

(** X25.  A search returns what is readable: when no system call fails,
    each of the four searches of the journal succeeds, leaves the files as
    they were, returns exactly the entries of the ids found by the index
    that the store can decrypt and decode, ordered so that no entry is
    followed by an entry of a later date, and writes one warning to the
    standard error stream for each of the other ids found; an entry that
    cannot be read is skipped, it does not fail the search. *)
Theorem search_returns_readable
    (q : query) (j : entry.Journal) (w : World) (stderr : list string) :
  callsOk (2 * length (idsOf q (entry.index j))) w ->
  exists w' entries,
    search q j (w, stderr)
    = (w', stderr ++ warnings (outcomesOf j (files w) (idsOf q (entry.index j))),
       Ok entries)
    /\ files w' = files w
    /\ entries ≡ₚ loaded (outcomesOf j (files w) (idsOf q (entry.index j)))
    /\ StronglySorted entry.newestEntryFirst entries.
Proof.
  intros Hok.
  assert (Hsearch : search q j (w, stderr)
                    = entry.loadEntries (idsOf q (entry.index j)) j (w, stderr))
    by (by destruct q).
  rewrite Hsearch. clear Hsearch.
  set (ids := idsOf q (entry.index j)) in *.
  unfold entry.loadEntries.
  destruct (load_loop j ids w [] [] (length ids)) as (w1 & Hfold & Hf1 & Hok1).
  { eapply callsOk_weaken; [|exact Hok]. lia. }
  rewrite Hfold. cbn [app].
  destruct (warnAll_ok (loadErrorsOf (outcomesOf j (files w) ids)) w1 stderr)
    as (w2 & Hwarn & Hf2).
  { eapply callsOk_weaken; [|exact Hok1].
    etransitivity; [apply length_loadErrorsOf|apply length_outcomesOf]. }
  rewrite Hwarn, warnings_loadErrorsOf.
  exists w2, (merge_sort entry.newestEntryFirst
                (loaded (outcomesOf j (files w) ids))).
  split; [done|]. split; [by rewrite Hf2|].
  split; [apply merge_sort_Permutation|].
  apply (@StronglySorted_merge_sort _ entry.newestEntryFirst _
           newestEntryFirst_trans newestEntryFirst_total).
Qed.

Lemma warnAll_error errs :
  forall st st' ferr,
    entry.warnAll errs st = (st', Some ferr) ->
    ferr = PathError "write" "/dev/stderr" false.
Proof.
  induction errs as [|err errs IH]; intros [w stderr] st' ferr; [done|].
  cbn [entry.warnAll]. unfold Fprintf_Stderr.
  destruct (os.syscall w) as [[] w1].
  - by intros [= _ <-].
  - apply IH.
Qed.

Lemma load_loop_length j ids :
  forall acc,
    (length (snd (fst (fold_left
        (fun acc id =>
           match Index.GetMetadata id (entry.index j) with
           | None => acc
           | Some meta => entry.loadInto j id (Metadata.FilePath meta) acc
           end) ids acc)))
     <= length (snd (fst acc)) + length ids)%nat.
Proof.
  induction ids as [|id ids IH]; intros [[w es] errs]; simpl; [lia|].
  destruct (Index.GetMetadata id (entry.index j)) as [meta|].
  - etransitivity; [apply IH|]. unfold entry.loadInto.
    destruct (storage.LoadEntry _ id _ w) as [w1 [e|err]]; simpl;
      rewrite ?length_app; simpl; lia.
  - etransitivity; [apply IH|]. simpl. lia.
Qed.

(** X26.  Whatever the system calls do, the only error a search returns is
    that of a warning it could not write to the standard error stream; a
    search that succeeds returns at most as many entries as the index
    found ids, ordered so that no entry is followed by an entry of a later
    date. *)
Theorem search_fails_on_warning_only
    (q : query) (j : entry.Journal) (st : World * list string) :
  match snd (search q j st) with
  | Err err => err = PathError "write" "/dev/stderr" false
  | Ok entries =>
      StronglySorted entry.newestEntryFirst entries
      /\ (length entries <= length (idsOf q (entry.index j)))%nat
  end.
Proof.
  assert (Hsearch : search q j st
                    = entry.loadEntries (idsOf q (entry.index j)) j st)
    by (by destruct q).
  rewrite Hsearch. clear Hsearch.
  set (ids := idsOf q (entry.index j)).
  destruct st as [w stderr]. unfold entry.loadEntries.
  pose proof (load_loop_length j ids (w, [], [])) as Hlen.
  destruct (fold_left _ ids (w, [], [])) as [[w1 es] errs].
  simpl in Hlen.
  destruct (entry.warnAll errs (w1, stderr)) as [st' [ferr|]] eqn:Hwarn; simpl.
  - by eapply warnAll_error.
  - split.
    + apply (@StronglySorted_merge_sort _ entry.newestEntryFirst _
               newestEntryFirst_trans newestEntryFirst_total).
    + by rewrite merge_sort_Permutation.
Qed.



End SearchFacts.

(** * The model on the reference collaborators *)

Import Reference.


(** ** The reference collaborators read back what they wrote *)

Lemma positiveOfBytes_bytesOfPositive p :
  Reference.positiveOfBytes (Reference.bytesOfPositive p) = Some p.
Proof. induction p as [p IH|p IH|]; simpl; rewrite ?IH; reflexivity. Qed.

Lemma ofBytes_toBytes {A} `{Countable A} (a : A) :
  Reference.ofBytes (Reference.toBytes a) = Ok a.
Proof.
  unfold Reference.ofBytes, Reference.toBytes.
  rewrite positiveOfBytes_bytesOfPositive. simpl.
  rewrite decode_encode. reflexivity.
Qed.



(** C2 on the sample operations. *)
Lemma index_grouped_witness :
  admissible Sample.sampleOps Index.NewIndex
  /\ Forall grouped (states Sample.sampleOps Index.NewIndex).
Proof.
  assert (Hadm : admissible Sample.sampleOps Index.NewIndex).
  { vm_compute. repeat split; tauto. }
  split; [exact Hadm|].
  exact (index_grouped_after_each_operation Sample.sampleOps Hadm).
Defined.

(** C2 (the claim as stated fails).  Adding "entry-1" on 2024-11-19 and
    adding it again on 2024-11-20 without removing it first leaves it in
    the bucket of 2024-11-19, where the primary map no longer has it. *)
Lemma index_regrouping_counterexample :
  ~ Forall grouped
      (states [OpAdd Sample.meta1; OpAdd Sample.meta1'] Index.NewIndex).
Proof.
  intros Hall. simpl in Hall.
  apply Forall_cons in Hall as [_ Hall].
  apply Forall_cons in Hall as [Hg _].
  destruct (proj1 (byDate_exact _ Hg "2024-11-19" "entry-1")) as (m & Hm & Hkey).
  - vm_compute. left.
  - vm_compute in Hm. injection Hm as <-. vm_compute in Hkey. discriminate.
Qed.



(** ** The model on concrete stores *)

Lemma pair_snd {A B} (x : A * B) (b : B) : snd x = b -> x = (fst x, b).
Proof. destruct x. simpl. congruence. Qed.

Lemma triple_snd {A B C} (x : A * B * C) (c : C) :
  snd x = c -> x = (fst (fst x), snd (fst x), c).
Proof. destruct x as [[? ?] ?]. simpl. congruence. Qed.

(** C1 (the code at the failing input).  The journal holds one entry, whose
    id starts with "3f2b8c1e".  The full id is found, but its first eight
    characters are not resolved: [Get] and [Delete] answer "entry not
    found"; and for the first seven characters they answer "entry not
    found" as well, not that the id is too short. *)
Theorem Get_Delete_resolve_full_ids_only :
  (map_to_list (Index.Entries (entry.index Sample.journal1))).*1
  = [Sample.uuid1]
  /\ String.prefix "3f2b8c1e" Sample.uuid1 = true
  /\ String.length "3f2b8c1e" = 8%nat
  /\ (exists e, snd (entry.Get Sample.uuid1 Sample.journal1 Sample.world1)
                = Ok e
                /\ GetID e = Sample.uuid1 /\ GetContent e = "Test entry")
  /\ snd (entry.Get "3f2b8c1e" Sample.journal1 Sample.world1)
     = Err (errorString "entry not found: 3f2b8c1e")
  /\ snd (entry.Delete "3f2b8c1e" Sample.journal1 Sample.world1)
     = Some (errorString "entry not found: 3f2b8c1e")
  /\ snd (entry.Get "3f2b8c1" Sample.journal1 Sample.world1)
     = Err (errorString "entry not found: 3f2b8c1")
  /\ snd (entry.Delete "3f2b8c1" Sample.journal1 Sample.world1)
     = Some (errorString "entry not found: 3f2b8c1").
Proof.
  repeat split; try (vm_compute; reflexivity).
  eexists. vm_compute. repeat split.
Qed.

(** C5 on a store whose recipient is not an age key, so that the
    encryption of the entry fails. *)
Lemma Add_save_failure_witness :
  exists w1 err,
    storage.SaveEntry Sample.brokenStore
      (V1 (NewEntryV1 Sample.uuid1 Sample.newYearsEve "Test entry" ["tag1"]
             (storage.GetEntryPath Sample.brokenStore Sample.newYearsEve
                                   Sample.uuid1)))
      Sample.quietWorld
    = (w1, Some err)
    /\ let '(w', j', r) :=
         entry.Add Sample.uuid1 Sample.newYearsEve "Test entry" ["tag1"]
                   (Sample.emptyJournal Sample.brokenStore)
                   Sample.quietWorld in
       r = Err (wrap "failed to save entry: " err)
       /\ w' = w1
       /\ entry.index j' = Index.NewIndex
       /\ (Index.GetMetadata Sample.uuid1 Index.NewIndex = None ->
           Index.GetMetadata Sample.uuid1 (entry.index j') = None)
       /\ files w' !! storage.indexPathOf Sample.brokenStore
          = files Sample.quietWorld !! storage.indexPathOf Sample.brokenStore
       /\ files w' = files Sample.quietWorld.
Proof.
  eexists _, _.
  assert (Hsave :
    storage.SaveEntry
      (entry.storage (Sample.emptyJournal Sample.brokenStore))
      (V1 (NewEntryV1 Sample.uuid1 Sample.newYearsEve "Test entry" ["tag1"]
             (storage.GetEntryPath
                (entry.storage (Sample.emptyJournal Sample.brokenStore))
                Sample.newYearsEve Sample.uuid1)))
      Sample.quietWorld
    = (fst (storage.SaveEntry Sample.brokenStore
              (V1 (NewEntryV1 Sample.uuid1 Sample.newYearsEve "Test entry"
                     ["tag1"]
                     (storage.GetEntryPath Sample.brokenStore
                        Sample.newYearsEve Sample.uuid1)))
              Sample.quietWorld),
       Some (errorString
               ("failed to encrypt and save entry: failed to create key groups: "
                +:+ "invalid age recipient not-a-key: malformed recipient")))).
  { vm_compute. reflexivity. }
  split; [exact Hsave|].
  exact (Add_save_failure_leaves_index Sample.uuid1 Sample.newYearsEve
           "Test entry" ["tag1"] (Sample.emptyJournal Sample.brokenStore)
           Sample.quietWorld _ _ Hsave).
Defined.

(** C9 on the entry added to the sample journal. *)
Lemma Add_location_witness :
  isUUID Sample.uuid1 = true
  /\ 0 <= Year Sample.newYearsEve <= 9999
  /\ exists e, snd Sample.afterAdd = Ok e
               /\ GetFilePath e = localLocation Sample.newYearsEve Sample.uuid1.
Proof.
  assert (Hid : isUUID Sample.uuid1 = true) by (vm_compute; reflexivity).
  assert (Hy : 0 <= Year Sample.newYearsEve <= 9999)
    by (vm_compute; split; discriminate).
  split; [exact Hid|]. split; [exact Hy|].
  pose (e := V1 (NewEntryV1 Sample.uuid1 Sample.newYearsEve "Test entry"
                   ["tag1"]
                   "2024/12/3f2b8c1e-9a4d-4e6f-8b2a-1c5d7e9f0a3b.yaml")).
  assert (Hadd :
    entry.Add Sample.uuid1 Sample.newYearsEve "Test entry" ["tag1"]
              (Sample.emptyJournal Sample.store) Sample.quietWorld
    = (Sample.world1, Sample.journal1, Ok e))
    by (apply triple_snd; vm_compute; reflexivity).
  exists e. split; [vm_compute; reflexivity|].
  exact (Add_location_from_local_calendar _ _ _ _ _ _ _ _ _ Hid Hy Hadd).
Defined.

(** C9 (the claim as stated fails).  The entry is created on 2024-12-31 at
    23:30, five hours west of UTC, when it is 2025-01-01 04:30 UTC: it is
    filed under 2024/12, where the UTC calendar gives 2025/01. *)
Lemma Add_location_not_from_UTC :
  exists e, snd Sample.afterAdd = Ok e
    /\ GetFilePath e = "2024/12/3f2b8c1e-9a4d-4e6f-8b2a-1c5d7e9f0a3b.yaml"
    /\ utcLocation Sample.newYearsEve Sample.uuid1
       = "2025/01/3f2b8c1e-9a4d-4e6f-8b2a-1c5d7e9f0a3b.yaml"
    /\ GetFilePath e <> utcLocation Sample.newYearsEve Sample.uuid1.
Proof.
  eexists. split; [vm_compute; reflexivity|].
  split; [vm_compute; reflexivity|]. split; [vm_compute; reflexivity|].
  vm_compute. discriminate.
Qed.




(** C7 on the same rotation. *)
Lemma TransactionalReEncrypt_attempts_witness :
  let res :=
    snd (fst (crypto.TransactionalReEncrypt "/journal" ["age1alice"; "age1bob"]
                Sample.listTwo Sample.failOnB Sample.indexGood
                (Sample.configuredWorld (fun _ => false)))) in
  crypto.ReEncryptResult.TotalFiles res = 2
  /\ crypto.ReEncryptResult.FailedFiles res
     = [crypto.FileError.mk "2024/11/b.yaml" (errorString "cannot re-encrypt")]
  /\ crypto.ReEncryptResult.SuccessfulFiles res = 1.
Proof.
  pose (w := Sample.configuredWorld (fun _ => false)).
  pose (w1 := fst (crypto.BackupSOPSConfig "/journal" w)).
  pose (w2 := fst (crypto.CreateSOPSConfig "/journal"
                     ["age1alice"; "age1bob"] w1)).
  assert (Hb : crypto.BackupSOPSConfig "/journal" w
               = (w1, Ok Sample.backupPath))
    by (apply pair_snd; vm_compute; reflexivity).
  assert (Hc : crypto.CreateSOPSConfig "/journal" ["age1alice"; "age1bob"] w1
               = (w2, None)) by (apply pair_snd; vm_compute; reflexivity).
  assert (Hl : Sample.listTwo w2
               = (w2, Ok ["2024/11/a.yaml"; "2024/11/b.yaml"]))
    by reflexivity.
  destruct (TransactionalReEncrypt_attempts_every_file "/journal"
              ["age1alice"; "age1bob"] Sample.listTwo Sample.failOnB
              Sample.indexGood w w1 Sample.backupPath w2 w2
              ["2024/11/a.yaml"; "2024/11/b.yaml"] Hb Hc Hl)
    as (_ & _ & Htotal & Hfailed & _ & Hsucc & _).
  fold w. intros res. fold res in Htotal, Hfailed, Hsucc.
  split; [exact Htotal|]. split; [exact Hfailed|].
  rewrite Hsucc, Htotal, Hfailed. reflexivity.
Defined.

(** ** More properties on the samples *)

Lemma grouped_index12 : grouped Sample.index12.
Proof.
  unfold Sample.index12.
  apply grouped_Add; [apply grouped_Add; [apply grouped_NewIndex|]|];
    vm_compute; tauto.
Qed.

(** X2 on the sample index. *)
Lemma Remove_leaves_no_trace_witness :
  grouped Sample.index12
  /\ Index.GetMetadata "entry-1" (Index.Remove "entry-1" Sample.index12) = None
  /\ (forall t, "entry-1" ∉ Index.FindByTag t (Index.Remove "entry-1" Sample.index12)).
Proof.
  split; [exact grouped_index12|].
  destruct (Remove_leaves_no_trace "entry-1" Sample.index12 grouped_index12)
    as (Hmeta & _ & Htag & _).
  split; [exact Hmeta|exact Htag].
Defined.

(** X3 on the sample index. *)
Lemma Remove_Add_cancel_witness :
  grouped (Index.Add Sample.meta2 Index.NewIndex)
  /\ Index.GetMetadata "entry-1" (Index.Add Sample.meta2 Index.NewIndex) = None
  /\ Index.Remove "entry-1"
       (Index.Add Sample.meta1 (Index.Add Sample.meta2 Index.NewIndex))
     = Index.Add Sample.meta2 Index.NewIndex.
Proof.
  assert (Hg : grouped (Index.Add Sample.meta2 Index.NewIndex)).
  { apply grouped_Add; [apply grouped_NewIndex|]. vm_compute. tauto. }
  assert (Hnone : Index.GetMetadata (MetadataV1.Id Sample.meta1)
                    (Index.Add Sample.meta2 Index.NewIndex) = None).
  { vm_compute. reflexivity. }
  split; [exact Hg|]. split; [exact Hnone|].
  exact (Remove_Add_cancel Sample.meta1 _ Hg Hnone).
Defined.


Lemma canDecrypt_reference s : canDecrypt s.
Proof. intros data c [= <-]. reflexivity. Qed.

Lemma callsOk_quiet n w : faults w = (fun _ => false) -> callsOk n w.
Proof. intros Hq k _. by rewrite Hq. Qed.

(** X7 on the sample store. *)
Lemma SaveEntry_LoadEntry_witness :
  let e := NewEntryV1 Sample.uuid1 Sample.newYearsEve "Test entry" ["tag1"]
             "2024/12/3f2b8c1e-9a4d-4e6f-8b2a-1c5d7e9f0a3b.yaml" in
  let w1 := fst (storage.SaveEntry Sample.store (V1 e) Sample.quietWorld) in
  storage.SaveEntry Sample.store (V1 e) Sample.quietWorld = (w1, None)
  /\ exists w3,
       storage.LoadEntry Sample.store Sample.uuid1
         (storage.GetEntryPath Sample.store Sample.newYearsEve Sample.uuid1) w1
       = (w3, Ok (V1 e))
       /\ files w3 = files w1.
Proof.
  intros e w1.
  assert (Hsave : storage.SaveEntry Sample.store (V1 e) Sample.quietWorld
                  = (w1, None))
    by (apply pair_snd; vm_compute; reflexivity).
  split; [exact Hsave|].
  assert (Hvalid : validRecord e) by (repeat split; discriminate).
  assert (Hid : noSlash (EntryV1.Id e) = true) by (vm_compute; reflexivity).
  assert (Hy : 0 <= Year (EntryV1.Date e) <= 9999)
    by (vm_compute; split; discriminate).
  assert (Hok : callsOk 1 w1) by (apply callsOk_quiet; reflexivity).
  exact (SaveEntry_LoadEntry_roundtrip Sample.store e Sample.quietWorld w1 w1
           Hvalid Hid Hy (ofBytes_toBytes (encodeEntryV1 e))
           (canDecrypt_reference Sample.store) Hsave eq_refl Hok).
Defined.



Lemma sample_Add :
  entry.Add Sample.uuid1 Sample.newYearsEve "Test entry" ["tag1"]
            (Sample.emptyJournal Sample.store) Sample.quietWorld
  = (Sample.world1, Sample.journal1, Ok (V1 sampleEntry)).
Proof. apply triple_snd. vm_compute. reflexivity. Qed.

Lemma sample_uuid : isUUID Sample.uuid1 = true.
Proof. vm_compute. reflexivity. Qed.

Lemma sample_year : 0 <= Year Sample.newYearsEve <= 9999.
Proof. vm_compute. split; discriminate. Qed.

Lemma sample_index :
  entry.index Sample.journal1
  = Index.Add (EntryV1.Meta sampleEntry) Index.NewIndex.
Proof. vm_compute. reflexivity. Qed.

Lemma grouped_journal1 : grouped (entry.index Sample.journal1).
Proof.
  rewrite sample_index. apply grouped_Add; [apply grouped_NewIndex|].
  vm_compute. tauto.
Qed.

(** X9 on the entry added to the sample journal. *)
Lemma Add_then_Get_witness :
  entry.Add Sample.uuid1 Sample.newYearsEve "Test entry" ["tag1"]
            (Sample.emptyJournal Sample.store) Sample.quietWorld
  = (Sample.world1, Sample.journal1, Ok (V1 sampleEntry))
  /\ exists w2,
       entry.Get Sample.uuid1 Sample.journal1 Sample.world1
       = (w2, Ok (V1 sampleEntry))
       /\ files w2 = files Sample.world1.
Proof.
  split; [exact sample_Add|].
  assert (Hok : callsOk 1 Sample.world1) by (apply callsOk_quiet; reflexivity).
  exact (proj2 (Add_then_Get Sample.uuid1 Sample.newYearsEve "Test entry"
                  ["tag1"] (Sample.emptyJournal Sample.store) Sample.journal1
                  Sample.quietWorld Sample.world1 (V1 sampleEntry)
                  sample_uuid sample_year eq_refl
                  (ofBytes_toBytes (encodeEntryV1 sampleEntry))
                  (canDecrypt_reference Sample.store) sample_Add Hok)).
Defined.




Lemma sample_GetMetadata :
  Index.GetMetadata Sample.uuid1 (entry.index Sample.journal1) = Some sampleMeta.
Proof. vm_compute. reflexivity. Qed.

(** X11 on the sample journal. *)
Lemma Delete_removes_entry_witness :
  let '(w', j', r) := entry.Delete Sample.uuid1 Sample.journal1 Sample.world1 in
  r = None
  /\ Index.GetMetadata Sample.uuid1 (entry.index j') = None
  /\ entry.Get Sample.uuid1 j' w'
     = (w', Err (errorString ("entry not found: " +:+ Sample.uuid1))).
Proof.
  pose (w1 := fst (storage.DeleteEntry Sample.store
                     (Metadata.FilePath sampleMeta) Sample.world1)).
  pose (w2 := fst (storage.SaveIndex Sample.store
                     (Index.Remove Sample.uuid1 (entry.index Sample.journal1))
                     w1)).
  assert (Hdel : storage.DeleteEntry (entry.storage Sample.journal1)
                   (Metadata.FilePath sampleMeta) Sample.world1 = (w1, None))
    by (apply pair_snd; vm_compute; reflexivity).
  assert (Hidx : storage.SaveIndex (entry.storage Sample.journal1)
                   (Index.Remove Sample.uuid1 (entry.index Sample.journal1)) w1
                 = (w2, None))
    by (apply pair_snd; vm_compute; reflexivity).
  pose proof (Delete_removes_entry Sample.uuid1 Sample.journal1 Sample.world1
                w1 w2 sampleMeta sample_GetMetadata Hdel Hidx) as Hthm.
  destruct (entry.Delete Sample.uuid1 Sample.journal1 Sample.world1)
    as [[w' j'] r].
  destruct Hthm as (Hr & _ & _ & Hnone & _ & Hget).
  split; [exact Hr|]. split; [exact Hnone|exact Hget].
Defined.

(** X12 on the sample journal, on a disk without the entry file. *)
Lemma Delete_missing_file_witness :
  let '(w', j', r) :=
    entry.Delete Sample.uuid1 Sample.journal1 Sample.quietWorld in
  is_Some r
  /\ j' = Sample.journal1
  /\ Index.GetMetadata Sample.uuid1 (entry.index j') = Some sampleMeta.
Proof.
  assert (Hnone :
    files Sample.quietWorld
      !! filepath.Join [storage.basePath (entry.storage Sample.journal1);
                        storage.EntriesDir; Metadata.FilePath sampleMeta]
    = None) by reflexivity.
  pose proof (Delete_missing_file_keeps_entry Sample.uuid1 Sample.journal1
                Sample.quietWorld sampleMeta sample_GetMetadata Hnone) as Hthm.
  destruct (entry.Delete Sample.uuid1 Sample.journal1 Sample.quietWorld)
    as [[w' j'] r].
  destruct Hthm as (Hr & Hj & _ & Hmeta).
  split; [by rewrite Hr|]. split; [exact Hj|exact Hmeta].
Defined.

(** X13 on the sample journal: the tag "tag1" is replaced by "tag2". *)
Lemma Update_replaces_tags_witness :
  exists w1 j1,
    entry.Update Sample.uuid1 "New content" ["tag2"] Sample.journal1
                 Sample.world1
    = (w1, j1, Ok (V1 (updated sampleEntry "New content" ["tag2"])))
    /\ grouped (entry.index j1)
    /\ forall t, Sample.uuid1 ∈ Index.FindByTag t (entry.index j1)
                 <-> t ∈ ["tag2"].
Proof.
  eexists _, _.
  assert (Hupd :
    entry.Update Sample.uuid1 "New content" ["tag2"] Sample.journal1
                 Sample.world1
    = (fst (fst (entry.Update Sample.uuid1 "New content" ["tag2"]
                   Sample.journal1 Sample.world1)),
       snd (fst (entry.Update Sample.uuid1 "New content" ["tag2"]
                   Sample.journal1 Sample.world1)),
       Ok (V1 (updated sampleEntry "New content" ["tag2"]))))
    by (apply triple_snd; vm_compute; reflexivity).
  split; [exact Hupd|].
  destruct (Update_replaces_tags Sample.uuid1 "New content" ["tag2"]
              Sample.journal1 _ Sample.world1 _ _ grouped_journal1 Hupd
              eq_refl) as (_ & _ & _ & Hg & Htags & _).
  split; [exact Hg|exact Htags].
Defined.

(** X14 on the first entry added to the sample journal. *)
Lemma mutations_persist_index_witness :
  mutate (MAdd Sample.uuid1 Sample.newYearsEve "Test entry" ["tag1"])
         (Sample.emptyJournal Sample.store) Sample.quietWorld
  = (Sample.world1, Sample.journal1, None)
  /\ exists w2,
       storage.LoadIndex (entry.storage Sample.journal1) Sample.world1
       = (w2, Ok (entry.index Sample.journal1))
       /\ files w2 = files Sample.world1.
Proof.
  assert (Hmut :
    mutate (MAdd Sample.uuid1 Sample.newYearsEve "Test entry" ["tag1"])
           (Sample.emptyJournal Sample.store) Sample.quietWorld
    = (Sample.world1, Sample.journal1, None)).
  { unfold mutate. rewrite sample_Add. reflexivity. }
  split; [exact Hmut|].
  assert (Hok : callsOk 2 Sample.world1) by (apply callsOk_quiet; reflexivity).
  exact (proj2 (mutations_persist_index _ _ Sample.journal1 _ Sample.world1
                  (canDecrypt_reference _)
                  (ofBytes_toBytes (entry.index Sample.journal1))
                  Hmut Hok)).
Defined.

Lemma twoRecipients_read :
  crypto.ReadSOPSConfig "/journal" twoRecipientsWorld
  = (fst (crypto.ReadSOPSConfig "/journal" twoRecipientsWorld),
     Ok twoRecipients).
Proof. apply pair_snd. vm_compute. reflexivity. Qed.

(** X15 on two recipients. *)
Lemma CreateSOPSConfig_ReadSOPSConfig_witness :
  exists w1,
    crypto.CreateSOPSConfig "/journal" twoRecipients Sample.quietWorld
    = (w1, None)
    /\ exists w3, crypto.ReadSOPSConfig "/journal" w1 = (w3, Ok twoRecipients)
                  /\ files w3 = files w1.
Proof.
  eexists.
  assert (Hcreate :
    crypto.CreateSOPSConfig "/journal" twoRecipients Sample.quietWorld
    = (twoRecipientsWorld, None))
    by (apply pair_snd; vm_compute; reflexivity).
  split; [exact Hcreate|].
  assert (Hall : Forall (fun r => listable r = true) twoRecipients)
    by (repeat constructor).
  assert (Hok : callsOk 1 twoRecipientsWorld)
    by (apply callsOk_quiet; reflexivity).
  exact (CreateSOPSConfig_ReadSOPSConfig_roundtrip "/journal" twoRecipients
           Sample.quietWorld twoRecipientsWorld twoRecipientsWorld Hall
           (ofBytes_toBytes (sopsConfigOf twoRecipients)) Hcreate eq_refl Hok).
Defined.

(** X16: "age1alice" is removed from the two recipients. *)
Lemma RemoveRecipient_removes_witness :
  exists w1,
    crypto.RemoveRecipient "/journal" "age1alice" twoRecipientsWorld
    = (w1, None)
    /\ crypto.withoutRecipient twoRecipients "age1alice" = ["age1bob"]
    /\ exists w2, crypto.ReadSOPSConfig "/journal" w1 = (w2, Ok ["age1bob"])
                  /\ files w2 = files w1.
Proof.
  eexists.
  assert (Hrm :
    crypto.RemoveRecipient "/journal" "age1alice" twoRecipientsWorld
    = (fst (crypto.RemoveRecipient "/journal" "age1alice" twoRecipientsWorld),
       None))
    by (apply pair_snd; vm_compute; reflexivity).
  split; [exact Hrm|]. split; [reflexivity|].
  assert (Hall : Forall (fun r => listable r = true) twoRecipients)
    by (repeat constructor).
  assert (Hok : callsOk 1 (fst (crypto.RemoveRecipient "/journal" "age1alice"
                                  twoRecipientsWorld)))
    by (apply callsOk_quiet; reflexivity).
  exact (proj2 (proj2 (proj2 (proj2
           (RemoveRecipient_removes "/journal" "age1alice" twoRecipients
              twoRecipientsWorld _ _ twoRecipients_read Hrm Hall
              (ofBytes_toBytes
                 (sopsConfigOf (crypto.withoutRecipient twoRecipients
                                  "age1alice")))
              Hok))))).
Defined.

(** X17: "age1carol" is added to the two recipients. *)
Lemma AddRecipient_appends_witness :
  exists w1,
    crypto.AddRecipient "/journal" "age1carol" twoRecipientsWorld = (w1, None)
    /\ exists w2,
         crypto.ReadSOPSConfig "/journal" w1
         = (w2, Ok ["age1alice"; "age1bob"; "age1carol"])
         /\ files w2 = files w1.
Proof.
  eexists.
  assert (Hadd :
    crypto.AddRecipient "/journal" "age1carol" twoRecipientsWorld
    = (fst (crypto.AddRecipient "/journal" "age1carol" twoRecipientsWorld),
       None))
    by (apply pair_snd; vm_compute; reflexivity).
  split; [exact Hadd|].
  assert (Hall : Forall (fun r => listable r = true)
                   (twoRecipients ++ ["age1carol"]))
    by (repeat constructor).
  assert (Hok : callsOk 1 (fst (crypto.AddRecipient "/journal" "age1carol"
                                  twoRecipientsWorld)))
    by (apply callsOk_quiet; reflexivity).
  exact (proj2 (proj2 (proj2
           (AddRecipient_appends "/journal" "age1carol" twoRecipients
              twoRecipientsWorld _ _ twoRecipients_read Hadd Hall
              (ofBytes_toBytes (sopsConfigOf (twoRecipients ++ ["age1carol"])))
              Hok)))).
Defined.


Lemma decryptsFor_reference rs : decryptsFor rs.
Proof. intros data c [= <-]. reflexivity. Qed.

Lemma sample_backup :
  crypto.BackupSOPSConfig "/journal" quietConfigured
  = (backedUp, Ok Sample.backupPath).
Proof. apply pair_snd. vm_compute. reflexivity. Qed.

Lemma sample_backupPath : Sample.backupPath <> crypto.sopsConfigPath "/journal".
Proof. vm_compute. discriminate. Qed.

(** X20: a rotation to no recipient at all. *)
Lemma TransactionalReEncrypt_rejects_witness :
  let '(w', res, err) :=
    crypto.TransactionalReEncrypt "/journal" [] Sample.listTwo Sample.allGood
      Sample.indexGood quietConfigured in
  err = Some (wrap "failed to update .sops.yaml: "
                (errorString "no recipients provided"))
  /\ res = noAttempt
  /\ files w' !! crypto.sopsConfigPath "/journal"
     = files quietConfigured !! crypto.sopsConfigPath "/journal"
  /\ files w' !! Sample.backupPath = None.
Proof.
  assert (Hc : crypto.CreateSOPSConfig "/journal" [] backedUp
               = (backedUp, Some (errorString "no recipients provided")))
    by reflexivity.
  assert (Hr : crypto.RestoreSOPSConfig "/journal" Sample.backupPath backedUp
               = (fst (crypto.RestoreSOPSConfig "/journal" Sample.backupPath
                         backedUp), None))
    by (apply pair_snd; vm_compute; reflexivity).
  destruct (TransactionalReEncrypt_rejects_recipients "/journal" []
              Sample.listTwo Sample.allGood Sample.indexGood quietConfigured
              backedUp backedUp _ Sample.backupPath _ sample_backup Hc
              sample_backupPath Hr) as (Heq & Hcfg & Hbp & _).
  rewrite Heq. split; [done|]. split; [done|]. split; [exact Hcfg|exact Hbp].
Defined.

(** X21: a rotation whose listing of the entry files fails. *)
Lemma TransactionalReEncrypt_listing_witness :
  let '(w', res, err) :=
    crypto.TransactionalReEncrypt "/journal" ["age1alice"; "age1bob"]
      listFails Sample.allGood Sample.indexGood quietConfigured in
  err = Some (wrap "failed to list entries: " (errorString "cannot list"))
  /\ res = noAttempt
  /\ files w' !! crypto.sopsConfigPath "/journal"
     = files quietConfigured !! crypto.sopsConfigPath "/journal"
  /\ files w' !! Sample.backupPath = None.
Proof.
  assert (Hc : crypto.CreateSOPSConfig "/journal" ["age1alice"; "age1bob"]
                 backedUp = (rotated, None))
    by (apply pair_snd; vm_compute; reflexivity).
  assert (Hl : listFails rotated = (rotated, Err (errorString "cannot list")))
    by reflexivity.
  assert (Hr : crypto.RestoreSOPSConfig "/journal" Sample.backupPath rotated
               = (fst (crypto.RestoreSOPSConfig "/journal" Sample.backupPath
                         rotated), None))
    by (apply pair_snd; vm_compute; reflexivity).
  destruct (TransactionalReEncrypt_listing_failure "/journal"
              ["age1alice"; "age1bob"] listFails Sample.allGood
              Sample.indexGood quietConfigured backedUp rotated rotated _
              Sample.backupPath _ sample_backup Hc Hl sample_backupPath
              eq_refl Hr) as (Heq & Hcfg & Hbp).
  rewrite Heq. split; [done|]. split; [done|]. split; [exact Hcfg|exact Hbp].
Defined.

(** X22 on a journal initialised for two recipients. *)
Lemma InitializeJournal_opens_empty_witness :
  exists w1,
    entry.InitializeJournal sampleConfig twoRecipients Sample.quietWorld
    = (w1, None)
    /\ exists w2 j,
         entry.NewJournalFromConfig sampleConfig w1 = (w2, Ok j)
         /\ entry.index j = Index.NewIndex
         /\ entry.ListAll j = []
         /\ crypto.recipients (storage.encryptor (entry.storage j))
            = twoRecipients.
Proof.
  eexists.
  assert (Hinit :
    entry.InitializeJournal sampleConfig twoRecipients Sample.quietWorld
    = (fst (entry.InitializeJournal sampleConfig twoRecipients
              Sample.quietWorld), None))
    by (apply pair_snd; vm_compute; reflexivity).
  split; [exact Hinit|].
  assert (Hall : Forall (fun r => listable r = true) twoRecipients)
    by (repeat constructor).
  assert (Hok : callsOk 5 (fst (entry.InitializeJournal sampleConfig
                                  twoRecipients Sample.quietWorld)))
    by (apply callsOk_quiet; vm_compute; reflexivity).
  destruct (@InitializeJournal_opens_empty
              Reference.provider Reference.indexCodec sampleConfig
              twoRecipients Sample.quietWorld _ Hall
              (ofBytes_toBytes (sopsConfigOf twoRecipients))
              (ofBytes_toBytes Index.NewIndex)
              (decryptsFor_reference twoRecipients) Hinit Hok)
    as (w2 & j & Hopen & Hidx & Hlist & _ & Hrs & _).
  exists w2, j. by repeat split.
Defined.

(** X23 on the sample configuration, on a disk without any file. *)
Lemma NewJournalFromConfig_uninitialised_witness :
  files Sample.quietWorld !! crypto.sopsConfigPath (config.Path sampleConfig)
  = None
  /\ exists w' err,
       entry.NewJournalFromConfig sampleConfig Sample.quietWorld
       = (w', Err err)
       /\ files w' = files Sample.quietWorld.
Proof.
  assert (Hnone :
    files Sample.quietWorld !! crypto.sopsConfigPath (config.Path sampleConfig)
    = None) by reflexivity.
  split; [exact Hnone|].
  destruct (@NewJournalFromConfig_uninitialised
              Reference.provider Reference.indexCodec sampleConfig
              Sample.quietWorld Hnone) as (w' & Hopen & Hfiles & _).
  exists w'. eexists. split; [exact Hopen|exact Hfiles].
Defined.

(** X24 on the test entry carrying version 7. *)
Lemma ToYaml_stamps_version_witness :
  EntryV1.Version staleEntry = 7
  /\ fst (ToYaml staleEntry) = Sample.testEntry
  /\ exists data,
       snd (ToYaml staleEntry) = Ok data
       /\ ParseYaml data = Ok (V1 Sample.testEntry).
Proof.
  split; [reflexivity|].
  assert (Hid : EntryV1.Id staleEntry <> "") by discriminate.
  destruct (@ToYaml_stamps_version Reference.textLayer staleEntry Hid eq_refl
              (ofBytes_toBytes (encodeEntryV1 (stamped staleEntry))))
    as (Hfst & _ & Hdata).
  split; [exact Hfst|exact Hdata].
Defined.

(** X25 on the sample journal: the search by the tag of its entry. *)
Lemma search_returns_readable_witness :
  exists w',
    search (QTag "tag1") Sample.journal1 (Sample.world1, [])
    = (w', [], Ok [V1 sampleEntry])
    /\ files w' = files Sample.world1.
Proof.
  assert (Hok : callsOk (2 * length (idsOf (QTag "tag1")
                                       (entry.index Sample.journal1)))
                  Sample.world1)
    by (apply callsOk_quiet; reflexivity).
  destruct (search_returns_readable (QTag "tag1") Sample.journal1 Sample.world1
              [] Hok) as (w' & entries & Hsearch & Hfiles & Hperm & _).
  assert (Hloaded :
    loaded (outcomesOf Sample.journal1 (files Sample.world1)
              (idsOf (QTag "tag1") (entry.index Sample.journal1)))
    = [V1 sampleEntry]) by (vm_compute; reflexivity).
  assert (Hwarn :
    warnings (outcomesOf Sample.journal1 (files Sample.world1)
                (idsOf (QTag "tag1") (entry.index Sample.journal1)))
    = []) by (vm_compute; reflexivity).
  rewrite Hloaded in Hperm. apply Permutation_singleton_r in Hperm.
  rewrite Hwarn, Hperm in Hsearch.
  exists w'. split; [exact Hsearch|exact Hfiles].
Defined.

